(** * EagleVision pizza monitor: pipeline orchestration and violation rule

  A shallow embedding of the three services of the repository

  - [services/detection/app.py]    (module [Detection]),
  - [services/streaming/app.py]    (module [Streaming]),
  - [services/frame_reader/app.py] (module [FrameReader]),

  followed by the properties of the specification that were checked
  against them.

  Conventions of the embedding.
  - Bounding-box coordinates and frame rates are Python floats in the
    source.  The services are embedded over exact rationals ([Q]); the
    overlap predicate is embedded a second time over IEEE 754 doubles
    (modules [Binary64] and [Detection64]), and the two embeddings are
    proved to take the same decisions on coordinates of moderate
    magnitude, which include every finite single-precision value.
    Integers are [Z].
  - An operation that may raise is a value of [exn A]: [Ok a] or
    [Raise msg], where [msg] is the text of the exception.
  - The external collaborators (JSON parser, image codec, detector, store,
    broker) are fields of an environment record; the handlers are
    functions of that environment.
  - A message handler produces the list of its observable effects, in
    order ([Event]). *)

From Stdlib Require Import ZArith QArith Qminmax Qround Qabs Qpower.
From Stdlib Require Import Lqa Lia Bool List Sorted.
From Stdlib Require Import OrdersEx Floats.
From stdpp Require Import gmap strings pretty sorting.
Import ListNotations.

Local Open Scope Z_scope.

(** ** Exceptions *)

Inductive exn (A : Type) : Type :=
| Ok (a : A)
| Raise (msg : string).
Arguments Ok {A} a.
Arguments Raise {A} msg.

(** ** Python builtins on numbers *)

Definition Qltb (a b : Q) : bool :=
match Qcompare a b with Lt => true | _ => false end.

Definition Qleb (a b : Q) : bool :=
match Qcompare a b with Gt => false | _ => true end.

(** [max(a, b)] keeps [a] unless [b > a]; [min(a, b)] keeps [a] unless
  [b < a]. *)
Definition py_max (a b : Q) : Q := if Qltb a b then b else a.
Definition py_min (a b : Q) : Q := if Qltb b a then b else a.

(** [int(x)] on a float: truncation toward zero. *)
Definition py_int (x : Q) : Z := Z.quot (Qnum x) (Zpos (Qden x)).

(** ** Bounding boxes, [(x1, y1, x2, y2)] *)

Record BBox : Type := mkBBox { bx1 : Q; by1 : Q; bx2 : Q; by2 : Q }.

Definition box_of_ints (a b c d : Z) : BBox :=
mkBBox (inject_Z a) (inject_Z b) (inject_Z c) (inject_Z d).

(** ** Python floats: IEEE 754 binary64, rounding to nearest even

  A float is a NaN, an infinity or a finite number; [Fin q] stands for the
  double of value [q].  The two zeros are not told apart: the code below
  only compares, subtracts and multiplies, and none of these depends on
  the sign of a zero except through the sign of another zero. *)
Module Binary64.

Inductive float : Type :=
| NaN
| Inf (negative : bool)
| Fin (q : Q).

Definition pow2 (e : Z) : Q := (2 ^ e)%Q.

(** The binary exponent of a positive rational: the [e] with
    [2^e <= a < 2^(e+1)]. *)
Definition ilog2 (a : Q) : Z :=
  let e := Z.log2 (Qnum a) - Z.log2 (Zpos (Qden a)) in
  if Qleb (pow2 e) a then e else e - 1.

(** The integer nearest to [x], the even one of the two when [x] is half
    way. *)
Definition rne (x : Q) : Z :=
  let f := Qfloor x in
  match Qcompare (x - inject_Z f) (1 # 2) with
  | Lt => f
  | Gt => f + 1
  | Eq => if Z.even f then f else f + 1
  end.

(** The double nearest to the real number [q]: 53 significant bits, the
    exponent of the unit in the last place no less than -1074 (gradual
    underflow), and an infinity when the rounded magnitude reaches
    [2^1024]. *)
Definition round (q : Q) : float :=
  if Qeq_bool q 0 then Fin 0
  else
    let a := Qabs q in
    let e := Z.max (ilog2 a) (-1022) in
    let u := pow2 (e - 52) in
    let a' := (inject_Z (rne (a / u)) * u)%Q in
    if Qleb (pow2 1024) a' then Inf (Qltb q 0)
    else Fin (if Qltb q 0 then - a' else a')%Q.

(** [x - y] *)
Definition fsub (x y : float) : float :=
  match x, y with
  | NaN, _ | _, NaN => NaN
  | Inf s, Inf s' => if Bool.eqb s s' then NaN else Inf s
  | Inf s, Fin _ => Inf s
  | Fin _, Inf s => Inf (negb s)
  | Fin a, Fin b => round (a - b)
  end.

(** [x * y]: an infinity times zero is a NaN. *)
Definition fmul (x y : float) : float :=
  match x, y with
  | NaN, _ | _, NaN => NaN
  | Inf s, Inf s' => Inf (xorb s s')
  | Inf s, Fin b => if Qeq_bool b 0 then NaN else Inf (xorb s (Qltb b 0))
  | Fin a, Inf s => if Qeq_bool a 0 then NaN else Inf (xorb (Qltb a 0) s)
  | Fin a, Fin b => round (a * b)
  end.

(** [x < y] and [x <= y]: false as soon as one side is a NaN. *)
Definition flt (x y : float) : bool :=
  match x, y with
  | NaN, _ | _, NaN => false
  | Inf s, Inf s' => s && negb s'
  | Inf s, Fin _ => s
  | Fin _, Inf s => negb s
  | Fin a, Fin b => Qltb a b
  end.

Definition fle (x y : float) : bool :=
  match x, y with
  | NaN, _ | _, NaN => false
  | Inf s, Inf s' => s || negb s'
  | Inf s, Fin _ => s
  | Fin _, Inf s => negb s
  | Fin a, Fin b => Qleb a b
  end.

(** [max(a, b)] and [min(a, b)] on floats. *)
Definition fmax (a b : float) : float := if flt a b then b else a.
Definition fmin (a b : float) : float := if flt b a then b else a.

(** A bounding box of floats. *)
Record box : Type := mkBox { x1 : float; y1 : float; x2 : float; y2 : float }.

End Binary64.

(** ** Effects: state passing with exceptions

  A computation reads and updates a state [S] and either returns a value
  or raises; what it did to the state before raising stays done, as in
  Python. *)

Definition M (S A : Type) : Type := S -> exn A * S.

Definition ret {S A} (a : A) : M S A := fun s => (Ok a, s).

Definition bind {S A B} (m : M S A) (k : A -> M S B) : M S B :=
fun s => match m s with
         | (Ok a, s') => k a s'
         | (Raise e, s') => (Raise e, s')
         end.

(** Lift the outcome of a call to a collaborator. *)
Definition call {S A} (r : exn A) : M S A := fun s => (r, s).

Definition raise {S A} (msg : string) : M S A := fun s => (Raise msg, s).

Definition modify {S} (f : S -> S) : M S unit := fun s => (Ok tt, f s).

Definition get {S} : M S S := fun s => (Ok s, s).

(** [try: body  except Exception as e: handler(e)] *)
Definition try_except {S A} (body : M S A) (handler : string -> M S A)
: M S A :=
fun s => match body s with
         | (Ok a, s') => (Ok a, s')
         | (Raise e, s') => handler e s'
         end.

Notation "x <~ m ;; k" := (bind m (fun x => k))
(at level 20, m at level 99, k at level 200, only parsing).
Notation "m ;;; k" := (bind m (fun _ => k))
(at level 100, k at level 200, only parsing, right associativity).

(** A decoded image: [frame.shape[0]], [frame.shape[1]] and the pixels. *)
Record Image : Type := mkImage {
img_height : Z;
img_width : Z;
img_pixels : string
}.

(** The result of [json.loads]: an object with the fields the handlers
  read, or some other JSON value (on which [.get] and indexing raise). *)
Inductive Json (A : Type) : Type :=
| JObject (fields : A)
| JOther.
Arguments JObject {A} fields.
Arguments JOther {A}.

(** ** Startup connection loops

  What a connection loop did: how many connection attempts it made and
  for how long it slept ([time.sleep(2)] adds two seconds).  The outcome
  of the [k]-th attempt (from 0) is given by an oracle
  [attempt : nat -> exn unit]. *)
Record ConnectLog : Type := mkConnectLog {
attempts : nat;
seconds_slept : Z
}.

(** ** services/detection/app.py *)
Module Detection.

Definition ROIS : list BBox := [ box_of_ints 48 34 55 36 ].

Definition default_iou_threshold : Q := 1 # 10.

(** [boxes_overlap(boxA, boxB, iou_threshold=0.1)], in exact arithmetic.
    [Detection64.boxes_overlap] below is the same function on doubles;
    the two agree on coordinates of moderate magnitude
    ([boxes_overlap_exact]). *)
Definition boxes_overlap (boxA boxB : BBox) (iou_threshold : Q) : bool :=
  let x_left := py_max (bx1 boxA) (bx1 boxB) in
  let y_top := py_max (by1 boxA) (by1 boxB) in
  let x_right := py_min (bx2 boxA) (bx2 boxB) in
  let y_bottom := py_min (by2 boxA) (by2 boxB) in
  if Qltb x_right x_left || Qltb y_bottom y_top then false
  else
    let inter_area := ((x_right - x_left) * (y_bottom - y_top))%Q in
    if Qleb inter_area 0 then false
    else true.

(** [is_in_roi(bbox, rois)] *)
Definition is_in_roi (bbox : BBox) (rois : list BBox) : bool :=
  existsb (fun roi => boxes_overlap bbox roi default_iou_threshold) rois.

(** One entry of the detection list built from the detector's output. *)
Record Detection : Type := mkDetection {
  d_class : string;
  d_confidence : Q;
  d_bbox : BBox
}.

(** One entry of [violation_bboxes]: [{'hand': hb, 'pizza': pizza['bbox']}]. *)
Record Pairing : Type := mkPairing { p_hand : BBox; p_pizza : BBox }.

Definition hands_of (detections : list Detection) : list Detection :=
  List.filter (fun d => String.eqb (d_class d) "hand") detections.
Definition scoops_of (detections : list Detection) : list Detection :=
  List.filter (fun d => String.eqb (d_class d) "scooper") detections.
Definition pizzas_of (detections : list Detection) : list Detection :=
  List.filter (fun d => String.eqb (d_class d) "pizza") detections.

(** The state of the rule loop: [violation_count] and [violation_bboxes]. *)
Record RuleState : Type := mkRuleState {
  violation_count : Z;
  violation_bboxes : list Pairing
}.

(** [for pizza in pizzas: if boxes_overlap(hb, pizza['bbox']): ...; break] *)
Fixpoint scan_pizzas (hb : BBox) (pizzas : list Detection) (st : RuleState)
  : RuleState :=
  match pizzas with
  | [] => st
  | pizza :: rest =>
      if boxes_overlap hb (d_bbox pizza) default_iou_threshold
      then mkRuleState (violation_count st + 1)
                       (violation_bboxes st ++ [mkPairing hb (d_bbox pizza)])
      else scan_pizzas hb rest st
  end.

(** The body of [for hand in hands]. *)
Definition hand_step (rois : list BBox) (scoops pizzas : list Detection)
    (st : RuleState) (hand : Detection) : RuleState :=
  let hb := d_bbox hand in
  if is_in_roi hb rois then
    let holding_scooper :=
      existsb (fun s => boxes_overlap hb (d_bbox s) default_iou_threshold)
              scoops in
    if negb holding_scooper then scan_pizzas hb pizzas st else st
  else st.

(** Lines 204-224 of [process_frame]: the partition by class and the loop
    over the hands, from [violation_count = 0], [violation_bboxes = []]. *)
Definition evaluate_rule (rois : list BBox) (detections : list Detection)
  : RuleState :=
  let hands := hands_of detections in
  let scoops := scoops_of detections in
  let pizzas := pizzas_of detections in
  fold_left (hand_step rois scoops pizzas) hands (mkRuleState 0 []).

(** *** The frame handler *)

(** The fields [process_frame] reads with [message.get]. *)
Record FrameMessage : Type := mkFrameMessage {
  fm_frame : option string;
  fm_video_name : option string;
  fm_frame_id : option Z;
  fm_timestamp : option Q
}.

(** The row of the [INSERT INTO violations] statement. *)
Record ViolationRow : Type := mkViolationRow {
  vr_video_name : option string;
  vr_frame_id : option Z;
  vr_timestamp : option Q;
  vr_violation_type : string;
  vr_bounding_boxes : list Pairing;
  vr_detected_objects : list string;
  vr_confidence : list Q
}.

(** [result_message] *)
Record ResultMessage : Type := mkResultMessage {
  rm_video_name : option string;
  rm_frame_id : option Z;
  rm_timestamp : string;
  rm_detections : list Detection;
  rm_violation_count : Z
}.

(** The collaborators of [ViolationDetector]. *)
Record Env : Type := mkEnv {
  json_loads : string -> exn (Json FrameMessage);
  b64decode : string -> exn string;
  imdecode : string -> exn (option Image);
  model : Image -> exn (list Detection);
  (** [self.db_conn.cursor()], [cursor.execute(INSERT ...)], [cursor.close()] *)
  db_insert : ViolationRow -> exn unit;
  (** [self.channel.basic_publish(exchange='detection_results', ...)] *)
  basic_publish : ResultMessage -> exn unit;
  datetime_now : string
}.

Inductive Event : Type :=
| EInsert (row : ViolationRow)
| EPublish (msg : ResultMessage)
| EAck
| ENack (requeue : bool)
| ELogError (msg : string).

Definition emit (e : Event) : M (list Event) unit :=
  modify (fun t => t ++ [e]).

(** [message.get(...)] on the parsed body. *)
Definition fields_of (j : Json FrameMessage) : M (list Event) FrameMessage :=
  match j with
  | JObject m => ret m
  | JOther => raise "object has no attribute 'get'"
  end.

(** The parameters of the [INSERT] statement, lines 234-242. *)
Definition violation_row (message : FrameMessage) (detections : list Detection)
    (st : RuleState) : ViolationRow :=
  mkViolationRow (fm_video_name message) (fm_frame_id message)
    (fm_timestamp message) "hand_no_scooper" (violation_bboxes st)
    (map d_class detections) (map d_confidence detections).

(** [result_message], lines 247-253. *)
Definition result_message (env : Env) (message : FrameMessage)
    (detections : list Detection) (st : RuleState) : ResultMessage :=
  mkResultMessage (fm_video_name message) (fm_frame_id message)
    (datetime_now env) detections (violation_count st).

(** The [try] block of [process_frame], lines 173-262. *)
Definition process_frame_body (env : Env) (rois : list BBox) (body : string)
  : M (list Event) unit :=
  j <~ call (json_loads env body) ;;
  message <~ fields_of j ;;
  match fm_frame message with
  | None => emit EAck
  | Some frame_b64 =>
      frame_bytes <~ call (b64decode env frame_b64) ;;
      decoded <~ call (imdecode env frame_bytes) ;;
      match decoded with
      | None => emit EAck
      | Some frame =>
          detections <~ call (model env frame) ;;
          let st := evaluate_rule rois detections in
          (if 0 <? violation_count st then
             let row := violation_row message detections st in
             call (db_insert env row) ;;;
             emit (EInsert row)
           else ret tt) ;;;
          let msg := result_message env message detections st in
          call (basic_publish env msg) ;;;
          emit (EPublish msg) ;;;
          emit EAck
      end
  end.

(** [process_frame(self, ch, method, properties, body)]: the effects of
    handling one frame message, in order. *)
Definition process_frame (env : Env) (body : string) : list Event :=
  snd (try_except (process_frame_body env ROIS body)
         (fun e => emit (ELogError e) ;;; emit (ENack false)) []).

(** *** Startup *)

Definition max_retries : Z := 5.

(** The loop of [connect_db] and of [connect_rabbitmq] (lines 115-129 and
    136-168): [while retry_count < max_retries], the [try] returns on
    success, the [except] increments [retry_count] and sleeps.  The
    result is [true] when the method returned from the [try] with the
    connection stored, [false] when the loop ended and the method fell
    through (returning [None], the attribute left at [None]).
    [None] means the fuel ran out. *)
Fixpoint connect_loop (fuel : nat) (attempt : nat -> exn unit)
    (retry_count : Z) (log : ConnectLog) : option (bool * ConnectLog) :=
  match fuel with
  | O => None
  | S fuel' =>
      if retry_count <? max_retries then
        let tried := mkConnectLog (S (attempts log)) (seconds_slept log) in
        match attempt (attempts log) with
        | Ok _ => Some (true, tried)
        | Raise _ =>
            connect_loop fuel' attempt (retry_count + 1)
              (mkConnectLog (attempts tried) (seconds_slept tried + 2))
        end
      else Some (false, log)
  end.

Definition connect_db (fuel : nat) (attempt : nat -> exn unit)
  : option (bool * ConnectLog) :=
  connect_loop fuel attempt 0 (mkConnectLog 0 0).

Definition connect_rabbitmq (fuel : nat) (attempt : nat -> exn unit)
  : option (bool * ConnectLog) :=
  connect_loop fuel attempt 0 (mkConnectLog 0 0).

(** The attributes of [ViolationDetector] set by the two methods:
    whether [self.db_conn] and [self.channel] hold a connection. *)
Record Detector : Type := mkDetector {
  db_conn : bool;
  channel : bool
}.

(** How the start of the service ends.  [Consuming]: an attempt of
    [connect_rabbitmq] went through its declarations and the service is in
    its consumer loop.  [Unbound]: no attempt did, and [start_consuming]
    is called on whatever the failed attempts left in [self.channel]:
    [None] when every attempt failed before line 146 (the call then raises
    an [AttributeError] that nothing catches), or the channel of an attempt
    that failed in a later declaration; the model does not say how that
    call ends. *)
Inductive Process : Type :=
| Consuming (d : Detector) (db_log mq_log : ConnectLog)
| Unbound (db_log mq_log : ConnectLog).

(** The [__main__] block, lines 293-296: [connect_db()],
    [connect_rabbitmq()], [start_consuming()]. *)
Definition main (fuel : nat) (db_attempt mq_attempt : nat -> exn unit)
  : option Process :=
  match connect_db fuel db_attempt with
  | None => None
  | Some (db, db_log) =>
      match connect_rabbitmq fuel mq_attempt with
      | None => None
      | Some (ch, mq_log) =>
          if ch then Some (Consuming (mkDetector db ch) db_log mq_log)
          else Some (Unbound db_log mq_log)
      end
  end.

(** *** Construction and the consumer loop *)

(** A loaded model, as the handler uses it: [self.model(frame, ...)]
    followed by the construction of the detection list. *)
Definition YOLO : Type := Image -> exn (list Detection).

(** [__init__], lines 88-104: a missing model file raises; a model that
    fails to load is logged and leaves [self.model = None]. *)
Definition init (path_exists : bool) (load : exn YOLO) : exn (option YOLO) :=
  if negb path_exists then Raise "Model file not found"
  else match load with
       | Ok m => Ok (Some m)
       | Raise _ => Ok None
       end.

(** Calling [self.model]: [None] is not callable. *)
Definition call_model (self_model : option YOLO) (frame : Image)
  : exn (list Detection) :=
  match self_model with
  | Some m => m frame
  | None => Raise "'NoneType' object is not callable"
  end.

(** The collaborators of a detector whose [self.model] is [self_model]. *)
Definition with_model (env : Env) (self_model : option YOLO) : Env :=
  mkEnv (json_loads env) (b64decode env) (imdecode env)
    (call_model self_model) (db_insert env) (basic_publish env)
    (datetime_now env).

(** [start_consuming], lines 268-276: with a prefetch of 1 the callback
    [process_frame] runs on the delivered bodies one after the other. *)
Definition start_consuming (env : Env) (bodies : list string) : list Event :=
  flat_map (process_frame env) bodies.

End Detection.

(** *** The overlap predicate in floating point

  The same two functions on doubles.  The ROI coordinates are Python
  integers in the source; they, and their differences, are small enough
  to be doubles, on which the integer and the float operations agree. *)
Module Detection64.
Import Binary64.

Definition ROIS : list box :=
  [ mkBox (Fin (inject_Z 48)) (Fin (inject_Z 34))
      (Fin (inject_Z 55)) (Fin (inject_Z 36)) ].

Definition default_iou_threshold : float := round (1 # 10).

(** [boxes_overlap(boxA, boxB, iou_threshold=0.1)] *)
Definition boxes_overlap (boxA boxB : box) (iou_threshold : float) : bool :=
  let x_left := fmax (x1 boxA) (x1 boxB) in
  let y_top := fmax (y1 boxA) (y1 boxB) in
  let x_right := fmin (x2 boxA) (x2 boxB) in
  let y_bottom := fmin (y2 boxA) (y2 boxB) in
  if flt x_right x_left || flt y_bottom y_top then false
  else
    let inter_area := fmul (fsub x_right x_left) (fsub y_bottom y_top) in
    if fle inter_area (Fin 0) then false
    else true.

(** [is_in_roi(bbox, rois)] *)
Definition is_in_roi (bbox : box) (rois : list box) : bool :=
  existsb (fun roi => boxes_overlap bbox roi default_iou_threshold) rois.

End Detection64.

(** The overlap predicate once more, on the primitive doubles of the
    kernel, against which the model above is checked on the inputs where
    rounding matters. *)
Module DetectionPrim.

Definition py_max (a b : PrimFloat.float) : PrimFloat.float :=
  if PrimFloat.ltb a b then b else a.
Definition py_min (a b : PrimFloat.float) : PrimFloat.float :=
  if PrimFloat.ltb b a then b else a.

Definition boxes_overlap
    (xa1 ya1 xa2 ya2 xb1 yb1 xb2 yb2 : PrimFloat.float) : bool :=
  let x_left := py_max xa1 xb1 in
  let y_top := py_max ya1 yb1 in
  let x_right := py_min xa2 xb2 in
  let y_bottom := py_min ya2 yb2 in
  if PrimFloat.ltb x_right x_left || PrimFloat.ltb y_bottom y_top then false
  else
    let inter_area :=
      PrimFloat.mul (PrimFloat.sub x_right x_left)
        (PrimFloat.sub y_bottom y_top) in
    if PrimFloat.leb inter_area PrimFloat.zero then false
    else true.

(** [2.0 ** e] *)
Definition two_to (e : Z) : PrimFloat.float := Z.ldexp PrimFloat.one e.

(** A primitive double as a float of the model. *)
Definition to_model (x : PrimFloat.float) : Binary64.float :=
  match Prim2SF x with
  | S754_zero _ => Binary64.Fin 0
  | S754_infinity s => Binary64.Inf s
  | S754_nan => Binary64.NaN
  | S754_finite s m e =>
      Binary64.Fin ((if s then - inject_Z (Zpos m) else inject_Z (Zpos m))
                    * Binary64.pow2 e)
  end.

End DetectionPrim.


(** ** services/streaming/app.py *)
Module Streaming.

(** The fields [process_detection] reads from a result message, and the
    body it was parsed from.  A field is [None] when the object has no such
    key, [Some] of a string for the name and [Some] of an integer for the
    count: these are the objects the detection service publishes, and the
    ones from which a key was dropped.  An object that carries another
    kind of value under one of the two keys (a null name, a count that is
    a string) has no counterpart in this record. *)
Record ResultMessage : Type := mkResultMessage {
  rm_video_name : option string;
  rm_violation_count : option Z;
  rm_body : string
}.

(** A row of the [violations] table as the queries return it. *)
Record StoredViolation : Type := mkStoredViolation {
  sv_id : Z;
  sv_video_name : string;
  sv_frame_id : Z;
  sv_timestamp : string;
  sv_violation_type : string
}.

(** The store behind [self.db_conn]: one field per SQL statement of the
    module, giving what [fetchone] / [fetchall] return or the exception
    raised by [cursor()] or [execute]. *)
Record Store : Type := mkStore {
  (** [SELECT COUNT( * ) as total FROM violations WHERE video_name = %s] *)
  q_count_by_video : string -> exn (option Z);
  (** [SELECT ... WHERE video_name = %s ORDER BY frame_id DESC LIMIT %s] *)
  q_list_by_video : string -> Z -> exn (list StoredViolation);
  (** [SELECT DISTINCT video_name, COUNT( * ) ... GROUP BY video_name] *)
  q_counts_per_video : exn (list (string * Z));
  (** [SELECT MIN(timestamp), MAX(timestamp) ... WHERE video_name = %s] *)
  q_first_last : string -> exn (option (option string * option string));
  (** [SELECT * FROM violations WHERE id = %s] *)
  q_by_id : Z -> exn (option StoredViolation);
  (** [SELECT COUNT( * ) as total FROM violations] *)
  q_total : exn (option Z);
  (** [SELECT COUNT(DISTINCT video_name) as total FROM violations] *)
  q_videos_with_violations : exn (option Z);
  (** [SELECT violation_type, COUNT( * ) ... GROUP BY violation_type] *)
  q_violation_types : exn (list (string * Z))
}.

(** [StreamingManager]: the store connection and the two caches. *)
Record StreamingManager : Type := mkStreamingManager {
  db_conn : Store;
  latest_detections : gmap string ResultMessage;
  video_violations : gmap string Z
}.

(** *** Startup *)

Definition max_retries : Z := 5.

(** The loop of [connect_db] and of [connect_rabbitmq] (lines 43-55 and
    62-84): on failure [retry_count] is incremented; below [max_retries]
    the loop sleeps and goes on, otherwise the exception is re-raised.
    [None] means the fuel ran out. *)
Fixpoint connect_loop (fuel : nat) (attempt : nat -> exn unit)
    (retry_count : Z) (log : ConnectLog)
  : option (exn bool * ConnectLog) :=
  match fuel with
  | O => None
  | S fuel' =>
      if retry_count <? max_retries then
        let tried := mkConnectLog (S (attempts log)) (seconds_slept log) in
        match attempt (attempts log) with
        | Ok _ => Some (Ok true, tried)
        | Raise e =>
            let retry_count := retry_count + 1 in
            if retry_count <? max_retries then
              connect_loop fuel' attempt retry_count
                (mkConnectLog (attempts tried) (seconds_slept tried + 2))
            else Some (Raise e, tried)
        end
      else Some (Ok false, log)
  end.

Definition connect_db (fuel : nat) (attempt : nat -> exn unit)
  : option (exn bool * ConnectLog) :=
  connect_loop fuel attempt 0 (mkConnectLog 0 0).

Definition connect_rabbitmq (fuel : nat) (attempt : nat -> exn unit)
  : option (exn bool * ConnectLog) :=
  connect_loop fuel attempt 0 (mkConnectLog 0 0).

(** Lines 159-173: [manager = StreamingManager(...)] inside
    [try ... except Exception], whose handler only logs.  The result is
    the module global [manager]: [Some] when [__init__] returned, [None]
    when it raised and the name was never bound.  In both cases the
    module goes on to [app.run]. *)
Definition create_manager (fuel : nat) (store : Store)
    (db_attempt mq_attempt : nat -> exn unit)
  : option (option StreamingManager) :=
  match connect_db fuel db_attempt with
  | None => None
  | Some (Raise _, _) => Some None
  | Some (Ok _, _) =>
      match connect_rabbitmq fuel mq_attempt with
      | None => None
      | Some (Raise _, _) => Some None
      | Some (Ok _, _) => Some (Some (mkStreamingManager store ∅ ∅))
      end
  end.

(** *** The result consumer *)

Inductive Event : Type :=
| EAck
| ENack (requeue : bool)
| ELogError (msg : string).

Definition Runtime : Type := StreamingManager * list Event.

Definition emit (e : Event) : M Runtime unit :=
  modify (fun '(self, t) => (self, t ++ [e])).

Definition set_latest_detection (video_name : string) (message : ResultMessage)
  : M Runtime unit :=
  modify (fun '(self, t) =>
    (mkStreamingManager (db_conn self)
       (<[video_name := message]> (latest_detections self))
       (video_violations self), t)).

Definition set_video_violations (video_name : string) (n : Z)
  : M Runtime unit :=
  modify (fun '(self, t) =>
    (mkStreamingManager (db_conn self) (latest_detections self)
       (<[video_name := n]> (video_violations self)), t)).

(** [message[key]] *)
Definition item {A} (key : string) (field : option A) : M Runtime A :=
  match field with
  | Some a => ret a
  | None => raise key
  end.

(** The [try] block of [process_detection], lines 89-102. *)
Definition process_detection_body (json_loads : string -> exn (Json ResultMessage))
    (body : string) : M Runtime unit :=
  j <~ call (json_loads body) ;;
  message <~ match j with
             | JObject m => ret m
             | JOther => raise "indices must be integers"
             end ;;
  video_name <~ item "video_name" (rm_video_name message) ;;
  set_latest_detection video_name message ;;;
  violation_count <~ item "violation_count" (rm_violation_count message) ;;
  st <~ get ;;
  (match video_violations (fst st) !! video_name with
   | None => set_video_violations video_name 0
   | Some _ => ret tt
   end) ;;;
  st <~ get ;;
  current <~ item video_name (video_violations (fst st) !! video_name) ;;
  set_video_violations video_name (current + violation_count) ;;;
  emit EAck.

(** [process_detection(self, ch, method, properties, body)]: the manager
    after the message and the effects on the channel. *)
Definition process_detection (json_loads : string -> exn (Json ResultMessage))
    (self : StreamingManager) (body : string)
  : StreamingManager * list Event :=
  snd (try_except (process_detection_body json_loads body)
         (fun e => emit (ELogError e) ;;; emit (ENack false))
         (self, [])).

(** The consumer loop over the bodies delivered on the result queue. *)
Definition consume (json_loads : string -> exn (Json ResultMessage))
    (self : StreamingManager) (bodies : list string) : StreamingManager :=
  fold_left (fun self body => fst (process_detection json_loads self body))
            bodies self.

(** *** Store helpers and REST endpoints

    A handler runs with the list of lines given to [logger.error] as
    state. *)

Definition log_error (msg : string) : M (list string) unit :=
  modify (fun l => l ++ [msg]).

(** [get_violation_count_from_db(self, video_name)] *)
Definition get_violation_count_from_db (self : StreamingManager)
    (video_name : string) : M (list string) Z :=
  try_except
    (result <~ call (q_count_by_video (db_conn self) video_name) ;;
     ret (match result with Some total => total | None => 0 end))
    (fun e => log_error e ;;; ret 0).

(** [get_violations_from_db(self, video_name, limit=100)] *)
Definition get_violations_from_db (self : StreamingManager)
    (video_name : string) (limit : Z) : M (list string) (list StoredViolation) :=
  try_except
    (violations <~ call (q_list_by_video (db_conn self) video_name limit) ;;
     ret violations)
    (fun e => log_error e ;;; ret []).

(** The JSON bodies of the responses. *)
Inductive Body : Type :=
| BError (error : string)
| BViolations (video_name : string) (total_violations : Z)
              (violations : list StoredViolation)
| BVideos (videos : list (string * Z)) (total_videos_with_violations : Z)
| BLatest (message : ResultMessage)
| BSummary (video_name : string) (total_violations : Z)
           (first_violation_at last_violation_at : option string)
| BDetails (violation : StoredViolation)
| BHealth
| BStatistics (total_violations videos_with_violations : Z)
              (violation_types : list (string * Z)).

Definition Response : Type := Body * Z.

(** Reading the module global [manager]. *)
Definition the_manager (manager : option StreamingManager)
  : M (list string) StreamingManager :=
  match manager with
  | Some m => ret m
  | None => raise "name 'manager' is not defined"
  end.

(** [except Exception as e: ... return jsonify({'error': str(e)}), 500] *)
Definition on_error (e : string) : M (list string) Response :=
  log_error e ;;; ret (BError e, 500).

(** [row['total']] on the result of [fetchone()]. *)
Definition total_of (row : option Z) : M (list string) Z :=
  match row with
  | Some total => ret total
  | None => raise "'NoneType' object is not subscriptable"
  end.

Definition get_violations (manager : option StreamingManager)
    (video_name : string) : M (list string) Response :=
  try_except
    (self <~ the_manager manager ;;
     count <~ get_violation_count_from_db self video_name ;;
     violations <~ get_violations_from_db self video_name 100 ;;
     ret (BViolations video_name count violations, 200))
    on_error.

Definition get_all_violations (manager : option StreamingManager)
  : M (list string) Response :=
  try_except
    (self <~ the_manager manager ;;
     results <~ call (q_counts_per_video (db_conn self)) ;;
     ret (BVideos results (Z.of_nat (length results)), 200))
    on_error.

Definition get_latest_detection (manager : option StreamingManager)
    (video_name : string) : M (list string) Response :=
  try_except
    (self <~ the_manager manager ;;
     match latest_detections self !! video_name with
     | Some message => ret (BLatest message, 200)
     | None => ret (BError "No detections found", 404)
     end)
    on_error.

Definition get_video_summary (manager : option StreamingManager)
    (video_name : string) : M (list string) Response :=
  try_except
    (self <~ the_manager manager ;;
     violation_count <~ get_violation_count_from_db self video_name ;;
     result <~ call (q_first_last (db_conn self) video_name) ;;
     ret (BSummary video_name violation_count
            (match result with Some r => fst r | None => None end)
            (match result with Some r => snd r | None => None end), 200))
    on_error.

Definition get_violation_details (manager : option StreamingManager)
    (violation_id : Z) : M (list string) Response :=
  try_except
    (self <~ the_manager manager ;;
     violation <~ call (q_by_id (db_conn self) violation_id) ;;
     match violation with
     | None => ret (BError "Violation not found", 404)
     | Some v => ret (BDetails v, 200)
     end)
    on_error.

Definition health_check : M (list string) Response :=
  ret (BHealth, 200).

Definition get_statistics (manager : option StreamingManager)
  : M (list string) Response :=
  try_except
    (self <~ the_manager manager ;;
     r1 <~ call (q_total (db_conn self)) ;;
     total_violations <~ total_of r1 ;;
     r2 <~ call (q_videos_with_violations (db_conn self)) ;;
     videos_with_violations <~ total_of r2 ;;
     violation_types <~ call (q_violation_types (db_conn self)) ;;
     ret (BStatistics total_violations videos_with_violations
            violation_types, 200))
    on_error.

(** The read operations of the API: a request that the framework has
    dispatched to a handler, with its converted arguments.  The converter
    [int] of the route of line 251 accepts unsigned integers only, so a
    violation id is a natural number.  A URL that matches no route, such
    as one with a negative id, is answered by the framework with its own
    404 and is not a [Request].  Video names are not restricted: the
    requests of the model include names that no URL can carry. *)
Inductive Request : Type :=
| GetViolations (video_name : string)
| GetAllViolations
| GetLatestDetection (video_name : string)
| GetVideoSummary (video_name : string)
| GetViolationDetails (violation_id : N)
| GetHealth
| GetStatistics.

Definition route (manager : option StreamingManager) (r : Request)
  : M (list string) Response :=
  match r with
  | GetViolations v => get_violations manager v
  | GetAllViolations => get_all_violations manager
  | GetLatestDetection v => get_latest_detection manager v
  | GetVideoSummary v => get_video_summary manager v
  | GetViolationDetails i => get_violation_details manager (Z.of_N i)
  | GetHealth => health_check
  | GetStatistics => get_statistics manager
  end.

(** What the web framework sends back: the handler's response, or its
    own 500 page when the handler lets an exception escape. *)
Definition serve (manager : option StreamingManager) (r : Request)
  : Response :=
  match route manager r [] with
  | (Ok resp, _) => resp
  | (Raise _, _) => (BError "Internal Server Error", 500)
  end.

End Streaming.

(** ** services/frame_reader/app.py *)
Module FrameReader.

(** What [cap.read()] yields for one source frame, with the position
    [cap.get(CAP_PROP_POS_MSEC)] reports after reading it. *)
Record SourceFrame : Type := mkSourceFrame {
  sf_image : Image;
  sf_pos_msec : Q
}.

(** [cv2.VideoCapture(video_path)] *)
Record VideoCapture : Type := mkVideoCapture {
  isOpened : bool;
  cap_fps : Q;
  cap_frames : list SourceFrame
}.

(** The body published on the frame channel ([frame_msg]). *)
Record FrameMessage : Type := mkFrameMessage {
  fm_frame_path : string;
  fm_frame_id : Z;
  fm_video_name : string;
  fm_timestamp : Q;
  fm_frame : string;
  fm_height : Z;
  fm_width : Z
}.

Record Env : Type := mkEnv {
  (** [cv2.imencode('.jpg', ...)] followed by [base64.b64encode] *)
  imencode_b64 : Image -> exn string;
  (** [os.makedirs] and [cv2.imwrite(frame_path, frame)] *)
  imwrite : string -> Image -> exn unit;
  (** [self.channel.basic_publish(..., delivery_mode=2)] *)
  basic_publish : FrameMessage -> exn unit
}.

Inductive Event : Type :=
| EPublish (msg : FrameMessage)
| ELogError (msg : string).

Definition emit (e : Event) : M (list Event) unit :=
  modify (fun t => t ++ [e]).

(** [publish_frame(self, frame, frame_id, video_name, timestamp)] *)
Definition publish_frame (env : Env) (frame : Image) (frame_id : Z)
    (video_name : string) (timestamp : Q) : M (list Event) unit :=
  try_except
    (frame_base64 <~ call (imencode_b64 env frame) ;;
     let frame_path :=
       ("/tmp/frames/" +:+ video_name +:+ "_" +:+ pretty frame_id +:+ ".jpg")
     in
     call (imwrite env frame_path frame) ;;;
     let frame_msg :=
       mkFrameMessage frame_path frame_id video_name timestamp frame_base64
         (img_height frame) (img_width frame) in
     call (basic_publish env frame_msg) ;;;
     emit (EPublish frame_msg))
    (fun e => emit (ELogError e)).

(** [frame_skip = max(1, int(fps / max_fps))] *)
Definition frame_skip_of (fps : Q) (max_fps : Z) : Z :=
  Z.max 1 (py_int (fps / inject_Z max_fps)).

(** The [while True] loop of [read_video], lines 89-100: one iteration
    per frame the capture still holds; [frame_id] is the counter before
    the iteration. *)
Fixpoint read_loop (env : Env) (video_name : string) (frame_skip : Z)
    (frames : list SourceFrame) (frame_id : Z) : M (list Event) unit :=
  match frames with
  | [] => ret tt
  | f :: rest =>
      let frame_id := frame_id + 1 in
      (if frame_id mod frame_skip =? 0
       then publish_frame env (sf_image f) frame_id video_name (sf_pos_msec f)
       else ret tt) ;;;
      read_loop env video_name frame_skip rest frame_id
  end.

(** [read_video(self, video_path, max_fps=5)]; [video_name] is the stem
    of the path.  The division raises when [max_fps] is zero. *)
Definition read_video (env : Env) (cap : VideoCapture) (video_name : string)
    (max_fps : Z) : M (list Event) unit :=
  if negb (isOpened cap) then ret tt
  else if max_fps =? 0 then raise "float division by zero"
  else
    let frame_skip := frame_skip_of (cap_fps cap) max_fps in
    read_loop env video_name frame_skip (cap_frames cap) 0.

(** *** All the videos of a directory *)

(** [connect_rabbitmq], lines 21-33: a single attempt, whose error is
    logged and raised again. *)
Definition connect_rabbitmq (attempt : nat -> exn unit) : exn unit * ConnectLog :=
  (attempt 0%nat, mkConnectLog 1 0).

(** The file system and the capture library as [process_all_videos] uses
    them: the paths matching a pattern in the video directory, the capture
    opened on a path, and the stem of a path. *)
Record Files : Type := mkFiles {
  glob : string -> list string;
  VideoCapture_of : string -> VideoCapture;
  stem : string -> string
}.

Definition video_extensions : list string := [".mp4"; ".mkv"; ".avi"; ".mov"].

(** The order of [sorted] on the paths of one directory. *)
Definition path_le (a b : string) : Prop := String.leb a b = true.

#[global] Instance path_le_dec (a b : string) : Decision (path_le a b) :=
  decide (String.leb a b = true).

(** [sorted(video_files)] *)
Definition sorted (paths : list string) : list string :=
  merge_sort path_le paths.

(** Lines 108-111: the matches of the four patterns, in that order. *)
Definition video_files (files : Files) : list string :=
  flat_map (fun ext => glob files ("*" +:+ ext)) video_extensions.

(** The loop of lines 122-125; [read_video] is called with its default
    [max_fps=5]. *)
Fixpoint read_all (env : Env) (files : Files) (paths : list string)
  : M (list Event) unit :=
  match paths with
  | [] => ret tt
  | video_file :: rest =>
      read_video env (VideoCapture_of files video_file)
        (stem files video_file) 5 ;;;
      read_all env files rest
  end.

(** How a run of the service ends: it returns or raises with the trace so
    far, or it stays in the [while True] loop of lines 119-120. *)
Inductive Run : Type :=
| Finished (r : exn unit) (t : list Event)
| WaitsForever (t : list Event).

(** [process_all_videos(self, video_dir)] *)
Definition process_all_videos (env : Env) (files : Files) : Run :=
  if (length (video_files files) =? 0)%nat then WaitsForever []
  else
    let '(r, t) := read_all env files (sorted (video_files files)) [] in
    Finished r t.

(** The [__main__] block, lines 136-141. *)
Definition main (env : Env) (files : Files) (attempt : nat -> exn unit) : Run :=
  match fst (connect_rabbitmq attempt) with
  | Raise e => Finished (Raise e) []
  | Ok _ => process_all_videos env files
  end.

End FrameReader.


(** * The specification's own notions

  Definitions that follow the words of the specification; the properties
  below compare them with the code. *)

(** ** Overlap *)

(** The intersection rectangle of two boxes, as the specification
    describes it. *)
Definition inter_left (A B : BBox) : Q := Qmax (bx1 A) (bx1 B).
Definition inter_top (A B : BBox) : Q := Qmax (by1 A) (by1 B).
Definition inter_right (A B : BBox) : Q := Qmin (bx2 A) (bx2 B).
Definition inter_bottom (A B : BBox) : Q := Qmin (by2 A) (by2 B).

(** Its area: zero when the boxes are disjoint. *)
Definition intersection_area (A B : BBox) : Q :=
  if Qleb (inter_left A B) (inter_right A B)
     && Qleb (inter_top A B) (inter_bottom A B)
  then ((inter_right A B - inter_left A B)
        * (inter_bottom A B - inter_top A B))%Q
  else 0%Q.

Definition positive_intersection (A B : BBox) : Prop :=
  (inter_left A B < inter_right A B)%Q
  /\ (inter_top A B < inter_bottom A B)%Q.

(** *** Rectangles as boxes of doubles *)

(** The box of doubles with the coordinates of [A]. *)
Definition double_box (A : BBox) : Binary64.box :=
  Binary64.mkBox (Binary64.Fin (bx1 A)) (Binary64.Fin (by1 A))
    (Binary64.Fin (bx2 A)) (Binary64.Fin (by2 A)).

(** [q] is the value of a double. *)
Definition is_double (q : Q) : bool :=
  match Binary64.round q with
  | Binary64.Fin q' => Qeq_bool q' q
  | _ => false
  end.

(** The same float: two NaNs, the same infinity, or finite numbers of the
    same value. *)
Definition same_float (x y : Binary64.float) : bool :=
  match x, y with
  | Binary64.NaN, Binary64.NaN => true
  | Binary64.Fin a, Binary64.Fin b => Qeq_bool a b
  | Binary64.Inf s, Binary64.Inf s' => Bool.eqb s s'
  | _, _ => false
  end.

(** The operations of the model give, on the primitive doubles [x] and
    [y], what the primitive operations give. *)
Definition agree_on (x y : PrimFloat.float) : bool :=
  same_float (DetectionPrim.to_model (PrimFloat.sub x y))
    (Binary64.fsub (DetectionPrim.to_model x) (DetectionPrim.to_model y))
  && same_float (DetectionPrim.to_model (PrimFloat.mul x y))
       (Binary64.fmul (DetectionPrim.to_model x) (DetectionPrim.to_model y))
  && Bool.eqb (PrimFloat.ltb x y)
       (Binary64.flt (DetectionPrim.to_model x) (DetectionPrim.to_model y))
  && Bool.eqb (PrimFloat.leb x y)
       (Binary64.fle (DetectionPrim.to_model x) (DetectionPrim.to_model y)).

Definition is_double_box (A : BBox) : bool :=
  is_double (bx1 A) && is_double (by1 A)
  && is_double (bx2 A) && is_double (by2 A).

(** Coordinates of moderate magnitude: integer multiples of [2^-511] no
    larger than [2^510] in absolute value.  Every finite single-precision
    number is one (a multiple of [2^-149] below [2^128]), and so is every
    integer up to [2^510]. *)
Definition on_grid (q : Q) : bool :=
  Qeq_bool (inject_Z (Qfloor (q * Binary64.pow2 511))) (q * Binary64.pow2 511).

Definition moderate (q : Q) : bool :=
  on_grid q && Qleb (- Binary64.pow2 510) q && Qleb q (Binary64.pow2 510).

Definition moderate_box (A : BBox) : bool :=
  moderate (bx1 A) && moderate (by1 A) && moderate (bx2 A) && moderate (by2 A).

(** ** Violation pairings *)

Section PairingSpec.
Import Detection.

Definition overlaps (a b : BBox) : bool :=
  boxes_overlap a b default_iou_threshold.

(** A hand is covered iff it overlaps some utensil detection. *)
Definition covered (hb : BBox) (detections : list Detection) : bool :=
  existsb (fun d => String.eqb (d_class d) "scooper" && overlaps hb (d_bbox d))
          detections.

(** The first pizza, in the order of the detection list, that the hand
    overlaps. *)
Definition first_pizza (hb : BBox) (detections : list Detection)
  : option Detection :=
  find (fun d => String.eqb (d_class d) "pizza" && overlaps hb (d_bbox d))
       detections.

(** What one detection contributes: nothing unless it is a hand in scope
    that is not covered and overlaps a pizza, and then one pairing. *)
Definition pairing_of (rois : list BBox) (detections : list Detection)
    (d : Detection) : list Pairing :=
  if String.eqb (d_class d) "hand"
     && existsb (overlaps (d_bbox d)) rois
     && negb (covered (d_bbox d) detections)
  then match first_pizza (d_bbox d) detections with
       | Some pizza => [mkPairing (d_bbox d) (d_bbox pizza)]
       | None => []
       end
  else [].

Definition spec_pairings (rois : list BBox) (detections : list Detection)
  : list Pairing :=
  flat_map (pairing_of rois detections) detections.

End PairingSpec.


(** ** The frame handler *)

(** What the [except] clause of [process_frame] leaves on the channel. *)
Definition nacked (e : string) : list Detection.Event :=
  [Detection.ELogError e; Detection.ENack false].

(** ** The result aggregator *)

(** The messages of one video, their violation counts, and the sum of the
    counts. *)
Definition for_video (v : string) (msgs : list Streaming.ResultMessage)
  : list Streaming.ResultMessage :=
  filter (fun m => Streaming.rm_video_name m = Some v) msgs.

Definition count_of (m : Streaming.ResultMessage) : Z :=
  default 0 (Streaming.rm_violation_count m).

Definition sum_of_counts (msgs : list Streaming.ResultMessage) : Z :=
  foldr Z.add 0 (map count_of msgs).

(** A body that parses to a result message with both fields present. *)
Definition well_formed (json_loads : string -> exn (Json Streaming.ResultMessage))
    (m : Streaming.ResultMessage) : Prop :=
  json_loads (Streaming.rm_body m) = Ok (JObject m)
  /\ is_Some (Streaming.rm_video_name m)
  /\ is_Some (Streaming.rm_violation_count m).

(** ** The frame producer *)

(** The decimation stride of the specification. *)
Definition stride (nativeRate : Q) (samplingRate : Z) : Z :=
  Z.max 1 (Qfloor (nativeRate / inject_Z samplingRate)).

(** The frames of a source, each with its index, the count starting at
    [first]. *)
Definition indexed_from (first : nat) (frames : list FrameReader.SourceFrame)
  : list (Z * FrameReader.SourceFrame) :=
  combine (map Z.of_nat (seq first (length frames))) frames.

(** The frames whose index is a multiple of [k]. *)
Definition sampled_from (first : nat) (k : Z)
    (frames : list FrameReader.SourceFrame)
  : list (Z * FrameReader.SourceFrame) :=
  List.filter (fun p => fst p mod k =? 0) (indexed_from first frames).

Definition sampled (k : Z) (frames : list FrameReader.SourceFrame)
  : list (Z * FrameReader.SourceFrame) :=
  sampled_from 1 k frames.

(** The Frame message of an indexed frame, [enc] being the encoder. *)
Definition frame_message (enc : Image -> string) (video_name : string)
    (p : Z * FrameReader.SourceFrame) : FrameReader.FrameMessage :=
  FrameReader.mkFrameMessage
    ("/tmp/frames/" +:+ video_name +:+ "_" +:+ pretty (fst p) +:+ ".jpg")
    (fst p) video_name (FrameReader.sf_pos_msec (snd p))
    (enc (FrameReader.sf_image (snd p)))
    (img_height (FrameReader.sf_image (snd p)))
    (img_width (FrameReader.sf_image (snd p))).

(** What [publish_frame] does for an indexed frame. *)
Definition publish_events (env : FrameReader.Env) (video_name : string)
    (p : Z * FrameReader.SourceFrame) : list FrameReader.Event :=
  snd (FrameReader.publish_frame env (FrameReader.sf_image (snd p)) (fst p)
         video_name (FrameReader.sf_pos_msec (snd p)) []).

(** ** Notions used by the further properties *)

(** A box with positive width and height. *)
Definition nondegenerate (A : BBox) : Prop :=
  (bx1 A < bx2 A)%Q /\ (by1 A < by2 A)%Q.

(** [outer] contains [inner]. *)
Definition contains (outer inner : BBox) : Prop :=
  (bx1 outer <= bx1 inner)%Q /\ (by1 outer <= by1 inner)%Q
  /\ (bx2 inner <= bx2 outer)%Q /\ (by2 inner <= by2 outer)%Q.

(** A detection that breaks the rule: a hand in scope that no utensil
    covers and that overlaps some pizza. *)
Definition offending (rois : list BBox)
    (detections : list Detection.Detection) (d : Detection.Detection) : bool :=
  String.eqb (Detection.d_class d) "hand"
  && existsb (overlaps (Detection.d_bbox d)) rois
  && negb (covered (Detection.d_bbox d) detections)
  && existsb (fun p => String.eqb (Detection.d_class p) "pizza"
                       && overlaps (Detection.d_bbox d) (Detection.d_bbox p))
             detections.

(** The classes the rule looks at. *)
Definition known_class (d : Detection.Detection) : bool :=
  String.eqb (Detection.d_class d) "hand"
  || String.eqb (Detection.d_class d) "scooper"
  || String.eqb (Detection.d_class d) "pizza".

(** The acknowledgment decisions among the events of the frame handler. *)
Definition is_decision (e : Detection.Event) : bool :=
  match e with
  | Detection.EAck | Detection.ENack _ => true
  | _ => false
  end.

(** Whether an attempt succeeded, the first of the five attempts that
    does, and the text of a failed attempt. *)
Definition succeeded (r : exn unit) : bool :=
  match r with Ok _ => true | Raise _ => false end.

Definition first_success (attempt : nat -> exn unit) : option nat :=
  find (fun k => succeeded (attempt k)) (seq 0 5).

Definition error_of (r : exn unit) : string :=
  match r with Raise e => e | Ok _ => "" end.

(** The attempts and the sleeps of the detection service's loop: a success
    at attempt [k] comes after [k] failures, each followed by a sleep. *)
Definition detection_log (attempt : nat -> exn unit) : ConnectLog :=
  match first_success attempt with
  | Some k => mkConnectLog (S k) (2 * Z.of_nat k)
  | None => mkConnectLog 5 10
  end.

(** The same for the streaming service, which does not sleep after the
    fifth failure. *)
Definition streaming_log (attempt : nat -> exn unit) : ConnectLog :=
  match first_success attempt with
  | Some k => mkConnectLog (S k) (2 * Z.of_nat k)
  | None => mkConnectLog 5 8
  end.

(** What one sampled frame leaves in the trace of the reader: its Frame
    message, carrying its index, or a logged error. *)
Definition event_of_frame (video_name : string)
    (p : Z * FrameReader.SourceFrame) (e : FrameReader.Event) : Prop :=
  (exists msg,
      e = FrameReader.EPublish msg
      /\ FrameReader.fm_frame_id msg = fst p
      /\ FrameReader.fm_video_name msg = video_name
      /\ FrameReader.fm_timestamp msg = FrameReader.sf_pos_msec (snd p)
      /\ FrameReader.fm_height msg = img_height (FrameReader.sf_image (snd p))
      /\ FrameReader.fm_width msg = img_width (FrameReader.sf_image (snd p)))
  \/ (exists err, e = FrameReader.ELogError err).

(** The events of reading one video file. *)
Definition video_events (env : FrameReader.Env) (files : FrameReader.Files)
    (path : string) : list FrameReader.Event :=
  snd (FrameReader.read_video env (FrameReader.VideoCapture_of files path)
         (FrameReader.stem files path) 5 []).


(** * Concrete inputs *)

(** Doubles on which the model is compared with the primitive operations:
    zeros, ordinary numbers, numbers that are not binary fractions,
    subnormal numbers, the largest doubles, the infinities and a NaN.  A
    decimal literal denotes the nearest double, as in Python. *)
#[warnings="-inexact-float"] Definition sample_doubles
  : list PrimFloat.float :=
  [ 0; -0; 1; -1; 0.1; 0.3; -2.5; 48; 55.75; 3.0000000000000004; 1e16;
    9007199254740993; 1e-300; -1e-300; 5e-324; 2.2250738585072014e-308;
    DetectionPrim.two_to (-600); DetectionPrim.two_to (-537);
    DetectionPrim.two_to 1023; - DetectionPrim.two_to 1023;
    1.7976931348623157e308; 1e200; -1e200;
    PrimFloat.infinity; PrimFloat.neg_infinity; PrimFloat.nan ]%float.

(** A square of side [2^-600] in the corner of the unit square: the area
    of their intersection, [2^-1200], is below the smallest double. *)
Definition tiny_box : BBox :=
  mkBBox 0 0 (Binary64.pow2 (-600)) (Binary64.pow2 (-600)).
Definition unit_box : BBox := mkBBox 0 0 1 1.

(** Two boxes of width [2^1024], which is not a double, one on top of the
    other: they share the edge [y = 1] and nothing else. *)
Definition wide_low : BBox :=
  mkBBox (- Binary64.pow2 1023) 0 (Binary64.pow2 1023) 1.
Definition wide_high : BBox :=
  mkBBox (- Binary64.pow2 1023) 1 (Binary64.pow2 1023) 2.

Definition hand1 : Detection.Detection :=
  Detection.mkDetection "hand" (9 # 10) (box_of_ints 50 34 56 37).
Definition pizza1 : Detection.Detection :=
  Detection.mkDetection "pizza" (8 # 10) (box_of_ints 49 33 57 38).
Definition scooper1 : Detection.Detection :=
  Detection.mkDetection "scooper" (7 # 10) (box_of_ints 50 34 54 36).
Definition far_hand : Detection.Detection :=
  Detection.mkDetection "hand" (9 # 10) (box_of_ints 0 0 5 5).
Definition far_pizza : Detection.Detection :=
  Detection.mkDetection "pizza" (8 # 10) (box_of_ints 0 0 9 9).

Definition frame_message1 : Detection.FrameMessage :=
  Detection.mkFrameMessage (Some "/9j/4AAQSkZJRg==") (Some "kitchen")
    (Some 5) (Some (inject_Z 1000)).

Definition image1 : Image := mkImage 480 640 "pixels".

(** Every collaborator succeeds; the detector sees a bare hand on a pizza
    inside the ROI. *)
Definition env_violation : Detection.Env :=
  Detection.mkEnv
    (fun _ => Ok (JObject frame_message1))
    (fun _ => Ok "jpeg bytes")
    (fun _ => Ok (Some image1))
    (fun _ => Ok [hand1; pizza1])
    (fun _ => Ok tt)
    (fun _ => Ok tt)
    "2024-01-01T00:00:00".

(** The same frame, with a store that refuses the insert. *)
Definition env_insert_fails : Detection.Env :=
  Detection.mkEnv
    (Detection.json_loads env_violation) (Detection.b64decode env_violation)
    (Detection.imdecode env_violation) (Detection.model env_violation)
    (fun _ => Raise "connection already closed")
    (Detection.basic_publish env_violation)
    (Detection.datetime_now env_violation).

(** A body that is not JSON. *)
Definition env_bad_json : Detection.Env :=
  Detection.mkEnv
    (fun _ => Raise "Expecting value: line 1 column 1 (char 0)")
    (Detection.b64decode env_violation)
    (Detection.imdecode env_violation) (Detection.model env_violation)
    (Detection.db_insert env_violation)
    (Detection.basic_publish env_violation)
    (Detection.datetime_now env_violation).

(** A frame field on which [base64.b64decode] raises: three characters of
    the alphabet, not a multiple of four.  (The decoder drops characters
    outside the alphabet instead of raising on them.) *)
Definition frame_message_bad_padding : Detection.FrameMessage :=
  Detection.mkFrameMessage (Some "QUJ") (Some "kitchen")
    (Some 5) (Some (inject_Z 1000)).

Definition env_bad_base64 : Detection.Env :=
  Detection.mkEnv
    (fun _ => Ok (JObject frame_message_bad_padding))
    (fun frame_b64 => if String.eqb frame_b64 "QUJ"
                      then Raise "Incorrect padding"
                      else Ok "jpeg bytes")
    (Detection.imdecode env_violation) (Detection.model env_violation)
    (Detection.db_insert env_violation)
    (Detection.basic_publish env_violation)
    (Detection.datetime_now env_violation).

(** A message without a frame field. *)
Definition env_no_frame : Detection.Env :=
  Detection.mkEnv
    (fun _ => Ok (JObject (Detection.mkFrameMessage None (Some "kitchen")
                             (Some 5) (Some (inject_Z 1000)))))
    (Detection.b64decode env_violation)
    (Detection.imdecode env_violation) (Detection.model env_violation)
    (Detection.db_insert env_violation)
    (Detection.basic_publish env_violation)
    (Detection.datetime_now env_violation).

(** Frame bytes that are not an image: [cv2.imdecode] returns [None]. *)
Definition env_not_image : Detection.Env :=
  Detection.mkEnv
    (Detection.json_loads env_violation) (Detection.b64decode env_violation)
    (fun _ => Ok None) (Detection.model env_violation)
    (Detection.db_insert env_violation)
    (Detection.basic_publish env_violation)
    (Detection.datetime_now env_violation).

Definition result_kitchen1 : Streaming.ResultMessage :=
  Streaming.mkResultMessage (Some "kitchen") (Some 2) "r1".
Definition result_bar : Streaming.ResultMessage :=
  Streaming.mkResultMessage (Some "bar") (Some 1) "r2".
Definition result_kitchen2 : Streaming.ResultMessage :=
  Streaming.mkResultMessage (Some "kitchen") (Some 3) "r3".

Definition json_loads_results (body : string)
  : exn (Json Streaming.ResultMessage) :=
  if String.eqb body "r1" then Ok (JObject result_kitchen1)
  else if String.eqb body "r2" then Ok (JObject result_bar)
  else if String.eqb body "r3" then Ok (JObject result_kitchen2)
  else Raise "Expecting value: line 1 column 1 (char 0)".

(** A store whose connection is gone: every statement raises. *)
Definition store_down : Streaming.Store :=
  Streaming.mkStore
    (fun _ => Raise "connection already closed")
    (fun _ _ => Raise "connection already closed")
    (Raise "connection already closed")
    (fun _ => Raise "connection already closed")
    (fun _ => Raise "connection already closed")
    (Raise "connection already closed")
    (Raise "connection already closed")
    (Raise "connection already closed").

Definition manager_down : Streaming.StreamingManager :=
  Streaming.mkStreamingManager store_down ∅ ∅.

(** A store on which the count query raises and the timestamp query
    answers. *)
Definition store_count_down : Streaming.Store :=
  Streaming.mkStore
    (fun _ => Raise "canceling statement due to statement timeout")
    (fun _ _ => Ok [])
    (Ok [])
    (fun _ => Ok (Some (Some "2024-01-01T00:00:05", Some "2024-01-01T00:09:30")))
    (fun _ => Ok None)
    (Ok (Some 0))
    (Ok (Some 0))
    (Ok []).

Definition manager_count_down : Streaming.StreamingManager :=
  Streaming.mkStreamingManager store_count_down ∅ ∅.

(** A collaborator that refuses every connection, and one that accepts
    the first. *)
Definition refused : nat -> exn unit := fun _ => Raise "Connection refused".
Definition accepted : nat -> exn unit := fun _ => Ok tt.

(** A source at 30 frames per second holding 13 frames, and collaborators
    of the reader that never fail. *)
Definition cap_13_frames : FrameReader.VideoCapture :=
  FrameReader.mkVideoCapture true (inject_Z 30)
    (map (fun i => FrameReader.mkSourceFrame image1
                     (inject_Z (Z.of_nat i) * (100 # 3))%Q)
         (seq 1 13)).

Definition enc_constant : Image -> string := fun _ => "/9j/4AAQSkZJRg==".

Definition env_reliable : FrameReader.Env :=
  FrameReader.mkEnv (fun img => Ok (enc_constant img)) (fun _ _ => Ok tt)
    (fun _ => Ok tt).

(** The frame of [env_violation] with a detector that raises. *)
Definition env_detector_fails : Detection.Env :=
  Detection.mkEnv
    (Detection.json_loads env_violation) (Detection.b64decode env_violation)
    (Detection.imdecode env_violation)
    (fun _ => Raise "CUDA out of memory")
    (Detection.db_insert env_violation)
    (Detection.basic_publish env_violation)
    (Detection.datetime_now env_violation).

(** The frame of [env_violation] with a broker that refuses the result. *)
Definition env_publish_fails : Detection.Env :=
  Detection.mkEnv
    (Detection.json_loads env_violation) (Detection.b64decode env_violation)
    (Detection.imdecode env_violation) (Detection.model env_violation)
    (Detection.db_insert env_violation)
    (fun _ => Raise "Channel is closed")
    (Detection.datetime_now env_violation).

(** A collaborator that accepts the third attempt. *)
Definition third_time_lucky : nat -> exn unit :=
  fun k => if (k <? 2)%nat then Raise "Connection refused" else Ok tt.

(** A result message without a violation count, and a parser that knows
    it. *)
Definition result_without_count : Streaming.ResultMessage :=
  Streaming.mkResultMessage (Some "kitchen") None "r4".

Definition json_loads_partial (body : string)
  : exn (Json Streaming.ResultMessage) :=
  if String.eqb body "r4" then Ok (JObject result_without_count)
  else json_loads_results body.

(** Collaborators of the reader whose broker refuses every second
    message. *)
Definition env_flaky_broker : FrameReader.Env :=
  FrameReader.mkEnv (fun img => Ok (enc_constant img)) (fun _ _ => Ok tt)
    (fun msg => if FrameReader.fm_frame_id msg =? 6
                then Raise "Channel is closed" else Ok tt).

(** A source slower than the target rate. *)
Definition cap_slow : FrameReader.VideoCapture :=
  FrameReader.mkVideoCapture true (inject_Z 3)
    (map (fun i => FrameReader.mkSourceFrame image1
                     (inject_Z (Z.of_nat i) * (1000 # 3))%Q)
         (seq 1 4)).

(** A directory with two videos, listed in two different orders. *)
Definition files_listing1 : FrameReader.Files :=
  FrameReader.mkFiles
    (fun pattern => if String.eqb pattern "*.mp4" then ["videos/b.mp4"; "videos/a.mp4"]
                    else [])
    (fun path => if String.eqb path "videos/a.mp4" then cap_13_frames else cap_slow)
    (fun path => if String.eqb path "videos/a.mp4" then "a" else "b").

Definition files_listing2 : FrameReader.Files :=
  FrameReader.mkFiles
    (fun pattern => if String.eqb pattern "*.mp4" then ["videos/a.mp4"; "videos/b.mp4"]
                    else [])
    (FrameReader.VideoCapture_of files_listing1)
    (FrameReader.stem files_listing1).


(** * Properties *)

(** ** Comparisons and the builtins *)

Lemma Qltb_lt (a b : Q) : Qltb a b = true <-> (a < b)%Q.
Proof.
unfold Qltb. rewrite Qlt_alt.
destruct (a ?= b)%Q; split; congruence.
Qed.

Lemma Qltb_ge (a b : Q) : Qltb a b = false <-> (b <= a)%Q.
Proof.
rewrite <- not_true_iff_false, Qltb_lt. split.
- apply Qnot_lt_le.
- apply Qle_not_lt.
Qed.

Lemma Qleb_le (a b : Q) : Qleb a b = true <-> (a <= b)%Q.
Proof.
unfold Qleb. rewrite Qle_alt.
destruct (a ?= b)%Q; split; congruence.
Qed.

Lemma Qleb_gt (a b : Q) : Qleb a b = false <-> (b < a)%Q.
Proof.
rewrite <- not_true_iff_false, Qleb_le. split.
- apply Qnot_le_lt.
- apply Qlt_not_le.
Qed.

(** Case analysis on every comparison of the goal, each case recorded as
  an order fact. *)
Ltac case_cmp :=
repeat match goal with
  | |- context [Qltb ?a ?b] =>
      let E := fresh "E" in
      destruct (Qltb a b) eqn:E;
      [apply Qltb_lt in E | apply Qltb_ge in E]
  | |- context [Qleb ?a ?b] =>
      let E := fresh "E" in
      destruct (Qleb a b) eqn:E;
      [apply Qleb_le in E | apply Qleb_gt in E]
  end.

Lemma py_max_Qmax (a b : Q) : (py_max a b == Qmax a b)%Q.
Proof.
unfold py_max. case_cmp.
- symmetry. apply Q.max_r. lra.
- symmetry. apply Q.max_l. lra.
Qed.

Lemma py_min_Qmin (a b : Q) : (py_min a b == Qmin a b)%Q.
Proof.
unfold py_min. case_cmp.
- symmetry. apply Q.min_r. lra.
- symmetry. apply Q.min_l. lra.
Qed.

(** ** The overlap predicate *)

Section Overlap.
Import Detection.

Lemma boxes_overlap_iff (A B : BBox) (t : Q) :
  boxes_overlap A B t = true <-> positive_intersection A B.
Proof.
  unfold boxes_overlap, positive_intersection, inter_left, inter_right,
    inter_top, inter_bottom.
  rewrite <- !py_max_Qmax, <- !py_min_Qmin.
  set (l := py_max (bx1 A) (bx1 B)). set (r := py_min (bx2 A) (bx2 B)).
  set (u := py_max (by1 A) (by1 B)). set (d := py_min (by2 A) (by2 B)).
  case_cmp; cbn; split; try discriminate; try (intros [? ?]; lra);
    try (intros _; split; nra); try reflexivity.
  all: intros [? ?]; nra.
Qed.

Lemma positive_area_iff (A B : BBox) :
  (0 < intersection_area A B)%Q <-> positive_intersection A B.
Proof.
  unfold intersection_area, positive_intersection.
  set (l := inter_left A B). set (r := inter_right A B).
  set (u := inter_top A B). set (d := inter_bottom A B).
  case_cmp; cbn; split; try (intros [? ?]; nra); try (intros ?; split; nra);
    try (intros ?; lra).
Qed.

End Overlap.

(** ** Rounding *)

Section Rounding.
Import Binary64.

Lemma pow2_pos (e : Z) : (0 < pow2 e)%Q.
Proof. apply Qpower_0_lt. reflexivity. Qed.

Lemma pow2_plus (n m : Z) : (pow2 (n + m) == pow2 n * pow2 m)%Q.
Proof. apply Qpower_plus. discriminate. Qed.

Lemma pow2_le (n m : Z) : n <= m -> (pow2 n <= pow2 m)%Q.
Proof. intros H. apply Qpower_le_compat_l; [exact H|discriminate]. Qed.

Lemma pow2_lt (n m : Z) : n < m -> (pow2 n < pow2 m)%Q.
Proof. intros H. apply Qpower_lt_compat_l; [exact H|reflexivity]. Qed.

Lemma pow2_lt_inv (n m : Z) : (pow2 n < pow2 m)%Q -> n < m.
Proof. intros H. apply (Qpower_lt_compat_l_inv 2); [exact H|reflexivity]. Qed.

Lemma pow2_inject (n : Z) : 0 <= n -> (pow2 n == inject_Z (2 ^ n))%Q.
Proof.
  intros H. unfold pow2. rewrite Zpower_Qpower by exact H. reflexivity.
Qed.

Lemma pow2_double (n : Z) : (pow2 n + pow2 n == pow2 (n + 1))%Q.
Proof. rewrite pow2_plus. change (pow2 1) with 2%Q. ring. Qed.

(** [ilog2] is the binary exponent of a positive rational. *)
Lemma ilog2_spec (a : Q) :
  (0 < a)%Q -> (pow2 (ilog2 a) <= a)%Q /\ (a < pow2 (ilog2 a + 1))%Q.
Proof.
  intros Ha. destruct a as [n d]. unfold ilog2. cbn [Qnum Qden].
  assert (Hn : 0 < n). { unfold Qlt in Ha. cbn in Ha. lia. }
  set (ln := Z.log2 n). set (ld := Z.log2 (Z.pos d)).
  destruct (Z.log2_spec n Hn) as [Hn1 Hn2]. fold ln in Hn1, Hn2.
  destruct (Z.log2_spec (Z.pos d) eq_refl) as [Hd1 Hd2]. fold ld in Hd1, Hd2.
  assert (Hln : 0 <= ln) by apply Z.log2_nonneg.
  assert (Hld : 0 <= ld) by apply Z.log2_nonneg.
  assert (Hq : (n # d == inject_Z n / inject_Z (Z.pos d))%Q).
  { rewrite Qmake_Qdiv. reflexivity. }
  assert (Hdq : (0 < inject_Z (Z.pos d))%Q) by reflexivity.
  assert (Hlo : (pow2 (ln - ld - 1) < n # d)%Q).
  { rewrite Hq. apply Qlt_shift_div_l; [exact Hdq|].
    apply Qlt_le_trans with (pow2 (ln - ld - 1) * pow2 (ld + 1))%Q.
    - apply Qmult_lt_l; [apply pow2_pos|].
      rewrite (pow2_inject (ld + 1)) by lia. rewrite <- Zlt_Qlt.
      rewrite Z.add_1_r. exact Hd2.
    - rewrite <- pow2_plus. replace (ln - ld - 1 + (ld + 1)) with ln by lia.
      rewrite (pow2_inject ln) by lia. rewrite <- Zle_Qle. exact Hn1. }
  assert (Hhi : (n # d < pow2 (ln - ld + 1))%Q).
  { rewrite Hq. apply Qlt_shift_div_r; [exact Hdq|].
    apply Qlt_le_trans with (pow2 (ln - ld + 1) * pow2 ld)%Q.
    - rewrite <- pow2_plus. replace (ln - ld + 1 + ld) with (ln + 1) by lia.
      rewrite (pow2_inject (ln + 1)) by lia. rewrite <- Zlt_Qlt.
      rewrite Z.add_1_r. exact Hn2.
    - apply Qmult_le_l; [apply pow2_pos|].
      rewrite (pow2_inject ld) by lia. rewrite <- Zle_Qle. exact Hd1. }
  destruct (Qleb (pow2 (ln - ld)) (n # d)) eqn:E.
  - apply Qleb_le in E. split; [exact E|exact Hhi].
  - apply Qleb_gt in E. split.
    + apply Qlt_le_weak. exact Hlo.
    + replace (ln - ld - 1 + 1) with (ln - ld) by lia. exact E.
Qed.

Lemma rne_bounds (x : Q) : Qfloor x <= rne x <= Qfloor x + 1.
Proof.
  unfold rne. destruct (x - inject_Z (Qfloor x) ?= 1 # 2)%Q; [|lia ..].
  destruct (Z.even (Qfloor x)); lia.
Qed.

Lemma rne_integer (x : Q) (k : Z) : (x == inject_Z k)%Q -> rne x = k.
Proof.
  intros H. unfold rne.
  assert (Hf : Qfloor x = k).
  { rewrite (Qfloor_comp _ _ H). apply Qfloor_Z. }
  rewrite Hf.
  assert (Hc : (x - inject_Z k ?= 1 # 2)%Q = Lt).
  { apply Qlt_alt. rewrite H. unfold Qminus. rewrite Qplus_opp_r.
    reflexivity. }
  rewrite Hc. reflexivity.
Qed.

Lemma Qabs_pos_eq (a : Q) : (0 < a)%Q -> Qabs a = a.
Proof.
  destruct a as [n d]. unfold Qlt. cbn. intros H. unfold Qabs.
  f_equal. apply Z.abs_eq. lia.
Qed.

Lemma round_zero (q : Q) : (q == 0)%Q -> round q = Fin 0.
Proof.
  intros H. unfold round. apply Qeq_bool_iff in H. rewrite H. reflexivity.
Qed.

(** Rounding keeps a positive number between the powers of two that
    bracket it, as long as these are normal numbers: it neither
    underflows nor overflows. *)
Lemma round_bounds (a : Q) (lo hi : Z) :
  -1022 <= lo -> hi <= 1023 ->
  (pow2 lo <= a)%Q -> (a <= pow2 hi)%Q ->
  exists a', round a = Fin a' /\ (pow2 lo <= a')%Q /\ (a' <= pow2 hi)%Q.
Proof.
  intros Hlo Hhi Ha1 Ha2.
  assert (Ha : (0 < a)%Q).
  { apply Qlt_le_trans with (pow2 lo); [apply pow2_pos|exact Ha1]. }
  unfold round.
  assert (E0 : Qeq_bool a 0 = false).
  { apply not_true_iff_false. rewrite Qeq_bool_iff. intros H.
    rewrite H in Ha. discriminate. }
  rewrite E0, (Qabs_pos_eq a Ha).
  assert (En : Qltb a 0 = false).
  { apply Qltb_ge. apply Qlt_le_weak. exact Ha. }
  rewrite En.
  destruct (ilog2_spec a Ha) as [L1 L2].
  set (il := ilog2 a) in *.
  assert (Hil : lo <= il).
  { assert (lo < il + 1); [|lia]. apply pow2_lt_inv.
    apply Qle_lt_trans with a; assumption. }
  assert (Hil2 : il <= hi).
  { assert (il < hi + 1); [|lia]. apply pow2_lt_inv.
    apply Qle_lt_trans with a; [exact L1|].
    apply Qle_lt_trans with (pow2 hi); [exact Ha2|]. apply pow2_lt. lia. }
  replace (Z.max il (-1022)) with il by lia.
  set (u := pow2 (il - 52)).
  assert (Hu : (0 < u)%Q) by apply pow2_pos.
  assert (Hue : (pow2 il == inject_Z (2 ^ 52) * u)%Q).
  { unfold u. rewrite <- (pow2_inject 52) by lia. rewrite <- pow2_plus.
    replace (52 + (il - 52)) with il by lia. reflexivity. }
  assert (Hue1 : (pow2 (il + 1) == inject_Z (2 ^ 53) * u)%Q).
  { unfold u. rewrite <- (pow2_inject 53) by lia. rewrite <- pow2_plus.
    replace (53 + (il - 52)) with (il + 1) by lia. reflexivity. }
  set (x := (a / u)%Q).
  assert (Hx1 : (inject_Z (2 ^ 52) <= x)%Q).
  { unfold x. apply Qle_shift_div_l; [exact Hu|]. rewrite <- Hue. exact L1. }
  assert (Hx2 : (x < inject_Z (2 ^ 53))%Q).
  { unfold x. apply Qlt_shift_div_r; [exact Hu|]. rewrite <- Hue1. exact L2. }
  pose proof (rne_bounds x) as [M1 M2].
  assert (F1 : 2 ^ 52 <= Qfloor x).
  { rewrite <- (Qfloor_Z (2 ^ 52)). apply Qfloor_resp_le. exact Hx1. }
  assert (F2 : Qfloor x < 2 ^ 53).
  { rewrite Zlt_Qlt. apply Qle_lt_trans with x; [apply Qfloor_le|exact Hx2]. }
  set (m := rne x) in *.
  assert (A1 : (pow2 lo <= inject_Z m * u)%Q).
  { apply Qle_trans with (pow2 il); [apply pow2_le; exact Hil|].
    rewrite Hue. apply Qmult_le_compat_r; [|apply Qlt_le_weak; exact Hu].
    rewrite <- Zle_Qle. lia. }
  assert (A2 : (inject_Z m * u <= pow2 hi)%Q).
  { destruct (Z.eq_dec il hi) as [->|Hne].
    - assert (Hax : (x == inject_Z (2 ^ 52))%Q).
      { apply Qle_antisym; [|exact Hx1].
        unfold x. apply Qle_shift_div_r; [exact Hu|]. rewrite <- Hue.
        exact Ha2. }
      unfold m. rewrite (rne_integer x _ Hax). rewrite <- Hue.
      apply Qle_refl.
    - apply Qle_trans with (pow2 (il + 1)); [|apply pow2_le; lia].
      rewrite Hue1. apply Qmult_le_compat_r; [|apply Qlt_le_weak; exact Hu].
      rewrite <- Zle_Qle. lia. }
  assert (Eo : Qleb (pow2 1024) (inject_Z m * u) = false).
  { apply Qleb_gt. apply Qle_lt_trans with (pow2 hi); [exact A2|].
    apply pow2_lt. lia. }
  rewrite Eo. eexists. split; [reflexivity|]. split; assumption.
Qed.

Lemma moderate_spec (q : Q) :
  moderate q = true ->
  (exists k, (q * pow2 511 == inject_Z k)%Q)
  /\ (- pow2 510 <= q)%Q /\ (q <= pow2 510)%Q.
Proof.
  unfold moderate, on_grid. rewrite !andb_true_iff, Qeq_bool_iff, !Qleb_le.
  intros [[H1 H2] H3]. split; [|split; assumption].
  eexists. symmetry. exact H1.
Qed.

(** Every finite single-precision number is moderate. *)
Lemma single_precision_moderate (k e : Z) :
  -149 <= e <= 104 -> - 2 ^ 24 < k < 2 ^ 24 ->
  moderate (inject_Z k * pow2 e) = true.
Proof.
  intros He Hk. unfold moderate, on_grid.
  rewrite !andb_true_iff, Qeq_bool_iff, !Qleb_le.
  assert (Hg : (inject_Z k * pow2 e * pow2 511
                == inject_Z (k * 2 ^ (e + 511)))%Q).
  { rewrite inject_Z_mult, <- (pow2_inject (e + 511)) by lia.
    rewrite pow2_plus. ring. }
  assert (Hp : (0 < pow2 e)%Q) by apply pow2_pos.
  assert (Hp1 : (pow2 e <= pow2 104)%Q) by (apply pow2_le; lia).
  assert (Hp2 : (pow2 128 <= pow2 510)%Q) by (apply pow2_le; lia).
  assert (Hp3 : (pow2 128 == inject_Z (2 ^ 24) * pow2 104)%Q).
  { rewrite <- (pow2_inject 24) by lia. rewrite <- pow2_plus. reflexivity. }
  assert (Hk1 : (- inject_Z (2 ^ 24) <= inject_Z k)%Q).
  { rewrite <- inject_Z_opp, <- Zle_Qle. lia. }
  assert (Hk2 : (inject_Z k <= inject_Z (2 ^ 24))%Q).
  { rewrite <- Zle_Qle. lia. }
  assert (H24 : (0 < inject_Z (2 ^ 24))%Q) by reflexivity.
  set (K := inject_Z (2 ^ 24)) in *. set (x := inject_Z k) in *.
  set (p := pow2 e) in *. set (p104 := pow2 104) in *.
  set (p128 := pow2 128) in *. set (p510 := pow2 510) in *.
  split; [split|].
  - rewrite (Qfloor_comp _ _ Hg), Qfloor_Z. symmetry. exact Hg.
  - nra.
  - nra.
Qed.

(** The rounded difference of two moderate numbers is zero when they are
    equal, and otherwise at least one grid step and finite. *)
Lemma round_difference (l r : Q) :
  moderate l = true -> moderate r = true -> (l <= r)%Q ->
  ((r == l)%Q /\ round (r - l) = Fin 0)
  \/ ((l < r)%Q
      /\ exists w, round (r - l) = Fin w
                   /\ (pow2 (-511) <= w)%Q /\ (w <= pow2 511)%Q).
Proof.
  intros Hl Hr Hle.
  destruct (moderate_spec l Hl) as ([kl Hkl] & Hl1 & Hl2).
  destruct (moderate_spec r Hr) as ([kr Hkr] & Hr1 & Hr2).
  destruct (Qlt_le_dec l r) as [Hlt|Hge].
  - right. split; [exact Hlt|].
    apply round_bounds; [lia|lia| |].
    + pose proof (pow2_pos 511) as Hp.
      assert (Hone : (pow2 (-511) * pow2 511 == 1)%Q).
      { rewrite <- pow2_plus. reflexivity. }
      assert (Hk : ((r - l) * pow2 511 == inject_Z (kr - kl))%Q).
      { unfold Z.sub. rewrite inject_Z_plus, inject_Z_opp, <- Hkl, <- Hkr.
        ring. }
      assert (Hpos : (0 < inject_Z (kr - kl))%Q).
      { rewrite <- Hk. apply Qmult_lt_0_compat; [lra|exact Hp]. }
      change 0%Q with (inject_Z 0) in Hpos. rewrite <- Zlt_Qlt in Hpos.
      assert (H1 : (1 <= inject_Z (kr - kl))%Q).
      { change 1%Q with (inject_Z 1). rewrite <- Zle_Qle. lia. }
      rewrite <- Hk in H1.
      set (p := pow2 511) in *. set (p' := pow2 (-511)) in *.
      set (d := (r - l)%Q) in *.
      assert (Hp' : (0 < p')%Q) by apply pow2_pos.
      nra.
    + pose proof (pow2_double 510) as Hd. change (510 + 1) with 511 in Hd.
      lra.
  - left. assert (E : (r == l)%Q) by (apply Qle_antisym; assumption).
    split; [exact E|]. apply round_zero. lra.
Qed.

Lemma fmax_Fin (a b : Q) : fmax (Fin a) (Fin b) = Fin (py_max a b).
Proof. unfold fmax, py_max. cbn. destruct (Qltb a b); reflexivity. Qed.

Lemma fmin_Fin (a b : Q) : fmin (Fin a) (Fin b) = Fin (py_min a b).
Proof. unfold fmin, py_min. cbn. destruct (Qltb b a); reflexivity. Qed.

Lemma py_max_moderate (a b : Q) :
  moderate a = true -> moderate b = true -> moderate (py_max a b) = true.
Proof. unfold py_max. destruct (Qltb a b); auto. Qed.

Lemma py_min_moderate (a b : Q) :
  moderate a = true -> moderate b = true -> moderate (py_min a b) = true.
Proof. unfold py_min. destruct (Qltb b a); auto. Qed.

(** On moderate boxes the computation in doubles takes the decisions of
    the computation in exact arithmetic. *)
Lemma boxes_overlap_exact (A B : BBox) (t : float) (t' : Q) :
  moderate_box A = true -> moderate_box B = true ->
  Detection64.boxes_overlap (double_box A) (double_box B) t
  = Detection.boxes_overlap A B t'.
Proof.
  unfold moderate_box. rewrite !andb_true_iff.
  intros [[[A1 A2] A3] A4] [[[B1 B2] B3] B4].
  unfold Detection64.boxes_overlap, Detection.boxes_overlap, double_box.
  cbn [x1 y1 x2 y2]. rewrite !fmax_Fin, !fmin_Fin.
  pose proof (py_max_moderate _ _ A1 B1) as Hl.
  pose proof (py_max_moderate _ _ A2 B2) as Hu.
  pose proof (py_min_moderate _ _ A3 B3) as Hr.
  pose proof (py_min_moderate _ _ A4 B4) as Hd.
  set (l := py_max (bx1 A) (bx1 B)) in *.
  set (r := py_min (bx2 A) (bx2 B)) in *.
  set (u := py_max (by1 A) (by1 B)) in *.
  set (d := py_min (by2 A) (by2 B)) in *.
  cbn [flt].
  destruct (Qltb r l) eqn:E1; [reflexivity|].
  destruct (Qltb d u) eqn:E2; [reflexivity|].
  apply Qltb_ge in E1, E2. cbn [orb fsub].
  destruct (round_difference l r Hl Hr E1)
    as [[Ew ->]|[Hw (w & -> & W1 & W2)]];
    destruct (round_difference u d Hu Hd E2)
      as [[Eh ->]|[Hh (h & -> & H1 & H2)]];
    cbn [fmul].
  - rewrite round_zero by ring. cbn [fle].
    assert (E : Qleb ((r - l) * (d - u)) 0 = true).
    { apply Qleb_le. rewrite Ew. ring_simplify. apply Qle_refl. }
    rewrite E. reflexivity.
  - rewrite round_zero by ring. cbn [fle].
    assert (E : Qleb ((r - l) * (d - u)) 0 = true).
    { apply Qleb_le. rewrite Ew. ring_simplify. apply Qle_refl. }
    rewrite E. reflexivity.
  - rewrite round_zero by ring. cbn [fle].
    assert (E : Qleb ((r - l) * (d - u)) 0 = true).
    { apply Qleb_le. rewrite Eh. ring_simplify. apply Qle_refl. }
    rewrite E. reflexivity.
  - destruct (round_bounds (w * h) (-1022) 1022) as (p & -> & P1 & P2);
      [lia|lia| | |].
    + change (-1022) with (-511 + -511). rewrite pow2_plus.
      pose proof (pow2_pos (-511)). nra.
    + change 1022 with (511 + 511). rewrite pow2_plus.
      pose proof (pow2_pos (-511)). pose proof (pow2_pos 511). nra.
    + cbn [fle].
      assert (E : Qleb p 0 = false).
      { apply Qleb_gt. pose proof (pow2_pos (-1022)). lra. }
      assert (E' : Qleb ((r - l) * (d - u)) 0 = false).
      { apply Qleb_gt. nra. }
      rewrite E, E'. reflexivity.
Qed.

Lemma is_in_roi_exact (bbox : BBox) (rois : list BBox) :
  moderate_box bbox = true ->
  Forall (fun roi => moderate_box roi = true) rois ->
  Detection64.is_in_roi (double_box bbox) (map double_box rois)
  = Detection.is_in_roi bbox rois.
Proof.
  intros Hb Hr. unfold Detection64.is_in_roi, Detection.is_in_roi.
  induction Hr as [|roi rois Hroi _ IH]; [reflexivity|].
  cbn [map existsb]. rewrite IH.
  rewrite (boxes_overlap_exact bbox roi _ Detection.default_iou_threshold Hb
             Hroi).
  reflexivity.
Qed.

(** On every pair of the sample doubles, subtraction, multiplication and
    the two comparisons of the model are those of the primitive doubles. *)
Lemma model_agrees_with_primitive_doubles :
  forallb (fun x => forallb (agree_on x) sample_doubles) sample_doubles
  = true.
Proof. vm_compute. reflexivity. Qed.

(** The rounding function at the edges of the format: the double next to
    0.1; the smallest subnormal, half of it, which is a tie and rounds to
    zero, and a little more than half of it; the largest double, the
    first number that rounds to infinity and the one before; and the
    integers around [2^53], with their ties. *)
Lemma round_examples :
  is_double (1 # 10) = false
  /\ same_float (round (1 # 10))
       (Fin (3602879701896397 # 36028797018963968)) = true
  /\ is_double (pow2 (-1074)) = true
  /\ same_float (round (pow2 (-1075))) (Fin 0) = true
  /\ same_float (round (pow2 (-1075) + pow2 (-1200))) (Fin (pow2 (-1074)))
     = true
  /\ is_double (pow2 1024 - pow2 971) = true
  /\ same_float (round (pow2 1024 - pow2 970)) (Inf false) = true
  /\ same_float (round (pow2 1024 - pow2 970 - 1))
       (Fin (pow2 1024 - pow2 971)) = true
  /\ same_float (round (- pow2 1024)) (Inf true) = true
  /\ same_float (round (inject_Z (2 ^ 53 + 1))) (Fin (inject_Z (2 ^ 53)))
     = true
  /\ same_float (round (inject_Z (2 ^ 53 + 3)))
       (Fin (inject_Z (2 ^ 53 + 4))) = true
  /\ same_float (round (- inject_Z (2 ^ 53 + 3)))
       (Fin (- inject_Z (2 ^ 53 + 4))) = true.
Proof. vm_compute. repeat split. Qed.

End Rounding.

(** C3, as the specification states it, fails: the predicate is computed
    in doubles, and rounding breaks the equivalence at both ends of the
    format.  The
    intersection of a square of side [2^-600] with the unit square has
    positive area, but the product underflows to zero and the answer is
    [False]; two boxes of width [2^1024] that share only an edge have an
    intersection of area zero, but the width overflows to infinity, its
    product with the height zero is a NaN, which is not [<= 0], and the
    answer is [True].  All the coordinates are doubles, and the primitive
    doubles of the kernel give the same two answers. *)
Lemma boxes_overlap_rounding :
  (is_double_box tiny_box = true /\ is_double_box unit_box = true
   /\ positive_intersection tiny_box unit_box
   /\ Detection64.boxes_overlap (double_box tiny_box) (double_box unit_box)
        Detection64.default_iou_threshold = false
   /\ DetectionPrim.boxes_overlap 0 0
        (DetectionPrim.two_to (-600)) (DetectionPrim.two_to (-600))
        0 0 1 1 = false)
  /\ (is_double_box wide_low = true /\ is_double_box wide_high = true
      /\ ~ positive_intersection wide_low wide_high
      /\ Detection64.boxes_overlap (double_box wide_low) (double_box wide_high)
           Detection64.default_iou_threshold = true
      /\ DetectionPrim.boxes_overlap
           (- DetectionPrim.two_to 1023) 0 (DetectionPrim.two_to 1023) 1
           (- DetectionPrim.two_to 1023) 1 (DetectionPrim.two_to 1023) 2
         = true).
Proof.
  split.
  - split; [vm_compute; reflexivity|]. split; [vm_compute; reflexivity|].
    split; [split; vm_compute; reflexivity|].
    split; vm_compute; reflexivity.
  - split; [vm_compute; reflexivity|]. split; [vm_compute; reflexivity|].
    split; [|split; vm_compute; reflexivity].
    intros [_ H]. vm_compute in H. discriminate.
Qed.

(** C3, amended: on rectangles whose coordinates are of moderate magnitude
    (multiples of [2^-511] up to [2^510], which covers every finite
    single-precision coordinate), the overlap predicate computed in
    doubles holds exactly when the intersection of the two rectangles has
    strictly positive area, that is when its left side is strictly left
    of its right side and its top strictly above its bottom.  In
    particular a box that starts where the other ends, on either axis,
    does not overlap it: boxes sharing only an edge or a corner do not
    overlap.  On these rectangles the computation in doubles and the one
    in exact arithmetic give the same answer. *)
Theorem boxes_overlap_positive_area (A B : BBox) (t : Binary64.float)
    (t' : Q) :
  moderate_box A = true ->
  moderate_box B = true ->
  (Detection64.boxes_overlap (double_box A) (double_box B) t = true
   <-> (0 < intersection_area A B)%Q)
  /\ (Detection64.boxes_overlap (double_box A) (double_box B) t = true
      <-> positive_intersection A B)
  /\ ((bx2 A <= bx1 B)%Q \/ (by2 A <= by1 B)%Q
      \/ (bx2 B <= bx1 A)%Q \/ (by2 B <= by1 A)%Q ->
      Detection64.boxes_overlap (double_box A) (double_box B) t = false)
  /\ Detection64.boxes_overlap (double_box A) (double_box B) t
     = Detection.boxes_overlap A B t'.
Proof.
  intros HA HB. rewrite (boxes_overlap_exact A B t t' HA HB).
  split; [|split; [|split; [|reflexivity]]].
  - rewrite positive_area_iff. apply boxes_overlap_iff.
  - apply boxes_overlap_iff.
  - intros H. apply not_true_iff_false. rewrite boxes_overlap_iff.
    unfold positive_intersection, inter_left, inter_right, inter_top,
      inter_bottom.
    rewrite !Q.max_lub_lt_iff, !Q.min_glb_lt_iff.
    intros [[[_ X1] [X2 _]] [[_ Y1] [Y2 _]]].
    destruct H as [H|[H|[H|H]]]; lra.
Qed.

Lemma boxes_overlap_positive_area_witness :
  Detection64.boxes_overlap (double_box (box_of_ints 50 34 56 37))
    (double_box (box_of_ints 49 33 57 38))
    Detection64.default_iou_threshold = true
  /\ Detection64.boxes_overlap (double_box (box_of_ints 50 34 56 37))
       (double_box (box_of_ints 56 34 60 37))
       Detection64.default_iou_threshold = false.
Proof.
  assert (H1 : moderate_box (box_of_ints 50 34 56 37) = true)
    by (vm_compute; reflexivity).
  assert (H2 : moderate_box (box_of_ints 49 33 57 38) = true)
    by (vm_compute; reflexivity).
  assert (H3 : moderate_box (box_of_ints 56 34 60 37) = true)
    by (vm_compute; reflexivity).
  split.
  - destruct (boxes_overlap_positive_area (box_of_ints 50 34 56 37)
                (box_of_ints 49 33 57 38) Detection64.default_iou_threshold
                Detection.default_iou_threshold H1 H2) as (_ & H & _).
    apply H. split; reflexivity.
  - destruct (boxes_overlap_positive_area (box_of_ints 50 34 56 37)
                (box_of_ints 56 34 60 37) Detection64.default_iou_threshold
                Detection.default_iou_threshold H1 H3) as (_ & _ & H & _).
    apply H. left. discriminate.
Defined.

(** C9: the threshold argument of the overlap predicate does not change
    its result, which is the binary test for a positive intersection
    whatever the threshold. *)
Theorem boxes_overlap_threshold_irrelevant (A B : BBox) (t1 t2 : Q) :
  Detection.boxes_overlap A B t1 = Detection.boxes_overlap A B t2
  /\ (Detection.boxes_overlap A B t1 = true <-> positive_intersection A B)
  /\ (Detection.boxes_overlap A B t2 = true <-> positive_intersection A B).
Proof.
  split; [reflexivity|]. split; apply boxes_overlap_iff.
Qed.

Lemma boxes_overlap_threshold_irrelevant_witness :
  Detection.boxes_overlap (box_of_ints 50 34 56 37) (box_of_ints 49 33 57 38)
    (1 # 10)
  = Detection.boxes_overlap (box_of_ints 50 34 56 37) (box_of_ints 49 33 57 38)
      (9 # 10).
Proof.
  exact (proj1 (boxes_overlap_threshold_irrelevant (box_of_ints 50 34 56 37)
                  (box_of_ints 49 33 57 38) (1 # 10) (9 # 10))).
Defined.

(** ** Rule evaluation *)

Section Rule.
Import Detection.

(** Closes a goal saying that a loop iteration that adds nothing leaves
    the rule state as it was. *)
Ltac state_unchanged st :=
  destruct st; cbn; rewrite ?Nat2Z.inj_0, ?Z.add_0_r, ?app_nil_r; reflexivity.

Lemma find_filter {A} (f g : A -> bool) (l : list A) :
  find f (List.filter g l) = find (fun x => g x && f x) l.
Proof.
  induction l as [|a l IH]; cbn; [reflexivity|].
  destruct (g a); cbn; [destruct (f a)|]; auto.
Qed.

Lemma existsb_filter {A} (f g : A -> bool) (l : list A) :
  existsb f (List.filter g l) = existsb (fun x => g x && f x) l.
Proof.
  induction l as [|a l IH]; cbn; [reflexivity|].
  destruct (g a); cbn; [destruct (f a)|]; auto.
Qed.

(** The pizza loop stops at the first pizza the hand overlaps. *)
Lemma scan_pizzas_find (hb : BBox) (pizzas : list Detection) (st : RuleState) :
  scan_pizzas hb pizzas st =
  match find (fun p => overlaps hb (d_bbox p)) pizzas with
  | Some pizza =>
      mkRuleState (violation_count st + 1)
        (violation_bboxes st ++ [mkPairing hb (d_bbox pizza)])
  | None => st
  end.
Proof.
  induction pizzas as [|p pizzas IH]; cbn; [reflexivity|].
  unfold overlaps at 1. destruct (boxes_overlap hb (d_bbox p) _); auto.
Qed.

(** One iteration of the hand loop adds the pairing of that hand. *)
Lemma hand_step_pairing (rois : list BBox) (detections : list Detection)
    (st : RuleState) (hand : Detection) :
  d_class hand = "hand" ->
  hand_step rois (scoops_of detections) (pizzas_of detections) st hand =
  mkRuleState
    (violation_count st + Z.of_nat (length (pairing_of rois detections hand)))
    (violation_bboxes st ++ pairing_of rois detections hand).
Proof.
  intros Hc. unfold hand_step, pairing_of, is_in_roi, covered, first_pizza.
  rewrite Hc. cbn [String.eqb Ascii.eqb Bool.eqb andb].
  unfold scoops_of, pizzas_of. rewrite existsb_filter, scan_pizzas_find.
  rewrite find_filter. unfold overlaps. cbn beta.
  match goal with |- context [existsb ?f rois] => destruct (existsb f rois) end;
    cbn [andb].
  2:{ state_unchanged st. }
  match goal with |- context [negb ?b] => destruct b end; cbn [negb].
  { state_unchanged st. }
  match goal with |- context [find ?f ?l] => destruct (find f l) end.
  - reflexivity.
  - state_unchanged st.
Qed.

Lemma pairing_of_not_hand (rois : list BBox) (detections : list Detection)
    (d : Detection) :
  String.eqb (d_class d) "hand" = false -> pairing_of rois detections d = [].
Proof. intros H. unfold pairing_of. rewrite H. reflexivity. Qed.

Lemma pairing_of_length (rois : list BBox) (detections : list Detection)
    (d : Detection) :
  (length (pairing_of rois detections d) <= 1)%nat.
Proof.
  unfold pairing_of.
  destruct (_ && _ && _); [destruct (first_pizza _ _)|]; cbn; lia.
Qed.

(** The hand loop over the hands of any list [l], with the utensils and
    pizzas of [detections]. *)
Lemma hand_loop_pairings (rois : list BBox) (detections l : list Detection)
    (st : RuleState) :
  fold_left (hand_step rois (scoops_of detections) (pizzas_of detections))
            (hands_of l) st =
  mkRuleState
    (violation_count st
     + Z.of_nat (length (flat_map (pairing_of rois detections) l)))
    (violation_bboxes st ++ flat_map (pairing_of rois detections) l).
Proof.
  revert st. induction l as [|d l IH]; intros st; cbn.
  - state_unchanged st.
  - destruct (String.eqb (d_class d) "hand") eqn:Hc.
    + cbn [fold_left]. apply String.eqb_eq in Hc as Hc'.
      rewrite (hand_step_pairing _ _ _ _ Hc'), IH. cbn.
      rewrite length_app, Nat2Z.inj_add, app_assoc. f_equal. lia.
    + fold (hands_of l). rewrite IH, (pairing_of_not_hand _ _ _ Hc). reflexivity.
Qed.

Lemma spec_pairings_le_hands (rois : list BBox) (detections l : list Detection) :
  (length (flat_map (pairing_of rois detections) l) <= length (hands_of l))%nat.
Proof.
  induction l as [|d l IH]; cbn; [lia|].
  rewrite length_app. pose proof (pairing_of_length rois detections d) as H1.
  destruct (String.eqb (d_class d) "hand") eqn:Hc.
  - cbn [length]. fold (hands_of l). lia.
  - rewrite (pairing_of_not_hand _ _ _ Hc). cbn. fold (hands_of l). lia.
Qed.

Lemma first_pizza_no_pizzas (hb : BBox) (detections : list Detection) :
  pizzas_of detections = [] -> first_pizza hb detections = None.
Proof.
  intros H. unfold first_pizza. rewrite <- find_filter.
  fold (pizzas_of detections). rewrite H. reflexivity.
Qed.

Lemma spec_pairings_no_pizzas (rois : list BBox) (detections l : list Detection) :
  pizzas_of detections = [] -> flat_map (pairing_of rois detections) l = [].
Proof.
  intros H. induction l as [|d l IH]; cbn; [reflexivity|].
  rewrite IH, app_nil_r. unfold pairing_of.
  rewrite (first_pizza_no_pizzas _ _ H). destruct (_ && _ && _); reflexivity.
Qed.

Lemma evaluate_rule_spec (rois : list BBox) (detections : list Detection) :
  evaluate_rule rois detections =
  mkRuleState (Z.of_nat (length (spec_pairings rois detections)))
              (spec_pairings rois detections).
Proof.
  unfold evaluate_rule. rewrite hand_loop_pairings. reflexivity.
Qed.

End Rule.

(** C2: for every detection list and ROI set, the pairing list built by
    rule evaluation is the list described by the specification: going
    through the detections in order, each hand that overlaps some ROI and
    no utensil contributes the pairing with the first pizza of the list it
    overlaps, and every other detection contributes nothing.  Each
    detection contributes at most one pairing, the count is the length of
    the pairing list, it is at most the number of hands, and it is zero
    (with an empty list) when there are no hands or no pizzas. *)
Theorem evaluate_rule_pairings (rois : list BBox)
    (detections : list Detection.Detection) :
  Detection.violation_bboxes (Detection.evaluate_rule rois detections)
    = spec_pairings rois detections
  /\ Detection.violation_count (Detection.evaluate_rule rois detections)
    = Z.of_nat (length (spec_pairings rois detections))
  /\ (forall d, (length (pairing_of rois detections d) <= 1)%nat)
  /\ (length (spec_pairings rois detections)
      <= length (Detection.hands_of detections))%nat
  /\ (Detection.hands_of detections = [] \/ Detection.pizzas_of detections = [] ->
      Detection.evaluate_rule rois detections = Detection.mkRuleState 0 []).
Proof.
  rewrite evaluate_rule_spec; cbn.
  split; [reflexivity|]. split; [reflexivity|].
  split; [apply pairing_of_length|].
  split; [apply spec_pairings_le_hands|].
  intros [H|H].
  - pose proof (spec_pairings_le_hands rois detections detections) as Hle.
    rewrite H in Hle. cbn in Hle. fold (spec_pairings rois detections) in Hle.
    destruct (spec_pairings rois detections); [reflexivity|cbn in Hle; lia].
  - unfold spec_pairings. rewrite (spec_pairings_no_pizzas _ _ _ H). reflexivity.
Qed.

(** ** The frame handler *)

Lemma evaluate_rule_pairings_witness :
  Detection.violation_bboxes
    (Detection.evaluate_rule Detection.ROIS [hand1; pizza1])
  = [Detection.mkPairing (box_of_ints 50 34 56 37) (box_of_ints 49 33 57 38)]
  /\ Detection.evaluate_rule Detection.ROIS [hand1; scooper1]
     = Detection.mkRuleState 0 [].
Proof.
  split.
  - rewrite (proj1 (evaluate_rule_pairings Detection.ROIS [hand1; pizza1])).
    reflexivity.
  - apply (evaluate_rule_pairings Detection.ROIS [hand1; scooper1]).
    right. reflexivity.
Defined.

Section ProcessFrame.
Import Detection.

(** The handler, path by path. *)
Lemma process_frame_paths (env : Env) (body : string) :
  process_frame env body =
  match json_loads env body with
  | Raise e => nacked e
  | Ok JOther => nacked "object has no attribute 'get'"
  | Ok (JObject message) =>
      match fm_frame message with
      | None => [EAck]
      | Some frame_b64 =>
          match b64decode env frame_b64 with
          | Raise e => nacked e
          | Ok frame_bytes =>
              match imdecode env frame_bytes with
              | Raise e => nacked e
              | Ok None => [EAck]
              | Ok (Some frame) =>
                  match model env frame with
                  | Raise e => nacked e
                  | Ok detections =>
                      let st := evaluate_rule ROIS detections in
                      let row := violation_row message detections st in
                      let msg := result_message env message detections st in
                      if 0 <? violation_count st then
                        match db_insert env row with
                        | Raise e => nacked e
                        | Ok _ =>
                            match basic_publish env msg with
                            | Raise e => EInsert row :: nacked e
                            | Ok _ => [EInsert row; EPublish msg; EAck]
                            end
                        end
                      else
                        match basic_publish env msg with
                        | Raise e => nacked e
                        | Ok _ => [EPublish msg; EAck]
                        end
                  end
              end
          end
      end
  end.
Proof.
  unfold process_frame, process_frame_body, try_except, bind, call, fields_of,
    emit, modify, ret, raise, nacked.
  destruct (json_loads env body) as [[message|]|e]; cbn; try reflexivity.
  destruct (fm_frame message) as [frame_b64|]; cbn; try reflexivity.
  destruct (b64decode env frame_b64) as [frame_bytes|e]; cbn; try reflexivity.
  destruct (imdecode env frame_bytes) as [[frame|]|e]; cbn; try reflexivity.
  destruct (model env frame) as [detections|e]; cbn; try reflexivity.
  destruct (0 <? violation_count (evaluate_rule ROIS detections)); cbn.
  - destruct (db_insert env _) as [[]|e]; cbn; try reflexivity.
    destruct (basic_publish env _) as [[]|e]; reflexivity.
  - destruct (basic_publish env _) as [[]|e]; reflexivity.
Qed.

End ProcessFrame.

Section ProcessFrameProperties.
Import Detection.

(** The scenarios of the specification. *)
Example bare_hand_on_pizza :
  evaluate_rule ROIS [hand1; pizza1] =
  mkRuleState 1 [mkPairing (box_of_ints 50 34 56 37) (box_of_ints 49 33 57 38)].
Proof. reflexivity. Qed.

Example hand_with_scooper :
  evaluate_rule ROIS [hand1; pizza1; scooper1] = mkRuleState 0 [].
Proof. reflexivity. Qed.

Example hand_outside_roi :
  evaluate_rule ROIS [far_hand; far_pizza] = mkRuleState 0 [].
Proof. reflexivity. Qed.

Example frame_with_violation :
  process_frame env_violation "body" =
  [EInsert (violation_row frame_message1 [hand1; pizza1]
              (evaluate_rule ROIS [hand1; pizza1]));
   EPublish (result_message env_violation frame_message1 [hand1; pizza1]
               (evaluate_rule ROIS [hand1; pizza1]));
   EAck].
Proof. reflexivity. Qed.

(** C1, as the specification states it, fails: on a frame with one
    violation pairing whose insert raises, the handler logs the error and
    rejects the message; it publishes no result and sends no
    acknowledgment. *)
Lemma insert_failure_blocks_publication :
  violation_bboxes (evaluate_rule ROIS [hand1; pizza1]) <> []
  /\ db_insert env_insert_fails
       (violation_row frame_message1 [hand1; pizza1]
          (evaluate_rule ROIS [hand1; pizza1]))
     = Raise "connection already closed"
  /\ process_frame env_insert_fails "body"
     = [ELogError "connection already closed"; ENack false]
  /\ ~ In EAck (process_frame env_insert_fails "body")
  /\ (forall msg, ~ In (EPublish msg) (process_frame env_insert_fails "body")).
Proof.
  split; [discriminate|]. split; [reflexivity|]. split; [reflexivity|].
  split.
  - intros [H|[H|[]]]; discriminate.
  - intros msg [H|[H|[]]]; discriminate.
Qed.

(** C1, amended: when the frame decodes, the detector answers, the rule
    finds at least one pairing and the insert of the violation raises, the
    handler logs the error and rejects the message without requeue; no
    result is published and the message is not acknowledged. *)
Theorem insert_failure_nacks (env : Env) (body frame_b64 frame_bytes e : string)
    (message : FrameMessage) (frame : Image) (detections : list Detection) :
  json_loads env body = Ok (JObject message) ->
  fm_frame message = Some frame_b64 ->
  b64decode env frame_b64 = Ok frame_bytes ->
  imdecode env frame_bytes = Ok (Some frame) ->
  model env frame = Ok detections ->
  violation_bboxes (evaluate_rule ROIS detections) <> [] ->
  db_insert env (violation_row message detections
                   (evaluate_rule ROIS detections)) = Raise e ->
  process_frame env body = [ELogError e; ENack false]
  /\ ~ In EAck (process_frame env body)
  /\ (forall msg, ~ In (EPublish msg) (process_frame env body)).
Proof.
  intros Hj Hf Hb Hi Hm Hne Hins.
  assert (Hrun : process_frame env body = [ELogError e; ENack false]).
  { rewrite process_frame_paths, Hj, Hf, Hb, Hi, Hm. cbv zeta.
    rewrite Hins. rewrite evaluate_rule_spec in *. cbn in *.
    destruct (spec_pairings ROIS detections); [congruence|]. reflexivity. }
  rewrite Hrun. split; [reflexivity|]. split.
  - intros [H|[H|[]]]; discriminate.
  - intros msg [H|[H|[]]]; discriminate.
Qed.

Lemma insert_failure_nacks_witness :
  process_frame env_insert_fails "body"
  = [ELogError "connection already closed"; ENack false]
  /\ ~ In EAck (process_frame env_insert_fails "body")
  /\ (forall msg, ~ In (EPublish msg) (process_frame env_insert_fails "body")).
Proof.
  apply (insert_failure_nacks env_insert_fails "body" "/9j/4AAQSkZJRg=="
           "jpeg bytes" "connection already closed" frame_message1 image1
           [hand1; pizza1]); try reflexivity.
  discriminate.
Defined.

End ProcessFrameProperties.

Section MalformedInput.
Import Detection.

(** C6, as the specification states it, fails: a body that does not parse
    as JSON is logged and negatively acknowledged, not acknowledged. *)
Lemma undecodable_message_is_nacked :
  json_loads env_bad_json "not json"
    = Raise "Expecting value: line 1 column 1 (char 0)"
  /\ process_frame env_bad_json "not json"
     = [ELogError "Expecting value: line 1 column 1 (char 0)"; ENack false]
  /\ ~ In EAck (process_frame env_bad_json "not json").
Proof.
  split; [reflexivity|]. split; [reflexivity|].
  intros [H|[H|[]]]; discriminate.
Qed.

(** C6, amended: a message without a frame field, and a message whose frame
    bytes the image decoder turns into no image, are acknowledged and
    dropped, with no other effect; a body that does not parse as JSON, and
    a frame field on which the base64 decoder raises (incorrect padding;
    characters outside the alphabet are dropped by the decoder and do not
    make it raise), raise in the handler and are negatively acknowledged
    without requeue. *)
Theorem malformed_input_exits (env : Env) (body : string) :
  (forall message,
      json_loads env body = Ok (JObject message) ->
      fm_frame message = None ->
      process_frame env body = [EAck])
  /\ (forall message frame_b64 frame_bytes,
      json_loads env body = Ok (JObject message) ->
      fm_frame message = Some frame_b64 ->
      b64decode env frame_b64 = Ok frame_bytes ->
      imdecode env frame_bytes = Ok None ->
      process_frame env body = [EAck])
  /\ (forall e,
      json_loads env body = Raise e ->
      process_frame env body = [ELogError e; ENack false])
  /\ (forall message frame_b64 e,
      json_loads env body = Ok (JObject message) ->
      fm_frame message = Some frame_b64 ->
      b64decode env frame_b64 = Raise e ->
      process_frame env body = [ELogError e; ENack false]).
Proof.
  repeat split.
  - intros message Hj Hf. rewrite process_frame_paths, Hj, Hf. reflexivity.
  - intros message frame_b64 frame_bytes Hj Hf Hb Hi.
    rewrite process_frame_paths, Hj, Hf, Hb, Hi. reflexivity.
  - intros e Hj. rewrite process_frame_paths, Hj. reflexivity.
  - intros message frame_b64 e Hj Hf Hb.
    rewrite process_frame_paths, Hj, Hf, Hb. reflexivity.
Qed.

Lemma malformed_input_exits_witness :
  process_frame env_no_frame "body" = [EAck]
  /\ process_frame env_not_image "body" = [EAck]
  /\ process_frame env_bad_json "not json"
     = [ELogError "Expecting value: line 1 column 1 (char 0)"; ENack false]
  /\ process_frame env_bad_base64 "body"
     = [ELogError "Incorrect padding"; ENack false].
Proof.
  split; [|split; [|split]].
  - eapply (proj1 (malformed_input_exits env_no_frame "body")); reflexivity.
  - eapply (proj1 (proj2 (malformed_input_exits env_not_image "body")));
      reflexivity.
  - eapply (proj1 (proj2 (proj2 (malformed_input_exits env_bad_json "not json"))));
      reflexivity.
  - eapply (proj2 (proj2 (proj2 (malformed_input_exits env_bad_base64 "body"))));
      reflexivity.
Defined.

End MalformedInput.

Section PublishedResult.
Import Detection.

(** C10: when a frame's result is published, the message is acknowledged,
    the published count is the length of the pairing list built from the
    published detections, both are at most the number of hands among them,
    an insert was made exactly when the count is at least one, and the row
    inserted carries that pairing list. *)
Theorem published_count_is_pairing_count (env : Env) (body : string)
    (r : ResultMessage) :
  In (EPublish r) (process_frame env body) ->
  let st := evaluate_rule ROIS (rm_detections r) in
  In EAck (process_frame env body)
  /\ rm_violation_count r = Z.of_nat (length (violation_bboxes st))
  /\ (length (violation_bboxes st) <= length (hands_of (rm_detections r)))%nat
  /\ ((exists row, In (EInsert row) (process_frame env body))
      <-> 1 <= rm_violation_count r)
  /\ (forall row, In (EInsert row) (process_frame env body) ->
                  vr_bounding_boxes row = violation_bboxes st).
Proof.
  rewrite process_frame_paths. unfold nacked.
  destruct (json_loads env body) as [[message|]|e];
    [|intros [H|[H|[]]]; discriminate ..].
  destruct (fm_frame message) as [frame_b64|];
    [|intros [H|[]]; discriminate].
  destruct (b64decode env frame_b64) as [frame_bytes|e];
    [|intros [H|[H|[]]]; discriminate].
  destruct (imdecode env frame_bytes) as [[frame|]|e];
    [|intros [H|[]]; discriminate|intros [H|[H|[]]]; discriminate].
  destruct (model env frame) as [detections|e];
    [|intros [H|[H|[]]]; discriminate].
  cbv zeta. rewrite (evaluate_rule_spec ROIS detections).
  cbn [violation_count violation_bboxes].
  set (ps := spec_pairings ROIS detections).
  destruct (0 <? Z.of_nat (length ps)) eqn:Hpos.
  - apply Z.ltb_lt in Hpos.
    destruct (db_insert env _) as [[]|e];
      [|intros [H|[H|[]]]; discriminate].
    destruct (basic_publish env _) as [[]|e];
      [|intros [H|[H|[H|[]]]]; discriminate].
    intros [H|[H|[H|[]]]]; try discriminate.
    injection H as <-. cbn [rm_detections rm_violation_count result_message].
    rewrite (evaluate_rule_spec ROIS detections).
    cbn [violation_count violation_bboxes]. fold ps.
    split; [cbn; auto|]. split; [reflexivity|].
    split; [apply spec_pairings_le_hands|]. split.
    + split; [lia|]. intros _. eexists. left. reflexivity.
    + intros row [H|[H|[H|[]]]]; try discriminate.
      injection H as <-. reflexivity.
  - apply Z.ltb_ge in Hpos.
    destruct (basic_publish env _) as [[]|e];
      [|intros [H|[H|[]]]; discriminate].
    intros [H|[H|[]]]; try discriminate.
    injection H as <-. cbn [rm_detections rm_violation_count result_message].
    rewrite (evaluate_rule_spec ROIS detections).
    cbn [violation_count violation_bboxes]. fold ps.
    split; [cbn; auto|]. split; [reflexivity|].
    split; [apply spec_pairings_le_hands|]. split.
    + split; [|lia]. intros [row [H|[H|[]]]]; discriminate.
    + intros row [H|[H|[]]]; discriminate.
Qed.

Lemma published_count_is_pairing_count_witness :
  let r := result_message env_violation frame_message1 [hand1; pizza1]
             (evaluate_rule ROIS [hand1; pizza1]) in
  let st := evaluate_rule ROIS (rm_detections r) in
  In (EPublish r) (process_frame env_violation "body")
  /\ In EAck (process_frame env_violation "body")
  /\ rm_violation_count r = Z.of_nat (length (violation_bboxes st))
  /\ (length (violation_bboxes st) <= length (hands_of (rm_detections r)))%nat
  /\ ((exists row, In (EInsert row) (process_frame env_violation "body"))
      <-> 1 <= rm_violation_count r)
  /\ (forall row, In (EInsert row) (process_frame env_violation "body") ->
                  vr_bounding_boxes row = violation_bboxes st).
Proof.
  intros r st.
  assert (H : In (EPublish r) (process_frame env_violation "body")).
  { right. left. reflexivity. }
  split; [exact H|].
  exact (published_count_is_pairing_count env_violation "body" r H).
Defined.

End PublishedResult.

(** ** The result aggregator *)

Section Aggregator.
Import Streaming.
Variable json_loads : string -> exn (Json ResultMessage).

(** One well-formed message: the latest entry of its video is overwritten,
    its count is added to the counter of the video, started at 0, and the
    message is acknowledged. *)
Lemma process_detection_well_formed (self : StreamingManager)
    (m : ResultMessage) (v : string) (n : Z) :
  json_loads (rm_body m) = Ok (JObject m) ->
  rm_video_name m = Some v ->
  rm_violation_count m = Some n ->
  process_detection json_loads self (rm_body m) =
  (mkStreamingManager (db_conn self)
     (<[v := m]> (latest_detections self))
     (<[v := default 0 (video_violations self !! v) + n]>
        (video_violations self)),
   [EAck]).
Proof.
  intros Hj Hv Hn.
  unfold process_detection, process_detection_body, try_except, bind, call,
    item, set_latest_detection, set_video_violations, emit, modify, get, ret.
  rewrite Hj, Hv, Hn. cbn.
  destruct (video_violations self !! v) as [c|] eqn:Hc; cbn.
  - rewrite Hc. reflexivity.
  - rewrite lookup_insert_eq. cbn. rewrite insert_insert_eq. reflexivity.
Qed.

Lemma consume_cons (self : StreamingManager) (body : string)
    (bodies : list string) :
  consume json_loads self (body :: bodies) =
  consume json_loads (fst (process_detection json_loads self body)) bodies.
Proof. reflexivity. Qed.

(** The consumer loop from any state of the manager. *)
Lemma consume_from (msgs : list ResultMessage) (self : StreamingManager)
    (v : string) :
  Forall (well_formed json_loads) msgs ->
  let self' := consume json_loads self (map rm_body msgs) in
  latest_detections self' !! v =
    match last (for_video v msgs) with
    | Some m => Some m
    | None => latest_detections self !! v
    end
  /\ video_violations self' !! v =
    match for_video v msgs with
    | [] => video_violations self !! v
    | _ => Some (default 0 (video_violations self !! v)
                 + sum_of_counts (for_video v msgs))
    end.
Proof.
  intros Hwf. revert self. induction Hwf as [|m msgs Hm _ IH]; intros self.
  - cbn. auto.
  - destruct Hm as (Hj & [w Hw] & [n Hn]).
    cbn [map]. rewrite consume_cons.
    rewrite (process_detection_well_formed self m w n Hj Hw Hn).
    cbn [fst]. cbv zeta.
    destruct (IH (mkStreamingManager (db_conn self)
                    (<[w := m]> (latest_detections self))
                    (<[w := default 0 (video_violations self !! w) + n]>
                       (video_violations self)))) as [IHl IHc].
    rewrite IHl, IHc. clear IHl IHc. cbn [latest_detections video_violations].
    unfold for_video. destruct (decide (w = v)) as [->|Hne].
    + rewrite filter_cons_True by exact Hw.
      rewrite lookup_insert_eq, last_cons. split.
      * destruct (last _); reflexivity.
      * fold (for_video v msgs). unfold sum_of_counts. cbn [map foldr].
        unfold count_of at 2. rewrite Hn. cbn [default].
        destruct (for_video v msgs); cbn; rewrite lookup_insert_eq; cbn;
          f_equal; lia.
    + rewrite filter_cons_False by (rewrite Hw; congruence).
      rewrite !lookup_insert_ne by exact Hne. auto.
Qed.

End Aggregator.

(** C8: starting from the empty caches, after the aggregator has consumed
    any sequence of well-formed result messages, for every video that
    occurs in it the running counter is the sum of the violation counts of
    the messages of that video and the latest-result entry is the last of
    them; a video that does not occur has neither entry. *)
Theorem aggregator_counter_is_sum
    (json_loads : string -> exn (Json Streaming.ResultMessage))
    (store : Streaming.Store) (msgs : list Streaming.ResultMessage)
    (v : string) :
  Forall (well_formed json_loads) msgs ->
  let self' :=
    Streaming.consume json_loads (Streaming.mkStreamingManager store ∅ ∅)
      (map Streaming.rm_body msgs) in
  Streaming.latest_detections self' !! v = last (for_video v msgs)
  /\ Streaming.video_violations self' !! v =
     match for_video v msgs with
     | [] => None
     | _ => Some (sum_of_counts (for_video v msgs))
     end.
Proof.
  intros Hwf.
  destruct (consume_from json_loads msgs
              (Streaming.mkStreamingManager store ∅ ∅) v Hwf) as [Hl Hc].
  cbv zeta in *. rewrite Hl, Hc. cbn. rewrite !lookup_empty. split.
  - destruct (last _); reflexivity.
  - destruct (for_video v msgs); [reflexivity|]. cbn. f_equal.
Qed.

Lemma aggregator_counter_is_sum_witness :
  let self' :=
    Streaming.consume json_loads_results manager_down ["r1"; "r2"; "r3"] in
  Streaming.latest_detections self' !! "kitchen" = Some result_kitchen2
  /\ Streaming.video_violations self' !! "kitchen" = Some 5.
Proof.
  apply (aggregator_counter_is_sum json_loads_results store_down
           [result_kitchen1; result_bar; result_kitchen2] "kitchen").
  repeat constructor; cbn; eauto.
Defined.

(** ** The query API *)

Section QueryAPI.
Import Streaming.

(** C5, as the specification states it, fails: with a store on which both
    queries of [GET /violations/<video>] raise, the endpoint answers 200
    with a count of 0 and an empty list. *)
Lemma failing_query_answered_200 :
  q_count_by_video (db_conn manager_down) "kitchen"
    = Raise "connection already closed"
  /\ q_list_by_video (db_conn manager_down) "kitchen" 100
    = Raise "connection already closed"
  /\ serve (Some manager_down) (GetViolations "kitchen")
    = (BViolations "kitchen" 0 [], 200).
Proof. repeat split. Qed.

(** Unfolds the handlers and the monad, leaving the store queries. *)
Ltac run_handler :=
  unfold serve, route, get_violations, get_all_violations,
    get_latest_detection, get_video_summary, get_violation_details,
    health_check, get_statistics, get_violation_count_from_db,
    get_violations_from_db, the_manager, on_error, total_of, log_error,
    try_except, bind, call, modify, ret, raise; cbn.

(** The responses of the API, endpoint by endpoint, when the manager
    exists. *)
Lemma serve_paths (self : StreamingManager) (r : Request) :
  serve (Some self) r =
  match r with
  | GetViolations v =>
      (BViolations v
         match q_count_by_video (db_conn self) v with
         | Ok (Some total) => total
         | _ => 0
         end
         match q_list_by_video (db_conn self) v 100 with
         | Ok violations => violations
         | Raise _ => []
         end, 200)
  | GetAllViolations =>
      match q_counts_per_video (db_conn self) with
      | Ok results => (BVideos results (Z.of_nat (length results)), 200)
      | Raise e => (BError e, 500)
      end
  | GetLatestDetection v =>
      match latest_detections self !! v with
      | Some message => (BLatest message, 200)
      | None => (BError "No detections found", 404)
      end
  | GetVideoSummary v =>
      match q_first_last (db_conn self) v with
      | Ok result =>
          (BSummary v
             match q_count_by_video (db_conn self) v with
             | Ok (Some total) => total
             | _ => 0
             end
             match result with Some r => fst r | None => None end
             match result with Some r => snd r | None => None end, 200)
      | Raise e => (BError e, 500)
      end
  | GetViolationDetails i =>
      match q_by_id (db_conn self) (Z.of_N i) with
      | Ok (Some violation) => (BDetails violation, 200)
      | Ok None => (BError "Violation not found", 404)
      | Raise e => (BError e, 500)
      end
  | GetHealth => (BHealth, 200)
  | GetStatistics =>
      match q_total (db_conn self) with
      | Ok (Some total) =>
          match q_videos_with_violations (db_conn self) with
          | Ok (Some videos) =>
              match q_violation_types (db_conn self) with
              | Ok types => (BStatistics total videos types, 200)
              | Raise e => (BError e, 500)
              end
          | Ok None => (BError "'NoneType' object is not subscriptable", 500)
          | Raise e => (BError e, 500)
          end
      | Ok None => (BError "'NoneType' object is not subscriptable", 500)
      | Raise e => (BError e, 500)
      end
  end.
Proof.
  destruct r as [v| |v|v|i| |]; run_handler.
  - destruct (q_count_by_video (db_conn self) v) as [[?|]|?];
      destruct (q_list_by_video (db_conn self) v 100); reflexivity.
  - destruct (q_counts_per_video (db_conn self)); reflexivity.
  - destruct (latest_detections self !! v); reflexivity.
  - destruct (q_count_by_video (db_conn self) v) as [[?|]|?];
      destruct (q_first_last (db_conn self) v); reflexivity.
  - destruct (q_by_id (db_conn self) (Z.of_N i)) as [[?|]|?]; reflexivity.
  - reflexivity.
  - destruct (q_total (db_conn self)) as [[?|]|?]; try reflexivity.
    destruct (q_videos_with_violations (db_conn self)) as [[?|]|?];
      try reflexivity.
    destruct (q_violation_types (db_conn self)); reflexivity.
Qed.

(** When the module global was never bound, every endpoint but the health
    probe answers 500. *)
Lemma serve_without_manager (r : Request) :
  serve None r =
  match r with
  | GetHealth => (BHealth, 200)
  | _ => (BError "name 'manager' is not defined", 500)
  end.
Proof. destruct r; reflexivity. Qed.

(** C5, amended: every read operation answers with status 200, 404 or 500
    and a 500 carries an error body; an endpoint that queries the store
    itself (the per-video list of counts, the details of a violation, the
    statistics, the first and last timestamps of the summary) answers a
    failing query with 500 and the error text; the count and list helpers
    behind [GET /violations/<video>] replace a failing query by 0 and by
    the empty list, and that endpoint answers 200 with them; the summary
    of a video, when its timestamp query succeeds, answers 200 with the
    count of the helper, which is 0 when the count query fails. *)
Theorem query_errors (self : StreamingManager) :
  (forall manager r,
      (snd (serve manager r) = 200 \/ snd (serve manager r) = 404
       \/ snd (serve manager r) = 500)
      /\ (snd (serve manager r) = 500 ->
          exists e, fst (serve manager r) = BError e))
  /\ (forall e, q_counts_per_video (db_conn self) = Raise e ->
        serve (Some self) GetAllViolations = (BError e, 500))
  /\ (forall i e, q_by_id (db_conn self) (Z.of_N i) = Raise e ->
        serve (Some self) (GetViolationDetails i) = (BError e, 500))
  /\ (forall e,
        q_total (db_conn self) = Raise e
        \/ (exists t, q_total (db_conn self) = Ok (Some t))
           /\ q_videos_with_violations (db_conn self) = Raise e
        \/ (exists t, q_total (db_conn self) = Ok (Some t))
           /\ (exists t, q_videos_with_violations (db_conn self) = Ok (Some t))
           /\ q_violation_types (db_conn self) = Raise e ->
        serve (Some self) GetStatistics = (BError e, 500))
  /\ (forall v e, q_first_last (db_conn self) v = Raise e ->
        serve (Some self) (GetVideoSummary v) = (BError e, 500))
  /\ (forall v,
        serve (Some self) (GetViolations v) =
        (BViolations v
           match q_count_by_video (db_conn self) v with
           | Ok (Some total) => total
           | _ => 0
           end
           match q_list_by_video (db_conn self) v 100 with
           | Ok violations => violations
           | Raise _ => []
           end, 200))
  /\ (forall v result,
        q_first_last (db_conn self) v = Ok result ->
        serve (Some self) (GetVideoSummary v) =
        (BSummary v
           match q_count_by_video (db_conn self) v with
           | Ok (Some total) => total
           | _ => 0
           end
           match result with Some r => fst r | None => None end
           match result with Some r => snd r | None => None end, 200))
  /\ (forall v e result,
        q_count_by_video (db_conn self) v = Raise e ->
        q_first_last (db_conn self) v = Ok result ->
        exists first last,
          serve (Some self) (GetVideoSummary v)
          = (BSummary v 0 first last, 200)).
Proof.
  split; [|split; [|split; [|split; [|split; [|split; [|split]]]]]].
  - intros [m|] r.
    + rewrite serve_paths. destruct r as [v| |v|v|i| |].
      * cbn; split; [auto|discriminate].
      * destruct (q_counts_per_video _); cbn; split; eauto; discriminate.
      * destruct (_ !! v); cbn; split; auto; discriminate.
      * destruct (q_first_last _ v); cbn; split; eauto; discriminate.
      * destruct (q_by_id _ (Z.of_N i)) as [[?|]|?]; cbn; split; eauto;
          discriminate.
      * cbn; split; [auto|discriminate].
      * destruct (q_total _) as [[?|]|?]; cbn; [|split; eauto ..].
        destruct (q_videos_with_violations _) as [[?|]|?]; cbn;
          [|split; eauto ..].
        destruct (q_violation_types _); cbn; split; eauto; discriminate.
    + rewrite serve_without_manager.
      destruct r; cbn; split; eauto; discriminate.
  - intros e H. rewrite serve_paths, H. reflexivity.
  - intros i e H. rewrite serve_paths, H. reflexivity.
  - intros e [H|[[[t Ht] H]|[[t Ht] [[t' Ht'] H]]]]; rewrite serve_paths.
    + rewrite H. reflexivity.
    + rewrite Ht, H. reflexivity.
    + rewrite Ht, Ht', H. reflexivity.
  - intros v e H. rewrite serve_paths, H. reflexivity.
  - intros v. rewrite serve_paths. reflexivity.
  - intros v result H. rewrite serve_paths, H. reflexivity.
  - intros v e result Hc H. rewrite serve_paths, H, Hc. eauto.
Qed.

Lemma query_errors_witness :
  serve (Some manager_down) GetAllViolations
    = (BError "connection already closed", 500)
  /\ serve (Some manager_down) (GetViolationDetails 7)
    = (BError "connection already closed", 500)
  /\ serve (Some manager_down) GetStatistics
    = (BError "connection already closed", 500)
  /\ serve (Some manager_down) (GetVideoSummary "kitchen")
    = (BError "connection already closed", 500)
  /\ serve (Some manager_count_down) (GetVideoSummary "kitchen")
    = (BSummary "kitchen" 0 (Some "2024-01-01T00:00:05")
         (Some "2024-01-01T00:09:30"), 200).
Proof.
  pose proof (query_errors manager_down) as (_ & H1 & H2 & H3 & H4 & _).
  pose proof (query_errors manager_count_down)
    as (_ & _ & _ & _ & _ & _ & H6 & _).
  split; [|split; [|split; [|split]]].
  - apply H1. reflexivity.
  - apply H2. reflexivity.
  - apply H3. left. reflexivity.
  - apply H4. reflexivity.
  - apply (H6 "kitchen"
             (Some (Some "2024-01-01T00:00:05", Some "2024-01-01T00:09:30"))).
    reflexivity.
Defined.

End QueryAPI.

(** ** Startup *)

(** The connection loop of the detection service ends within six tests of
    its condition, whatever the attempts give, after at most five
    attempts. *)
Lemma detection_connect_db_terminates (attempt : nat -> exn unit) (n : nat) :
  exists connected log,
    Detection.connect_db (6 + n) attempt = Some (connected, log)
    /\ (attempts log <= 5)%nat.
Proof.
  unfold Detection.connect_db. cbn.
  destruct (attempt 0%nat); [do 2 eexists; split; [reflexivity|cbn; lia]|].
  destruct (attempt 1%nat); [do 2 eexists; split; [reflexivity|cbn; lia]|].
  destruct (attempt 2%nat); [do 2 eexists; split; [reflexivity|cbn; lia]|].
  destruct (attempt 3%nat); [do 2 eexists; split; [reflexivity|cbn; lia]|].
  destruct (attempt 4%nat); do 2 eexists; (split; [reflexivity|cbn; lia]).
Qed.

(** C4 on the code: when the store refuses all five attempts and the
    broker accepts the first, [connect_db] of the detection service makes
    five attempts, sleeps two seconds after each, and returns without a
    connection and without raising; [main] goes on and the service consumes
    frames with no store connection.  [connect_db] of the streaming service
    makes five attempts with four sleeps between them and re-raises the
    last error; its caller catches it and leaves the manager unbound. *)
Theorem detection_starts_without_store (n : nat) (store : Streaming.Store) :
  Detection.connect_db (6 + n) refused = Some (false, mkConnectLog 5 10)
  /\ Detection.main (6 + n) refused accepted
     = Some (Detection.Consuming (Detection.mkDetector false true)
               (mkConnectLog 5 10) (mkConnectLog 1 0))
  /\ Streaming.connect_db (6 + n) refused
     = Some (Raise "Connection refused", mkConnectLog 5 8)
  /\ Streaming.create_manager (6 + n) store refused accepted = Some None.
Proof. repeat split. Qed.

(** ** The frame producer *)

Section Producer.
Import FrameReader.

Lemma py_int_max_floor (x : Q) : Z.max 1 (py_int x) = Z.max 1 (Qfloor x).
Proof.
  destruct x as [n d]. unfold py_int. cbn [Qnum Qden Qfloor].
  destruct (Z.le_gt_cases 0 n) as [Hn|Hn].
  - rewrite Z.quot_div_nonneg by lia. reflexivity.
  - assert (H1 : n ÷ Z.pos d <= 0).
    { replace n with (- - n) by lia. rewrite Z.quot_opp_l by lia.
      pose proof (Z.quot_pos (- n) (Z.pos d)). lia. }
    assert (H2 : n / Z.pos d < 0) by (apply Z.div_lt_upper_bound; lia).
    lia.
Qed.

Lemma frame_skip_of_stride (fps : Q) (max_fps : Z) :
  frame_skip_of fps max_fps = stride fps max_fps.
Proof. apply py_int_max_floor. Qed.

Lemma stride_pos (fps : Q) (max_fps : Z) : 1 <= stride fps max_fps.
Proof. unfold stride. lia. Qed.

(** [publish_frame] never raises and only adds to the trace. *)
Lemma publish_frame_events (env : Env) (video_name : string)
    (p : Z * SourceFrame) (t : list Event) :
  publish_frame env (sf_image (snd p)) (fst p) video_name (sf_pos_msec (snd p)) t
  = (Ok tt, t ++ publish_events env video_name p).
Proof.
  unfold publish_events, publish_frame, try_except, bind, call, emit, modify.
  destruct (imencode_b64 env _); cbn; [|reflexivity].
  destruct (imwrite env _ _); cbn; [|reflexivity].
  destruct (basic_publish env _); reflexivity.
Qed.

Lemma publish_events_reliable (env : Env) (enc : Image -> string)
    (video_name : string) (p : Z * SourceFrame) :
  (forall img, imencode_b64 env img = Ok (enc img)) ->
  (forall path img, imwrite env path img = Ok tt) ->
  (forall msg, basic_publish env msg = Ok tt) ->
  publish_events env video_name p = [EPublish (frame_message enc video_name p)].
Proof.
  intros He Hw Hp.
  unfold publish_events, publish_frame, try_except, bind, call, emit, modify.
  rewrite He, Hw, Hp. reflexivity.
Qed.

(** The reading loop, started with the counter at [c]: the frames whose
    index is a multiple of the stride are handed to [publish_frame] with
    that index, in order. *)
Lemma read_loop_events (env : Env) (video_name : string) (k : Z)
    (frames : list SourceFrame) (c : nat) (t : list Event) :
  read_loop env video_name k frames (Z.of_nat c) t
  = (Ok tt,
     t ++ flat_map (publish_events env video_name) (sampled_from (S c) k frames)).
Proof.
  revert c t. induction frames as [|f rest IH]; intros c t.
  - cbn. rewrite app_nil_r. reflexivity.
  - cbn [read_loop]. unfold bind at 1.
    replace (Z.of_nat c + 1) with (Z.of_nat (S c)) by lia.
    unfold sampled_from, indexed_from. cbn [length seq map combine List.filter fst].
    fold (indexed_from (S (S c)) rest). fold (sampled_from (S (S c)) k rest).
    destruct (Z.of_nat (S c) mod k =? 0).
    + pose proof (publish_frame_events env video_name (Z.of_nat (S c), f) t)
        as Hpub.
      cbn [fst snd] in Hpub. rewrite Hpub, IH. cbn [flat_map]. rewrite app_assoc. reflexivity.
    + unfold ret at 1. rewrite IH. reflexivity.
Qed.

Lemma sampled_ids (a : nat) (k : Z) (frames : list SourceFrame) :
  map fst (sampled_from a k frames)
  = List.filter (fun i => i mod k =? 0) (map Z.of_nat (seq a (length frames))).
Proof.
  revert a. induction frames as [|f rest IH]; intros a; [reflexivity|].
  unfold sampled_from, indexed_from in *.
  cbn [length seq map combine List.filter fst].
  destruct (Z.of_nat a mod k =? 0); cbn [map fst]; rewrite IH; reflexivity.
Qed.

Lemma in_multiples (a n : nat) (k i : Z) :
  In i (List.filter (fun i => i mod k =? 0) (map Z.of_nat (seq a n)))
  <-> Z.of_nat a <= i < Z.of_nat a + Z.of_nat n /\ i mod k = 0.
Proof.
  rewrite filter_In, in_map_iff, Z.eqb_eq. split.
  - intros [[x [<- Hx]] Hm]. apply in_seq in Hx. split; [lia|exact Hm].
  - intros [Hr Hm]. split; [|exact Hm]. exists (Z.to_nat i).
    split; [lia|]. apply in_seq. lia.
Qed.

Lemma multiples_increasing (a n : nat) (k : Z) :
  StronglySorted Z.lt
    (List.filter (fun i => i mod k =? 0) (map Z.of_nat (seq a n))).
Proof.
  revert a. induction n as [|n IH]; intros a; cbn; [constructor|].
  destruct (Z.of_nat a mod k =? 0); [|apply IH].
  constructor; [apply IH|]. apply List.Forall_forall. intros x Hx.
  apply in_multiples in Hx. lia.
Qed.

Lemma indexed_from_bounds (a : nat) (frames : list SourceFrame)
    (p : Z * SourceFrame) :
  In p (indexed_from a frames) ->
  Z.of_nat a <= fst p
  /\ nth_error frames (Z.to_nat (fst p) - a) = Some (snd p).
Proof.
  revert a. induction frames as [|f rest IH]; intros a; cbn; [tauto|].
  intros [<-|H].
  - cbn. split; [lia|]. replace (Z.to_nat (Z.of_nat a) - a)%nat with 0%nat by lia.
    reflexivity.
  - apply IH in H as [H1 H2]. split; [lia|].
    replace (Z.to_nat (fst p) - a)%nat with (S (Z.to_nat (fst p) - S a)) by lia.
    exact H2.
Qed.

End Producer.

(** C7: for an opened source and a non-zero target rate, the stride used
    by the reader is [max(1, floor(nativeRate / samplingRate))]; the reader
    hands to [publish_frame], in order, exactly the frames whose source
    index, counted from 1, is a positive multiple of the stride, and with
    a codec and a broker that do not fail each of them is published; each
    message carries that index as its sequence number, so the sequence
    numbers are strictly increasing. *)
Theorem read_video_publishes_every_stride (env : FrameReader.Env)
    (cap : FrameReader.VideoCapture) (video_name : string) (max_fps : Z) :
  FrameReader.isOpened cap = true ->
  max_fps <> 0 ->
  let k := stride (FrameReader.cap_fps cap) max_fps in
  let frames := FrameReader.cap_frames cap in
  FrameReader.frame_skip_of (FrameReader.cap_fps cap) max_fps = k
  /\ FrameReader.read_video env cap video_name max_fps []
     = (Ok tt, flat_map (publish_events env video_name) (sampled k frames))
  /\ (forall enc,
        (forall img, FrameReader.imencode_b64 env img = Ok (enc img)) ->
        (forall path img, FrameReader.imwrite env path img = Ok tt) ->
        (forall msg, FrameReader.basic_publish env msg = Ok tt) ->
        FrameReader.read_video env cap video_name max_fps []
        = (Ok tt,
           map (fun p => FrameReader.EPublish (frame_message enc video_name p))
               (sampled k frames))
        /\ forall p,
            FrameReader.fm_frame_id (frame_message enc video_name p) = fst p)
  /\ (forall p, In p (sampled k frames) ->
        nth_error frames (Z.to_nat (fst p) - 1) = Some (snd p))
  /\ (forall i, In i (map fst (sampled k frames)) <->
        i <= Z.of_nat (length frames) /\ exists j, 0 < j /\ i = j * k)
  /\ StronglySorted Z.lt (map fst (sampled k frames)).
Proof.
  intros Hopen Hfps k frames.
  pose proof (stride_pos (FrameReader.cap_fps cap) max_fps) as Hk. fold k in Hk.
  assert (Hrun : FrameReader.read_video env cap video_name max_fps []
                 = (Ok tt, flat_map (publish_events env video_name)
                             (sampled k frames))).
  { unfold FrameReader.read_video. rewrite Hopen. cbn [negb].
    destruct (Z.eqb_spec max_fps 0) as [|_]; [contradiction|].
    rewrite frame_skip_of_stride. fold k.
    change 0 with (Z.of_nat 0) at 1.
    rewrite (read_loop_events env video_name k (FrameReader.cap_frames cap) 0 []).
    reflexivity. }
  split; [apply frame_skip_of_stride|].
  split; [exact Hrun|]. split; [|split; [|split]].
  - intros enc He Hw Hp. split; [|reflexivity]. rewrite Hrun. f_equal.
    clear Hrun. induction (sampled k frames) as [|p l IH]; [reflexivity|].
    cbn [flat_map map]. rewrite IH.
    rewrite (publish_events_reliable env enc video_name p He Hw Hp). reflexivity.
  - intros p Hin. apply filter_In in Hin as [Hin _].
    apply indexed_from_bounds in Hin as [_ Hin]. exact Hin.
  - intros i. unfold sampled. rewrite sampled_ids, in_multiples. split.
    + intros [Hr Hm]. split; [lia|]. exists (i / k).
      apply Z.mod_divide in Hm; [|lia]. destruct Hm as [q Hq].
      subst i. rewrite Z.div_mul by lia. split; [nia|reflexivity].
    + intros [Hr [j [Hj ->]]]. split; [nia|]. apply Z.mod_mul. lia.
  - unfold sampled. rewrite sampled_ids. apply multiples_increasing.
Qed.

Lemma read_video_publishes_every_stride_witness :
  FrameReader.frame_skip_of (FrameReader.cap_fps cap_13_frames) 5 = 6
  /\ map fst (sampled 6 (FrameReader.cap_frames cap_13_frames)) = [6; 12]
  /\ FrameReader.read_video env_reliable cap_13_frames "kitchen" 5 []
     = (Ok tt,
        map (fun p => FrameReader.EPublish
                        (frame_message enc_constant "kitchen" p))
            (sampled (stride (FrameReader.cap_fps cap_13_frames) 5)
                     (FrameReader.cap_frames cap_13_frames)))
  /\ StronglySorted Z.lt
       (map fst (sampled (stride (FrameReader.cap_fps cap_13_frames) 5)
                         (FrameReader.cap_frames cap_13_frames))).
Proof.
  destruct (read_video_publishes_every_stride env_reliable cap_13_frames
              "kitchen" 5 eq_refl ltac:(discriminate))
    as (H1 & _ & H3 & _ & _ & H6).
  split; [rewrite H1; reflexivity|]. split; [reflexivity|].
  split; [|exact H6].
  apply (H3 enc_constant); reflexivity.
Defined.

(** * Further properties of the code *)

(** ** Geometry of the overlap predicate *)

Section OverlapGeometry.
Import Detection.

(** A positive intersection, inequality by inequality. *)
Lemma positive_intersection_bounds (A B : BBox) :
  positive_intersection A B <->
  ((bx1 A < bx2 A)%Q /\ (bx1 A < bx2 B)%Q /\ (bx1 B < bx2 A)%Q
   /\ (bx1 B < bx2 B)%Q)
  /\ ((by1 A < by2 A)%Q /\ (by1 A < by2 B)%Q /\ (by1 B < by2 A)%Q
      /\ (by1 B < by2 B)%Q).
Proof.
  unfold positive_intersection, inter_left, inter_right, inter_top,
    inter_bottom.
  rewrite !Q.max_lub_lt_iff, !Q.min_glb_lt_iff. tauto.
Qed.

Lemma boxes_overlap_bounds (A B : BBox) (t : Q) :
  boxes_overlap A B t = true <->
  ((bx1 A < bx2 A)%Q /\ (bx1 A < bx2 B)%Q /\ (bx1 B < bx2 A)%Q
   /\ (bx1 B < bx2 B)%Q)
  /\ ((by1 A < by2 A)%Q /\ (by1 A < by2 B)%Q /\ (by1 B < by2 A)%Q
      /\ (by1 B < by2 B)%Q).
Proof. rewrite boxes_overlap_iff. apply positive_intersection_bounds. Qed.

Lemma boxes_overlap_sym (A B : BBox) (t t' : Q) :
  boxes_overlap A B t = boxes_overlap B A t'.
Proof.
  apply eq_true_iff_eq. rewrite !boxes_overlap_bounds. tauto.
Qed.

Lemma boxes_overlap_grow (A A' B : BBox) (t : Q) :
  contains A' A -> boxes_overlap A B t = true -> boxes_overlap A' B t = true.
Proof.
  unfold contains. rewrite !boxes_overlap_bounds.
  intros (H1 & H2 & H3 & H4) ((X1 & X2 & X3 & X4) & (Y1 & Y2 & Y3 & Y4)).
  repeat split; lra.
Qed.

Lemma is_in_roi_exists (bbox : BBox) (rois : list BBox) :
  is_in_roi bbox rois = true <->
  exists roi, In roi rois /\ positive_intersection bbox roi.
Proof.
  unfold is_in_roi. rewrite existsb_exists. split.
  - intros [roi [Hin H]]. exists roi. split; [exact Hin|].
    apply boxes_overlap_iff in H. exact H.
  - intros [roi [Hin H]]. exists roi. split; [exact Hin|].
    apply boxes_overlap_iff. exact H.
Qed.

End OverlapGeometry.

(** X1: the overlap predicate is symmetric in its two boxes, whatever
    thresholds are passed. *)
Theorem boxes_overlap_symmetric (A B : BBox) (t t' : Q) :
  Detection.boxes_overlap A B t = Detection.boxes_overlap B A t'.
Proof. apply boxes_overlap_sym. Qed.

(** X2: on boxes of moderate coordinates, the predicate computed in
    doubles says that a box overlaps itself exactly when it has positive
    width and height, and that two boxes that overlap both have positive
    width and height: a box with [x2 <= x1] or [y2 <= y1] overlaps
    nothing. *)
Theorem boxes_overlap_nondegenerate (A B : BBox) (t : Binary64.float) :
  moderate_box A = true ->
  moderate_box B = true ->
  (Detection64.boxes_overlap (double_box A) (double_box A) t = true
   <-> nondegenerate A)
  /\ (Detection64.boxes_overlap (double_box A) (double_box B) t = true ->
      nondegenerate A /\ nondegenerate B).
Proof.
  intros HA HB.
  rewrite (boxes_overlap_exact A A t Detection.default_iou_threshold HA HA).
  rewrite (boxes_overlap_exact A B t Detection.default_iou_threshold HA HB).
  unfold nondegenerate. rewrite !boxes_overlap_bounds. split.
  - tauto.
  - tauto.
Qed.

Lemma boxes_overlap_nondegenerate_witness :
  Detection64.boxes_overlap (double_box (box_of_ints 50 34 56 37))
    (double_box (box_of_ints 50 34 56 37)) Detection64.default_iou_threshold
  = true
  /\ nondegenerate (box_of_ints 49 33 57 38).
Proof.
  assert (H1 : moderate_box (box_of_ints 50 34 56 37) = true)
    by (vm_compute; reflexivity).
  assert (H2 : moderate_box (box_of_ints 49 33 57 38) = true)
    by (vm_compute; reflexivity).
  destruct (boxes_overlap_nondegenerate (box_of_ints 50 34 56 37)
              (box_of_ints 49 33 57 38) Detection64.default_iou_threshold
              H1 H2) as [Hself Hboth].
  split.
  - apply Hself. split; reflexivity.
  - apply Hboth. vm_compute. reflexivity.
Defined.

(** X3: enlarging a box keeps its overlaps: a box that contains a box
    overlapping [B] overlaps [B], and a box that contains a box in scope
    of the ROIs is in scope. *)
Theorem overlap_monotone (A A' B : BBox) (rois : list BBox) (t : Q) :
  contains A' A ->
  (Detection.boxes_overlap A B t = true ->
   Detection.boxes_overlap A' B t = true)
  /\ (Detection.is_in_roi A rois = true ->
      Detection.is_in_roi A' rois = true).
Proof.
  intros Hc. split; [apply boxes_overlap_grow; exact Hc|].
  unfold Detection.is_in_roi. rewrite !existsb_exists.
  intros [roi [Hin H]]. exists roi. split; [exact Hin|].
  apply (boxes_overlap_grow A A' roi _ Hc H).
Qed.

Lemma overlap_monotone_witness :
  Detection.boxes_overlap (box_of_ints 40 30 60 40) (box_of_ints 49 33 57 38)
    Detection.default_iou_threshold = true
  /\ Detection.is_in_roi (box_of_ints 40 30 60 40) Detection.ROIS = true.
Proof.
  assert (Hc : contains (box_of_ints 40 30 60 40) (box_of_ints 50 34 56 37)).
  { repeat split; discriminate. }
  destruct (overlap_monotone (box_of_ints 50 34 56 37) (box_of_ints 40 30 60 40)
              (box_of_ints 49 33 57 38) Detection.ROIS
              Detection.default_iou_threshold Hc) as [H1 H2].
  split; [apply H1|apply H2]; reflexivity.
Defined.

(** X4: on boxes of moderate coordinates, the scope test computed in
    doubles puts a box in scope exactly when its intersection with one of
    the ROIs has positive area; with the configured ROI, that is when the
    box has positive width and height, starts left of [x = 55] and above
    [y = 36], and ends right of [x = 48] and below [y = 34]. *)
Theorem is_in_roi_characterised (bbox : BBox) (rois : list BBox) :
  moderate_box bbox = true ->
  Forall (fun roi => moderate_box roi = true) rois ->
  (Detection64.is_in_roi (double_box bbox) (map double_box rois) = true
   <-> exists roi, In roi rois /\ positive_intersection bbox roi)
  /\ (Detection64.is_in_roi (double_box bbox) Detection64.ROIS = true
      <-> (bx1 bbox < bx2 bbox)%Q /\ (bx1 bbox < 55)%Q /\ (48 < bx2 bbox)%Q
          /\ (by1 bbox < by2 bbox)%Q /\ (by1 bbox < 36)%Q
          /\ (34 < by2 bbox)%Q).
Proof.
  intros Hb Hr. split.
  - rewrite (is_in_roi_exact bbox rois Hb Hr). apply is_in_roi_exists.
  - change Detection64.ROIS with (map double_box Detection.ROIS).
    rewrite (is_in_roi_exact bbox Detection.ROIS Hb).
    + unfold Detection.is_in_roi, Detection.ROIS. cbn [existsb].
      rewrite orb_false_r, boxes_overlap_bounds.
      unfold box_of_ints. cbn [bx1 by1 bx2 by2].
      change (inject_Z 48) with 48%Q. change (inject_Z 34) with 34%Q.
      change (inject_Z 55) with 55%Q. change (inject_Z 36) with 36%Q.
      split.
      * intros ((X1 & X2 & X3 & X4) & (Y1 & Y2 & Y3 & Y4)). tauto.
      * intros (X1 & X2 & X3 & Y1 & Y2 & Y3).
        repeat split; try assumption; reflexivity.
    + repeat constructor.
Qed.

Lemma is_in_roi_characterised_witness :
  Detection64.is_in_roi (double_box (box_of_ints 50 34 56 37))
    Detection64.ROIS = true.
Proof.
  assert (H1 : moderate_box (box_of_ints 50 34 56 37) = true)
    by (vm_compute; reflexivity).
  destruct (is_in_roi_characterised (box_of_ints 50 34 56 37) [] H1
              (List.Forall_nil _)) as [_ H].
  apply H. repeat split.
Defined.

(** ** The rule, beyond the pairing list *)

Section RuleProperties.
Import Detection.

Lemma existsb_find {A} (f : A -> bool) (l : list A) :
  existsb f l = match find f l with Some _ => true | None => false end.
Proof.
  induction l as [|a l IH]; cbn; [reflexivity|].
  destruct (f a); [reflexivity|exact IH].
Qed.

Lemma filter_filter_implied {A} (f g : A -> bool) (l : list A) :
  (forall x, f x = true -> g x = true) ->
  List.filter f (List.filter g l) = List.filter f l.
Proof.
  intros H. induction l as [|a l IH]; cbn; [reflexivity|].
  destruct (g a) eqn:Hg; cbn.
  - rewrite IH. reflexivity.
  - destruct (f a) eqn:Hf; [|exact IH].
    apply H in Hf. congruence.
Qed.

Lemma filter_length_le {A} (f g : A -> bool) (l : list A) :
  (forall x, In x l -> f x = true -> g x = true) ->
  (length (List.filter f l) <= length (List.filter g l))%nat.
Proof.
  induction l as [|a l IH]; intros H; cbn; [lia|].
  assert (IH' : (length (List.filter f l) <= length (List.filter g l))%nat).
  { apply IH. intros x Hx. apply H. right. exact Hx. }
  destruct (f a) eqn:Hf.
  - rewrite (H a (or_introl eq_refl) Hf). cbn. lia.
  - destruct (g a); cbn; lia.
Qed.

(** A detection contributes a pairing exactly when it is offending. *)
Lemma pairing_of_offending (rois : list BBox) (detections : list Detection)
    (d : Detection) :
  length (pairing_of rois detections d)
  = if offending rois detections d then 1%nat else 0%nat.
Proof.
  unfold pairing_of, offending, first_pizza.
  match goal with
  | |- context [find ?f detections] => rewrite (existsb_find f detections)
  end.
  destruct (_ && _ && _); cbn [andb]; [|reflexivity].
  destruct (find _ detections); reflexivity.
Qed.

Lemma flat_map_pairings_length (rois : list BBox)
    (detections l : list Detection) :
  length (flat_map (pairing_of rois detections) l)
  = length (List.filter (offending rois detections) l).
Proof.
  induction l as [|d l IH]; cbn; [reflexivity|].
  rewrite length_app, pairing_of_offending, IH.
  destruct (offending rois detections d); reflexivity.
Qed.

Lemma violation_count_offending (rois : list BBox) (detections : list Detection) :
  violation_count (evaluate_rule rois detections)
  = Z.of_nat (length (List.filter (offending rois detections) detections)).
Proof.
  rewrite evaluate_rule_spec. cbn. unfold spec_pairings.
  rewrite flat_map_pairings_length. reflexivity.
Qed.

(** Membership in the list of one class. *)
Lemma covered_app (hb : BBox) (l1 l2 : list Detection) :
  covered hb (l1 ++ l2) = covered hb l1 || covered hb l2.
Proof. apply existsb_app. Qed.

End RuleProperties.

(** X5: the violation count of a frame is the number of offending hands:
    the hand detections that overlap an ROI, overlap no utensil and
    overlap at least one pizza.  It counts hands, not hand-pizza pairs. *)
Theorem violation_count_counts_offending_hands (rois : list BBox)
    (detections : list Detection.Detection) :
  Detection.violation_count (Detection.evaluate_rule rois detections)
  = Z.of_nat (length (List.filter (offending rois detections) detections))
  /\ 0 <= Detection.violation_count (Detection.evaluate_rule rois detections)
  /\ (forall d, offending rois detections d = true ->
        Detection.d_class d = "hand"
        /\ Detection.is_in_roi (Detection.d_bbox d) rois = true).
Proof.
  rewrite violation_count_offending. split; [reflexivity|]. split; [lia|].
  intros d H. unfold offending in H.
  apply andb_prop in H as [H _]. apply andb_prop in H as [H _].
  apply andb_prop in H as [H1 H2]. apply String.eqb_eq in H1.
  split; [exact H1|exact H2].
Qed.

(** X6: every recorded pairing is justified by the frame: its hand box is
    the box of a hand detection that is in scope and overlaps no utensil
    detection, and its pizza box is the box of a pizza detection that the
    hand overlaps. *)
Theorem pairings_are_sound (rois : list BBox)
    (detections : list Detection.Detection) (p : Detection.Pairing) :
  In p (Detection.violation_bboxes (Detection.evaluate_rule rois detections)) ->
  exists hand pizza,
    In hand detections /\ In pizza detections
    /\ Detection.d_class hand = "hand" /\ Detection.d_class pizza = "pizza"
    /\ p = Detection.mkPairing (Detection.d_bbox hand) (Detection.d_bbox pizza)
    /\ Detection.is_in_roi (Detection.d_bbox hand) rois = true
    /\ Detection.boxes_overlap (Detection.d_bbox hand) (Detection.d_bbox pizza)
         Detection.default_iou_threshold = true
    /\ (forall s, In s detections -> Detection.d_class s = "scooper" ->
          Detection.boxes_overlap (Detection.d_bbox hand) (Detection.d_bbox s)
            Detection.default_iou_threshold = false).
Proof.
  rewrite evaluate_rule_spec. cbn. unfold spec_pairings.
  rewrite in_flat_map. intros [hand [Hin Hp]]. unfold pairing_of in Hp.
  destruct (_ && _ && _) eqn:Hc; [|destruct Hp].
  apply andb_prop in Hc as [Hc Hcov]. apply andb_prop in Hc as [Hclass Hroi].
  apply String.eqb_eq in Hclass.
  destruct (first_pizza _ detections) as [pizza|] eqn:Hf; [|destruct Hp].
  destruct Hp as [<-|[]].
  apply find_some in Hf as [Hpin Hpz]. apply andb_prop in Hpz as [Hpc Hpo].
  apply String.eqb_eq in Hpc.
  exists hand, pizza. repeat split; try assumption.
  intros s Hs Hsc. apply negb_true_iff in Hcov.
  unfold covered in Hcov.
  destruct (Detection.boxes_overlap _ (Detection.d_bbox s) _) eqn:Ho;
    [|reflexivity].
  assert (Hex : existsb
                  (fun d => String.eqb (Detection.d_class d) "scooper"
                            && overlaps (Detection.d_bbox hand)
                                 (Detection.d_bbox d)) detections = true).
  { apply existsb_exists. exists s. split; [exact Hs|].
    rewrite Hsc. cbn. exact Ho. }
  congruence.
Qed.

Lemma pairings_are_sound_witness :
  exists hand pizza,
    In hand [hand1; pizza1] /\ In pizza [hand1; pizza1]
    /\ Detection.d_class hand = "hand" /\ Detection.d_class pizza = "pizza"
    /\ Detection.mkPairing (box_of_ints 50 34 56 37) (box_of_ints 49 33 57 38)
       = Detection.mkPairing (Detection.d_bbox hand) (Detection.d_bbox pizza)
    /\ Detection.is_in_roi (Detection.d_bbox hand) Detection.ROIS = true
    /\ Detection.boxes_overlap (Detection.d_bbox hand) (Detection.d_bbox pizza)
         Detection.default_iou_threshold = true
    /\ (forall s, In s [hand1; pizza1] -> Detection.d_class s = "scooper" ->
          Detection.boxes_overlap (Detection.d_bbox hand) (Detection.d_bbox s)
            Detection.default_iou_threshold = false).
Proof.
  apply (pairings_are_sound Detection.ROIS [hand1; pizza1]).
  left. reflexivity.
Defined.

(** X7: detections of any other class than hand, scooper and pizza do not
    influence the rule: removing them from the detection list leaves the
    count and the pairing list unchanged. *)
Theorem unknown_classes_are_ignored (rois : list BBox)
    (detections : list Detection.Detection) :
  Detection.evaluate_rule rois (List.filter known_class detections)
  = Detection.evaluate_rule rois detections.
Proof.
  unfold Detection.evaluate_rule, Detection.hands_of, Detection.scoops_of,
    Detection.pizzas_of.
  rewrite !filter_filter_implied; [reflexivity|..];
    intros x Hx; unfold known_class; rewrite Hx;
    rewrite ?orb_true_r; reflexivity.
Qed.

(** X8: a further utensil detection never adds a violation: inserting a
    scooper detection anywhere in the detection list gives a count that is
    at most the count without it. *)
Theorem extra_scooper_never_adds_violation (rois : list BBox)
    (before after : list Detection.Detection) (s : Detection.Detection) :
  Detection.d_class s = "scooper" ->
  Detection.violation_count
    (Detection.evaluate_rule rois (before ++ s :: after))
  <= Detection.violation_count (Detection.evaluate_rule rois (before ++ after)).
Proof.
  intros Hs. rewrite !violation_count_offending.
  apply inj_le.
  assert (Hs_off : offending rois (before ++ s :: after) s = false).
  { unfold offending. rewrite Hs. reflexivity. }
  assert (Himp : forall d, offending rois (before ++ s :: after) d = true ->
                           offending rois (before ++ after) d = true).
  { intros d H. unfold offending in *.
    apply andb_prop in H as [H Hp]. apply andb_prop in H as [H Hcov].
    rewrite H. cbn [andb].
    rewrite covered_app in Hcov. change (s :: after) with ([s] ++ after) in Hcov.
    rewrite covered_app in Hcov. rewrite !negb_orb in Hcov.
    apply andb_prop in Hcov as [Hc1 Hc2]. apply andb_prop in Hc2 as [_ Hc2].
    rewrite covered_app, negb_orb, Hc1, Hc2. cbn [andb].
    rewrite existsb_app in Hp. rewrite existsb_app.
    cbn [existsb] in Hp. rewrite Hs in Hp. cbn in Hp. exact Hp. }
  rewrite !List.filter_app, !length_app. cbn [List.filter]. rewrite Hs_off.
  pose proof (filter_length_le _ _ before (fun d _ => Himp d)).
  pose proof (filter_length_le _ _ after (fun d _ => Himp d)).
  lia.
Qed.

Lemma extra_scooper_never_adds_violation_witness :
  Detection.violation_count
    (Detection.evaluate_rule Detection.ROIS ([hand1] ++ scooper1 :: [pizza1]))
  <= Detection.violation_count
       (Detection.evaluate_rule Detection.ROIS ([hand1] ++ [pizza1])).
Proof.
  apply (extra_scooper_never_adds_violation Detection.ROIS [hand1] [pizza1]
           scooper1).
  reflexivity.
Defined.

(** ** The frame handler, beyond the claims *)

Section HandlerProperties.
Import Detection.

(** Splits a trace of one to three events into what precedes its last
    event and that event. *)
Ltac split_last :=
  lazymatch goal with
  | |- exists pre d, [?a] = _ /\ _ => exists [], a
  | |- exists pre d, [?a; ?b] = _ /\ _ => exists [a], b
  | |- exists pre d, [?a; ?b; ?c] = _ /\ _ => exists [a; b], c
  end; cbn; auto.

(** Every run of the handler ends with its single decision. *)
Lemma process_frame_decision (env : Env) (body : string) :
  exists pre d,
    process_frame env body = pre ++ [d]
    /\ (d = EAck \/ d = ENack false)
    /\ forallb (fun e => negb (is_decision e)) pre = true.
Proof.
  rewrite process_frame_paths. unfold nacked.
  destruct (json_loads env body) as [[message|]|e]; [|split_last ..].
  destruct (fm_frame message) as [frame_b64|]; [|split_last].
  destruct (b64decode env frame_b64) as [frame_bytes|e]; [|split_last].
  destruct (imdecode env frame_bytes) as [[frame|]|e]; [|split_last ..].
  destruct (model env frame) as [detections|e]; [|split_last].
  cbv zeta. destruct (0 <? _).
  - destruct (db_insert env _) as [[]|e]; [|split_last].
    destruct (basic_publish env _) as [[]|e]; split_last.
  - destruct (basic_publish env _) as [[]|e]; split_last.
Qed.

Lemma process_frame_one_decision (env : Env) (body : string) :
  length (List.filter is_decision (process_frame env body)) = 1%nat.
Proof.
  destruct (process_frame_decision env body) as (pre & d & -> & Hd & Hpre).
  rewrite List.filter_app, length_app.
  assert (Hnil : List.filter is_decision pre = []).
  { clear Hd. induction pre as [|a pre IH]; [reflexivity|].
    cbn in Hpre. apply andb_prop in Hpre as [Ha Hpre].
    cbn. apply negb_true_iff in Ha. rewrite Ha. apply IH. exact Hpre. }
  rewrite Hnil. destruct Hd as [->| ->]; reflexivity.
Qed.

End HandlerProperties.

(** X9: the frame handler takes exactly one acknowledgment decision per
    message, as its last effect, and a negative acknowledgment never asks
    for a requeue; over the bodies delivered to the consumer there are as
    many decisions as messages. *)
Theorem one_decision_per_frame (env : Detection.Env) (body : string)
    (bodies : list string) :
  (exists pre d,
      Detection.process_frame env body = pre ++ [d]
      /\ (d = Detection.EAck \/ d = Detection.ENack false)
      /\ forallb (fun e => negb (is_decision e)) pre = true)
  /\ length (List.filter is_decision (Detection.start_consuming env bodies))
     = length bodies.
Proof.
  split; [apply process_frame_decision|].
  unfold Detection.start_consuming.
  induction bodies as [|b bodies IH]; [reflexivity|].
  cbn [flat_map]. rewrite List.filter_app, length_app, IH.
  rewrite process_frame_one_decision. reflexivity.
Qed.

(** X10: when the detector raises on a decoded frame, the frame is lost:
    the error is logged and the message is negatively acknowledged without
    requeue, with no insert and no published result. *)
Theorem detector_failure_nacks (env : Detection.Env)
    (body frame_b64 frame_bytes e : string)
    (message : Detection.FrameMessage) (frame : Image) :
  Detection.json_loads env body = Ok (JObject message) ->
  Detection.fm_frame message = Some frame_b64 ->
  Detection.b64decode env frame_b64 = Ok frame_bytes ->
  Detection.imdecode env frame_bytes = Ok (Some frame) ->
  Detection.model env frame = Raise e ->
  Detection.process_frame env body
  = [Detection.ELogError e; Detection.ENack false].
Proof.
  intros Hj Hf Hb Hi Hm.
  rewrite process_frame_paths, Hj, Hf, Hb, Hi, Hm. reflexivity.
Qed.

Lemma detector_failure_nacks_witness :
  Detection.process_frame env_detector_fails "body"
  = [Detection.ELogError "CUDA out of memory"; Detection.ENack false].
Proof.
  apply (detector_failure_nacks env_detector_fails "body" "/9j/4AAQSkZJRg=="
           "jpeg bytes" "CUDA out of memory" frame_message1 image1);
    reflexivity.
Defined.

(** X11: when the violation has been inserted and publishing the result
    then raises, the row stays in the store while the message is
    negatively acknowledged and no result is published: a stored violation
    without a result message. *)
Theorem publish_failure_keeps_inserted_row (env : Detection.Env)
    (body frame_b64 frame_bytes e : string)
    (message : Detection.FrameMessage) (frame : Image)
    (detections : list Detection.Detection) :
  Detection.json_loads env body = Ok (JObject message) ->
  Detection.fm_frame message = Some frame_b64 ->
  Detection.b64decode env frame_b64 = Ok frame_bytes ->
  Detection.imdecode env frame_bytes = Ok (Some frame) ->
  Detection.model env frame = Ok detections ->
  let st := Detection.evaluate_rule Detection.ROIS detections in
  Detection.violation_bboxes st <> [] ->
  Detection.db_insert env (Detection.violation_row message detections st)
    = Ok tt ->
  Detection.basic_publish env
    (Detection.result_message env message detections st) = Raise e ->
  Detection.process_frame env body
  = [Detection.EInsert (Detection.violation_row message detections st);
     Detection.ELogError e; Detection.ENack false].
Proof.
  intros Hj Hf Hb Hi Hm st Hne Hins Hpub. subst st.
  rewrite process_frame_paths, Hj, Hf, Hb, Hi, Hm. cbv zeta.
  rewrite Hins, Hpub. rewrite evaluate_rule_spec in *. cbn in *.
  destruct (spec_pairings Detection.ROIS detections); [congruence|].
  reflexivity.
Qed.

Lemma publish_failure_keeps_inserted_row_witness :
  Detection.process_frame env_publish_fails "body"
  = [Detection.EInsert
       (Detection.violation_row frame_message1 [hand1; pizza1]
          (Detection.evaluate_rule Detection.ROIS [hand1; pizza1]));
     Detection.ELogError "Channel is closed"; Detection.ENack false].
Proof.
  apply (publish_failure_keeps_inserted_row env_publish_fails "body"
           "/9j/4AAQSkZJRg==" "jpeg bytes" "Channel is closed" frame_message1
           image1 [hand1; pizza1]); try reflexivity.
  discriminate.
Defined.

(** X12: a published result carries the video name and the frame id of
    the frame message and the whole detection list of the detector, and
    its timestamp is the time of processing, not the frame's; a row
    inserted for the frame carries the name, the id and the timestamp of
    the frame message, the kind [hand_no_scooper], and the class and the
    confidence of every detection. *)
Theorem result_carries_frame_identity (env : Detection.Env) (body : string)
    (r : Detection.ResultMessage) :
  In (Detection.EPublish r) (Detection.process_frame env body) ->
  exists message frame_b64 frame_bytes frame,
    Detection.json_loads env body = Ok (JObject message)
    /\ Detection.fm_frame message = Some frame_b64
    /\ Detection.b64decode env frame_b64 = Ok frame_bytes
    /\ Detection.imdecode env frame_bytes = Ok (Some frame)
    /\ Detection.model env frame = Ok (Detection.rm_detections r)
    /\ Detection.rm_video_name r = Detection.fm_video_name message
    /\ Detection.rm_frame_id r = Detection.fm_frame_id message
    /\ Detection.rm_timestamp r = Detection.datetime_now env
    /\ (forall row,
          In (Detection.EInsert row) (Detection.process_frame env body) ->
          Detection.vr_video_name row = Detection.fm_video_name message
          /\ Detection.vr_frame_id row = Detection.fm_frame_id message
          /\ Detection.vr_timestamp row = Detection.fm_timestamp message
          /\ Detection.vr_violation_type row = "hand_no_scooper"
          /\ Detection.vr_detected_objects row
             = map Detection.d_class (Detection.rm_detections r)
          /\ Detection.vr_confidence row
             = map Detection.d_confidence (Detection.rm_detections r)).
Proof.
  rewrite process_frame_paths. unfold nacked.
  destruct (Detection.json_loads env body) as [[message|]|e] eqn:Hj;
    [|intros [H|[H|[]]]; discriminate ..].
  destruct (Detection.fm_frame message) as [frame_b64|] eqn:Hf;
    [|intros [H|[]]; discriminate].
  destruct (Detection.b64decode env frame_b64) as [frame_bytes|e] eqn:Hb;
    [|intros [H|[H|[]]]; discriminate].
  destruct (Detection.imdecode env frame_bytes) as [[frame|]|e] eqn:Hi;
    [|intros [H|[]]; discriminate|intros [H|[H|[]]]; discriminate].
  destruct (Detection.model env frame) as [detections|e] eqn:Hm;
    [|intros [H|[H|[]]]; discriminate].
  cbv zeta. intros Hin.
  assert (Hr : r = Detection.result_message env message detections
                     (Detection.evaluate_rule Detection.ROIS detections)).
  { destruct (0 <? _).
    - destruct (Detection.db_insert env _) as [[]|e];
        [|destruct Hin as [H|[H|[]]]; discriminate].
      destruct (Detection.basic_publish env _) as [[]|e];
        [|destruct Hin as [H|[H|[H|[]]]]; discriminate].
      destruct Hin as [H|[H|[H|[]]]]; try discriminate. congruence.
    - destruct (Detection.basic_publish env _) as [[]|e];
        [|destruct Hin as [H|[H|[]]]; discriminate].
      destruct Hin as [H|[H|[]]]; try discriminate. congruence. }
  subst r. exists message, frame_b64, frame_bytes, frame.
  cbn [Detection.result_message Detection.rm_detections
       Detection.rm_video_name Detection.rm_frame_id Detection.rm_timestamp].
  do 8 (split; [reflexivity || assumption|]).
  intros row Hrow.
  assert (Hrw : row = Detection.violation_row message detections
                        (Detection.evaluate_rule Detection.ROIS detections)).
  { destruct (0 <? _).
    - destruct (Detection.db_insert env _) as [[]|e];
        [|destruct Hrow as [H|[H|[]]]; discriminate].
      destruct (Detection.basic_publish env _) as [[]|e].
      + destruct Hrow as [H|[H|[H|[]]]]; try discriminate. congruence.
      + destruct Hrow as [H|[H|[H|[]]]]; try discriminate. congruence.
    - destruct (Detection.basic_publish env _) as [[]|e];
        destruct Hrow as [H|[H|[]]]; discriminate. }
  subst row. repeat split.
Qed.

Lemma result_carries_frame_identity_witness :
  exists message frame_b64 frame_bytes frame,
    Detection.json_loads env_violation "body" = Ok (JObject message)
    /\ Detection.fm_frame message = Some frame_b64
    /\ Detection.b64decode env_violation frame_b64 = Ok frame_bytes
    /\ Detection.imdecode env_violation frame_bytes = Ok (Some frame)
    /\ Detection.model env_violation frame = Ok [hand1; pizza1]
    /\ Some "kitchen" = Detection.fm_video_name message
    /\ Some 5 = Detection.fm_frame_id message
    /\ "2024-01-01T00:00:00" = Detection.datetime_now env_violation
    /\ (forall row,
          In (Detection.EInsert row)
             (Detection.process_frame env_violation "body") ->
          Detection.vr_video_name row = Detection.fm_video_name message
          /\ Detection.vr_frame_id row = Detection.fm_frame_id message
          /\ Detection.vr_timestamp row = Detection.fm_timestamp message
          /\ Detection.vr_violation_type row = "hand_no_scooper"
          /\ Detection.vr_detected_objects row = ["hand"; "pizza"]
          /\ Detection.vr_confidence row = [9 # 10; 8 # 10]%Q).
Proof.
  apply (result_carries_frame_identity env_violation "body"
           (Detection.result_message env_violation frame_message1
              [hand1; pizza1]
              (Detection.evaluate_rule Detection.ROIS [hand1; pizza1]))).
  right. left. reflexivity.
Defined.

(** X13: a missing model file makes the constructor raise; a model file
    that fails to load does not: the detector is built with no model, and
    then no frame ever produces an insert or a result: every message is
    acknowledged as undecodable or negatively acknowledged. *)
Theorem unloaded_model_loses_every_frame (env : Detection.Env)
    (load : exn Detection.YOLO) (e body : string) :
  Detection.init false load = Raise "Model file not found"
  /\ Detection.init true (Raise e) = Ok None
  /\ (forall r, ~ In (Detection.EPublish r)
                   (Detection.process_frame (Detection.with_model env None) body))
  /\ (forall row, ~ In (Detection.EInsert row)
                     (Detection.process_frame (Detection.with_model env None) body))
  /\ (Detection.process_frame (Detection.with_model env None) body
        = [Detection.EAck]
      \/ exists e',
          Detection.process_frame (Detection.with_model env None) body
          = [Detection.ELogError e'; Detection.ENack false]).
Proof.
  split; [reflexivity|]. split; [reflexivity|].
  rewrite process_frame_paths. unfold nacked. cbn.
  destruct (Detection.json_loads env body) as [[message|]|e1].
  2,3: (split; [intros r [H|[H|[]]]; discriminate|];
        split; [intros r [H|[H|[]]]; discriminate|]; right; eauto).
  destruct (Detection.fm_frame message) as [frame_b64|].
  2: (split; [intros r [H|[]]; discriminate|];
      split; [intros r [H|[]]; discriminate|]; left; reflexivity).
  destruct (Detection.b64decode env frame_b64) as [frame_bytes|e1].
  2: (split; [intros r [H|[H|[]]]; discriminate|];
      split; [intros r [H|[H|[]]]; discriminate|]; right; eauto).
  destruct (Detection.imdecode env frame_bytes) as [[frame|]|e1].
  - split; [intros r [H|[H|[]]]; discriminate|].
    split; [intros r [H|[H|[]]]; discriminate|]. right. eauto.
  - split; [intros r [H|[]]; discriminate|].
    split; [intros r [H|[]]; discriminate|]. left. reflexivity.
  - split; [intros r [H|[H|[]]]; discriminate|].
    split; [intros r [H|[H|[]]]; discriminate|]. right. eauto.
Qed.

(** ** Startup, for every behaviour of the collaborators *)

(** Case analysis on the first five attempts. *)
Ltac five_attempts attempt :=
  destruct (attempt 0%nat) as [[]|?]; [reflexivity|];
  destruct (attempt 1%nat) as [[]|?]; [reflexivity|];
  destruct (attempt 2%nat) as [[]|?]; [reflexivity|];
  destruct (attempt 3%nat) as [[]|?]; [reflexivity|];
  destruct (attempt 4%nat) as [[]|?]; reflexivity.

Lemma detection_connect_loop_log (attempt : nat -> exn unit) (n : nat) :
  Detection.connect_loop (6 + n) attempt 0 (mkConnectLog 0 0)
  = Some (match first_success attempt with Some _ => true | None => false end,
          detection_log attempt).
Proof.
  unfold detection_log, first_success. cbn. five_attempts attempt.
Qed.

Lemma streaming_connect_loop_log (attempt : nat -> exn unit) (n : nat) :
  Streaming.connect_loop (6 + n) attempt 0 (mkConnectLog 0 0)
  = Some (match first_success attempt with
          | Some _ => Ok true
          | None => Raise (error_of (attempt 4%nat))
          end,
          streaming_log attempt).
Proof.
  unfold streaming_log, first_success. cbn. five_attempts attempt.
Qed.

Lemma first_success_bound (attempt : nat -> exn unit) (k : nat) :
  first_success attempt = Some k ->
  (k < 5)%nat /\ attempt k = Ok tt
  /\ forall j, (j < k)%nat -> exists e, attempt j = Raise e.
Proof.
  unfold first_success. cbn.
  destruct (attempt 0%nat) as [[]|e0] eqn:H0; cbn.
  { intros [= <-]. split; [lia|]. split; [exact H0|]. intros j Hj. lia. }
  destruct (attempt 1%nat) as [[]|e1] eqn:H1; cbn.
  { intros [= <-]. split; [lia|]. split; [exact H1|].
    intros [|j] Hj; [eauto|lia]. }
  destruct (attempt 2%nat) as [[]|e2] eqn:H2; cbn.
  { intros [= <-]. split; [lia|]. split; [exact H2|].
    intros [|[|j]] Hj; [eauto ..|lia]. }
  destruct (attempt 3%nat) as [[]|e3] eqn:H3; cbn.
  { intros [= <-]. split; [lia|]. split; [exact H3|].
    intros [|[|[|j]]] Hj; [eauto ..|lia]. }
  destruct (attempt 4%nat) as [[]|e4] eqn:H4; cbn.
  { intros [= <-]. split; [lia|]. split; [exact H4|].
    intros [|[|[|[|j]]]] Hj; [eauto ..|lia]. }
  discriminate.
Qed.

(** X14: for every behaviour of the store and of the broker, the
    connection methods of the detection service return within six tests of
    the loop condition and never raise; they are connected exactly when
    one of the first five attempts succeeds: after [k] failures the
    connection is made at attempt [k + 1] with [2 k] seconds slept, and
    after five failures the method returns unconnected with 10 seconds
    slept. *)
Theorem detection_connect_outcome (attempt : nat -> exn unit) (n : nat) :
  Detection.connect_db (6 + n) attempt
  = Some (match first_success attempt with Some _ => true | None => false end,
          detection_log attempt)
  /\ Detection.connect_rabbitmq (6 + n) attempt
     = Detection.connect_db (6 + n) attempt
  /\ (attempts (detection_log attempt) <= 5)%nat
  /\ (forall k, first_success attempt = Some k ->
        attempt k = Ok tt
        /\ detection_log attempt = mkConnectLog (S k) (2 * Z.of_nat k)).
Proof.
  split; [apply detection_connect_loop_log|]. split; [reflexivity|]. split.
  - unfold detection_log.
    destruct (first_success attempt) as [k|] eqn:Hk; cbn; [|lia].
    apply first_success_bound in Hk. lia.
  - intros k Hk. unfold detection_log. rewrite Hk.
    apply first_success_bound in Hk. tauto.
Qed.

(** X15: for every behaviour of the store and of the broker, the
    connection methods of the streaming service end within six tests of
    the loop condition; they return connected exactly when one of the
    first five attempts succeeds, after [k] failures at attempt [k + 1]
    with [2 k] seconds slept; after five failures they raise the error of
    the fifth attempt, having slept 8 seconds; they never return
    unconnected. *)
Theorem streaming_connect_outcome (attempt : nat -> exn unit) (n : nat) :
  Streaming.connect_db (6 + n) attempt
  = Some (match first_success attempt with
          | Some _ => Ok true
          | None => Raise (error_of (attempt 4%nat))
          end,
          streaming_log attempt)
  /\ Streaming.connect_rabbitmq (6 + n) attempt
     = Streaming.connect_db (6 + n) attempt
  /\ (forall log, Streaming.connect_db (6 + n) attempt <> Some (Ok false, log))
  /\ (first_success attempt = None ->
      exists e, attempt 4%nat = Raise e
                /\ Streaming.connect_db (6 + n) attempt
                   = Some (Raise e, mkConnectLog 5 8)).
Proof.
  unfold Streaming.connect_db, Streaming.connect_rabbitmq.
  rewrite streaming_connect_loop_log.
  split; [reflexivity|]. split; [reflexivity|]. split.
  - intros log. destruct (first_success attempt); congruence.
  - intros Hnone. unfold streaming_log. rewrite Hnone.
    unfold first_success in Hnone. cbn in Hnone.
    destruct (attempt 0%nat) as [[]|?]; [discriminate|].
    destruct (attempt 1%nat) as [[]|?]; [discriminate|].
    destruct (attempt 2%nat) as [[]|?]; [discriminate|].
    destruct (attempt 3%nat) as [[]|?]; [discriminate|].
    destruct (attempt 4%nat) as [[]|e]; [discriminate|].
    exists e. split; reflexivity.
Qed.

Lemma streaming_connect_outcome_witness :
  exists e, refused 4%nat = Raise e
            /\ Streaming.connect_db (6 + 0) refused
               = Some (Raise e, mkConnectLog 5 8).
Proof.
  apply (streaming_connect_outcome refused 0). reflexivity.
Defined.


(** X17: the streaming service gets its manager exactly when the store
    and then the broker accept one of their first five attempts, and the
    manager then starts with the given store and empty caches; otherwise
    the name stays unbound, and every endpoint of the API but the health
    probe answers 500. *)
Theorem create_manager_outcome (store : Streaming.Store)
    (db_attempt mq_attempt : nat -> exn unit) (n : nat)
    (r : Streaming.Request) :
  Streaming.create_manager (6 + n) store db_attempt mq_attempt
  = Some (match first_success db_attempt, first_success mq_attempt with
          | Some _, Some _ => Some (Streaming.mkStreamingManager store ∅ ∅)
          | _, _ => None
          end)
  /\ (r <> Streaming.GetHealth ->
      Streaming.serve None r
      = (Streaming.BError "name 'manager' is not defined", 500))
  /\ Streaming.serve None Streaming.GetHealth = (Streaming.BHealth, 200).
Proof.
  split; [|split; [|reflexivity]].
  - unfold Streaming.create_manager, Streaming.connect_db,
      Streaming.connect_rabbitmq.
    rewrite !streaming_connect_loop_log.
    destruct (first_success db_attempt); [|reflexivity].
    destruct (first_success mq_attempt); reflexivity.
  - intros Hr. rewrite serve_without_manager. destruct r; congruence.
Qed.

Lemma create_manager_outcome_witness :
  Streaming.create_manager (6 + 0) store_down third_time_lucky refused
  = Some None
  /\ Streaming.serve None Streaming.GetStatistics
     = (Streaming.BError "name 'manager' is not defined", 500).
Proof.
  destruct (create_manager_outcome store_down third_time_lucky refused 0
              Streaming.GetStatistics) as (H1 & H2 & _).
  split; [rewrite H1; reflexivity|apply H2; discriminate].
Defined.

(** ** The result consumer, for every body *)

Section ConsumerProperties.
Import Streaming.
Variable json_loads : string -> exn (Json ResultMessage).

(** What is left on the channel by the [except] clause. *)
Lemma process_detection_paths (self : StreamingManager) (body : string) :
  process_detection json_loads self body =
  match json_loads body with
  | Raise e => (self, [ELogError e; ENack false])
  | Ok JOther => (self, [ELogError "indices must be integers"; ENack false])
  | Ok (JObject m) =>
      match rm_video_name m with
      | None => (self, [ELogError "video_name"; ENack false])
      | Some v =>
          match rm_violation_count m with
          | None =>
              (mkStreamingManager (db_conn self)
                 (<[v := m]> (latest_detections self))
                 (video_violations self),
               [ELogError "violation_count"; ENack false])
          | Some n =>
              (mkStreamingManager (db_conn self)
                 (<[v := m]> (latest_detections self))
                 (<[v := default 0 (video_violations self !! v) + n]>
                    (video_violations self)),
               [EAck])
          end
      end
  end.
Proof.
  unfold process_detection, process_detection_body, try_except, bind, call,
    item, set_latest_detection, set_video_violations, emit, modify, get, ret,
    raise.
  destruct self as [db latest counters]. cbn.
  destruct (json_loads body) as [[m|]|e]; cbn; try reflexivity.
  destruct (rm_video_name m) as [v|]; cbn; [|reflexivity].
  destruct (rm_violation_count m) as [n|]; cbn; [|reflexivity].
  destruct (counters !! v) as [c|] eqn:Hc; cbn.
  - rewrite Hc. reflexivity.
  - rewrite lookup_insert_eq. cbn. rewrite insert_insert_eq. reflexivity.
Qed.

(** One message keeps the store, never removes an entry, and keeps the
    counters within the videos that have a latest result. *)
Lemma process_detection_invariant (self : StreamingManager) (body : string) :
  let self' := fst (process_detection json_loads self body) in
  db_conn self' = db_conn self
  /\ dom (latest_detections self) ⊆ dom (latest_detections self')
  /\ dom (video_violations self) ⊆ dom (video_violations self')
  /\ (dom (video_violations self) ⊆ dom (latest_detections self) ->
      dom (video_violations self') ⊆ dom (latest_detections self')).
Proof.
  rewrite process_detection_paths.
  destruct (json_loads body) as [[m|]|e]; cbn; [|set_solver ..].
  destruct (rm_video_name m) as [v|]; cbn; [|set_solver].
  destruct (rm_violation_count m) as [n|]; cbn;
    rewrite ?dom_insert_L; set_solver.
Qed.

Lemma consume_invariant (bodies : list string) (self : StreamingManager) :
  let self' := consume json_loads self bodies in
  db_conn self' = db_conn self
  /\ dom (latest_detections self) ⊆ dom (latest_detections self')
  /\ dom (video_violations self) ⊆ dom (video_violations self')
  /\ (dom (video_violations self) ⊆ dom (latest_detections self) ->
      dom (video_violations self') ⊆ dom (latest_detections self')).
Proof.
  revert self. induction bodies as [|b bodies IH]; intros self.
  - cbn. set_solver.
  - cbv zeta. rewrite consume_cons.
    destruct (process_detection_invariant self b) as (H1 & H2 & H3 & H4).
    destruct (IH (fst (process_detection json_loads self b)))
      as (I1 & I2 & I3 & I4).
    cbv zeta in *. split; [congruence|].
    split; [set_solver|]. split; [set_solver|]. auto.
Qed.

End ConsumerProperties.

(** X18: a body that does not parse as JSON, or parses to an object with
    no video name, is negatively acknowledged without requeue and leaves
    the caches as they were; a message with a video name but no violation count is rejected in
    the same way, but only after it has replaced the latest result of its
    video: the latest entry changes while the counter does not. *)
Theorem malformed_result_effects
    (json_loads : string -> exn (Json Streaming.ResultMessage))
    (self : Streaming.StreamingManager) (body : string) :
  (forall e, json_loads body = Raise e ->
     Streaming.process_detection json_loads self body
     = (self, [Streaming.ELogError e; Streaming.ENack false]))
  /\ (forall m, json_loads body = Ok (JObject m) ->
        Streaming.rm_video_name m = None ->
        Streaming.process_detection json_loads self body
        = (self, [Streaming.ELogError "video_name"; Streaming.ENack false]))
  /\ (forall m v, json_loads body = Ok (JObject m) ->
        Streaming.rm_video_name m = Some v ->
        Streaming.rm_violation_count m = None ->
        Streaming.process_detection json_loads self body
        = (Streaming.mkStreamingManager (Streaming.db_conn self)
             (<[v := m]> (Streaming.latest_detections self))
             (Streaming.video_violations self),
           [Streaming.ELogError "violation_count"; Streaming.ENack false])).
Proof.
  split; [|split].
  - intros e H. rewrite process_detection_paths, H. reflexivity.
  - intros m H Hv. rewrite process_detection_paths, H, Hv. reflexivity.
  - intros m v H Hv Hn. rewrite process_detection_paths, H, Hv, Hn.
    reflexivity.
Qed.

Lemma malformed_result_effects_witness :
  Streaming.process_detection json_loads_partial manager_down "r4"
  = (Streaming.mkStreamingManager store_down
       (<["kitchen" := result_without_count]> ∅) ∅,
     [Streaming.ELogError "violation_count"; Streaming.ENack false])
  /\ Streaming.process_detection json_loads_partial manager_down "junk"
     = (manager_down,
        [Streaming.ELogError "Expecting value: line 1 column 1 (char 0)";
         Streaming.ENack false]).
Proof.
  destruct (malformed_result_effects json_loads_partial manager_down "r4")
    as (_ & _ & H3).
  destruct (malformed_result_effects json_loads_partial manager_down "junk")
    as (H1 & _ & _).
  split.
  - apply (H3 result_without_count "kitchen"); reflexivity.
  - apply H1. reflexivity.
Defined.

(** X19: whatever bodies arrive, well formed or not, the consumer never
    changes the store connection and never removes an entry of either
    cache, and a video with a running counter always has a latest result:
    this holds after any sequence of bodies when it holds before, as it
    does for the empty caches of a new manager. *)
Theorem consume_keeps_caches_consistent
    (json_loads : string -> exn (Json Streaming.ResultMessage))
    (store : Streaming.Store) (bodies more : list string) :
  let self := Streaming.consume json_loads
                (Streaming.mkStreamingManager store ∅ ∅) bodies in
  let self' := Streaming.consume json_loads self more in
  Streaming.db_conn self' = store
  /\ dom (Streaming.video_violations self')
     ⊆ dom (Streaming.latest_detections self')
  /\ dom (Streaming.latest_detections self)
     ⊆ dom (Streaming.latest_detections self')
  /\ dom (Streaming.video_violations self)
     ⊆ dom (Streaming.video_violations self').
Proof.
  intros self self'.
  destruct (consume_invariant json_loads bodies
              (Streaming.mkStreamingManager store ∅ ∅)) as (H1 & _ & _ & H4).
  destruct (consume_invariant json_loads more self) as (I1 & I2 & I3 & I4).
  cbv zeta in *. fold self in H1, H4, I1, I2, I3, I4.
  fold self' in I1, I2, I3, I4. cbn in H1, H4.
  split; [congruence|]. split; [|split; assumption].
  apply I4. apply H4. set_solver.
Qed.

(** X20: the result consumer takes exactly one decision per body: either
    it acknowledges, or it logs an error and negatively acknowledges
    without requeue.  It acknowledges an object that carries a video name
    (a string) and a violation count (an integer); it negatively
    acknowledges a body that does not parse, with the parser's error, a
    body that parses to something else than an object, and an object from
    which one of the two keys is absent. *)
Theorem one_decision_per_result
    (json_loads : string -> exn (Json Streaming.ResultMessage))
    (self : Streaming.StreamingManager) (body : string) :
  (snd (Streaming.process_detection json_loads self body) = [Streaming.EAck]
   \/ exists e,
       snd (Streaming.process_detection json_loads self body)
       = [Streaming.ELogError e; Streaming.ENack false])
  /\ (forall m v n,
        json_loads body = Ok (JObject m) ->
        Streaming.rm_video_name m = Some v ->
        Streaming.rm_violation_count m = Some n ->
        snd (Streaming.process_detection json_loads self body)
        = [Streaming.EAck])
  /\ (forall e,
        json_loads body = Raise e ->
        snd (Streaming.process_detection json_loads self body)
        = [Streaming.ELogError e; Streaming.ENack false])
  /\ (json_loads body = Ok JOther ->
      exists e,
        snd (Streaming.process_detection json_loads self body)
        = [Streaming.ELogError e; Streaming.ENack false])
  /\ (forall m,
        json_loads body = Ok (JObject m) ->
        Streaming.rm_video_name m = None
        \/ Streaming.rm_violation_count m = None ->
        exists e,
          snd (Streaming.process_detection json_loads self body)
          = [Streaming.ELogError e; Streaming.ENack false]).
Proof.
  rewrite process_detection_paths.
  split; [|split; [|split; [|split]]].
  - destruct (json_loads body) as [[m|]|e]; cbn; [|right; eauto ..].
    destruct (Streaming.rm_video_name m) as [v|]; cbn; [|right; eauto].
    destruct (Streaming.rm_violation_count m) as [n|]; cbn;
      [left; reflexivity|right; eauto].
  - intros m v n -> -> ->. reflexivity.
  - intros e ->. reflexivity.
  - intros ->. cbn. eauto.
  - intros m -> [H|H].
    + rewrite H. cbn. eauto.
    + rewrite H. destruct (Streaming.rm_video_name m); cbn; eauto.
Qed.

(** X21: the consumer and the API compose: after the manager has consumed
    a sequence of well-formed result messages, the latest-detection
    endpoint answers 200 with the last message of the video asked for, and
    404 when no message of that video was consumed. *)
Theorem latest_detection_after_consume
    (json_loads : string -> exn (Json Streaming.ResultMessage))
    (store : Streaming.Store) (msgs : list Streaming.ResultMessage)
    (v : string) :
  Forall (well_formed json_loads) msgs ->
  Streaming.serve
    (Some (Streaming.consume json_loads
             (Streaming.mkStreamingManager store ∅ ∅)
             (map Streaming.rm_body msgs)))
    (Streaming.GetLatestDetection v)
  = match last (for_video v msgs) with
    | Some m => (Streaming.BLatest m, 200)
    | None => (Streaming.BError "No detections found", 404)
    end.
Proof.
  intros Hwf. rewrite serve_paths.
  destruct (consume_from json_loads msgs
              (Streaming.mkStreamingManager store ∅ ∅) v Hwf) as [Hl _].
  cbv zeta in Hl. rewrite Hl. cbn.
  destruct (last (for_video v msgs)); [reflexivity|].
  rewrite lookup_empty. reflexivity.
Qed.

Lemma latest_detection_after_consume_witness :
  Streaming.serve
    (Some (Streaming.consume json_loads_results manager_down
             ["r1"; "r2"; "r3"]))
    (Streaming.GetLatestDetection "kitchen")
  = (Streaming.BLatest result_kitchen2, 200).
Proof.
  apply (latest_detection_after_consume json_loads_results store_down
           [result_kitchen1; result_bar; result_kitchen2] "kitchen").
  repeat constructor; cbn; eauto.
Defined.

(** ** The frame producer, beyond the claims *)

Section ProducerProperties.
Import FrameReader.

(** Going from [m] to [m + 1] adds one multiple of [k] exactly when
    [m + 1] is one. *)
Lemma div_succ (k m : Z) :
  1 <= k -> 0 <= m ->
  (m + 1) / k = m / k + (if (m + 1) mod k =? 0 then 1 else 0).
Proof.
  intros Hk Hm.
  pose proof (Z.div_mod (m + 1) k ltac:(lia)) as Hdm.
  pose proof (Z.mod_pos_bound (m + 1) k ltac:(lia)) as Hr.
  destruct (Z.eqb_spec ((m + 1) mod k) 0) as [H0|H0].
  - assert (Hq : (m + 1) / k - 1 = m / k).
    { apply (Z.div_unique m k _ (k - 1)); [left; lia|]. lia. }
    lia.
  - assert (Hq : (m + 1) / k = m / k).
    { apply (Z.div_unique m k _ ((m + 1) mod k - 1)); [left; lia|]. lia. }
    lia.
Qed.

Lemma count_multiples (k : Z) (n : nat) :
  1 <= k ->
  Z.of_nat (length (List.filter (fun i => i mod k =? 0)
                      (map Z.of_nat (seq 1 n))))
  = Z.of_nat n / k.
Proof.
  intros Hk. induction n as [|n IH].
  - cbn. rewrite Z.div_0_l by lia. reflexivity.
  - rewrite seq_S, map_app, List.filter_app, length_app, Nat2Z.inj_add, IH.
    cbn [map List.filter].
    replace (Z.of_nat (S n)) with (Z.of_nat n + 1) by lia.
    replace (Z.of_nat (1 + n)) with (Z.of_nat n + 1) by lia.
    rewrite (div_succ k (Z.of_nat n)) by lia.
    destruct ((Z.of_nat n + 1) mod k =? 0); reflexivity.
Qed.

Lemma sampled_length (k : Z) (frames : list SourceFrame) :
  1 <= k ->
  Z.of_nat (length (sampled k frames)) = Z.of_nat (length frames) / k.
Proof.
  intros Hk. rewrite <- (length_map fst). unfold sampled.
  rewrite sampled_ids. apply count_multiples. exact Hk.
Qed.

(** One sampled frame gives one event, of the expected form. *)
Lemma publish_events_one (env : Env) (video_name : string)
    (p : Z * SourceFrame) :
  exists e, publish_events env video_name p = [e]
            /\ event_of_frame video_name p e.
Proof.
  unfold publish_events, publish_frame, try_except, bind, call, emit, modify,
    event_of_frame.
  destruct (imencode_b64 env _); cbn; [|eauto].
  destruct (imwrite env _ _); cbn; [|eauto].
  destruct (basic_publish env _); cbn; [|eauto].
  eexists. split; [reflexivity|]. left. eexists. repeat split.
Qed.

Lemma flat_map_publish_events (env : Env) (video_name : string)
    (l : list (Z * SourceFrame)) :
  Forall2 (event_of_frame video_name) l
    (flat_map (publish_events env video_name) l).
Proof.
  induction l as [|p l IH]; cbn [flat_map]; [constructor|].
  destruct (publish_events_one env video_name p) as (e & -> & He).
  constructor; assumption.
Qed.

Lemma filter_all {A} (f : A -> bool) (l : list A) :
  (forall x, f x = true) -> List.filter f l = l.
Proof.
  intros H. induction l as [|a l IH]; cbn; [reflexivity|].
  rewrite H, IH. reflexivity.
Qed.

Lemma read_video_run (env : Env) (cap : VideoCapture) (video_name : string)
    (max_fps : Z) :
  isOpened cap = true ->
  max_fps <> 0 ->
  read_video env cap video_name max_fps []
  = (Ok tt, flat_map (publish_events env video_name)
              (sampled (stride (cap_fps cap) max_fps) (cap_frames cap))).
Proof.
  intros Hopen Hfps. unfold read_video. rewrite Hopen. cbn [negb].
  destruct (Z.eqb_spec max_fps 0) as [|_]; [contradiction|].
  rewrite frame_skip_of_stride. change 0 with (Z.of_nat 0) at 1.
  rewrite read_loop_events. reflexivity.
Qed.

End ProducerProperties.

(** X22: reading an opened source with [n] frames hands exactly
    [floor(n / stride)] frames to the publisher, whatever the codec and the
    broker do: the trace of the reader has that many events. *)
Theorem read_video_event_count (env : FrameReader.Env)
    (cap : FrameReader.VideoCapture) (video_name : string) (max_fps : Z) :
  FrameReader.isOpened cap = true ->
  max_fps <> 0 ->
  Z.of_nat (length (snd (FrameReader.read_video env cap video_name max_fps [])))
  = Z.of_nat (length (FrameReader.cap_frames cap))
    / stride (FrameReader.cap_fps cap) max_fps.
Proof.
  intros Hopen Hfps. rewrite (read_video_run env cap video_name max_fps Hopen Hfps).
  cbn [snd].
  pose proof (flat_map_publish_events env video_name
                (sampled (stride (FrameReader.cap_fps cap) max_fps)
                   (FrameReader.cap_frames cap))) as H.
  apply Forall2_length in H. rewrite <- H.
  apply sampled_length. apply stride_pos.
Qed.

Lemma read_video_event_count_witness :
  Z.of_nat (length (snd (FrameReader.read_video env_flaky_broker cap_13_frames
                           "kitchen" 5 [])))
  = 13 / 6.
Proof.
  rewrite (read_video_event_count env_flaky_broker cap_13_frames "kitchen" 5
             eq_refl ltac:(discriminate)).
  reflexivity.
Defined.

(** X23: a frame that cannot be encoded, saved or published does not stop
    the reader: reading an opened source always returns normally, and its
    trace has, in order, one event for each frame whose index is a
    multiple of the stride: the Frame message of that frame, with its
    index, video name, position, height and width, or a logged error. *)
Theorem read_video_isolates_failures (env : FrameReader.Env)
    (cap : FrameReader.VideoCapture) (video_name : string) (max_fps : Z) :
  FrameReader.isOpened cap = true ->
  max_fps <> 0 ->
  exists t,
    FrameReader.read_video env cap video_name max_fps [] = (Ok tt, t)
    /\ Forall2 (event_of_frame video_name)
         (sampled (stride (FrameReader.cap_fps cap) max_fps)
            (FrameReader.cap_frames cap)) t.
Proof.
  intros Hopen Hfps. eexists. split.
  - apply read_video_run; assumption.
  - apply flat_map_publish_events.
Qed.

Lemma read_video_isolates_failures_witness :
  exists t,
    FrameReader.read_video env_flaky_broker cap_13_frames "kitchen" 5 []
    = (Ok tt, t)
    /\ Forall2 (event_of_frame "kitchen")
         (sampled (stride (FrameReader.cap_fps cap_13_frames) 5)
            (FrameReader.cap_frames cap_13_frames)) t.
Proof.
  apply (read_video_isolates_failures env_flaky_broker cap_13_frames "kitchen" 5).
  - reflexivity.
  - discriminate.
Defined.

Example flaky_broker_trace :
  map (fun e => match e with
                | FrameReader.EPublish msg => Some (FrameReader.fm_frame_id msg)
                | FrameReader.ELogError _ => None
                end)
      (snd (FrameReader.read_video env_flaky_broker cap_13_frames "kitchen" 5 []))
  = [None; Some 12].
Proof. reflexivity. Qed.

Section StrideProperties.

Lemma inject_Z_pos (m : Z) : 0 < m -> (0 < inject_Z m)%Q.
Proof. intros H. unfold Qlt. cbn. lia. Qed.

Lemma stride_fast_source (fps : Q) (max_fps : Z) :
  0 < max_fps ->
  (inject_Z max_fps <= fps)%Q ->
  stride fps max_fps = Qfloor (fps / inject_Z max_fps).
Proof.
  intros Hm Hfast. unfold stride.
  assert (Hq : (0 < inject_Z max_fps)%Q).
  { apply inject_Z_pos. exact Hm. }
  assert (H1 : (1 <= fps / inject_Z max_fps)%Q).
  { apply Qle_shift_div_l; [exact Hq|]. lra. }
  apply Qfloor_resp_le in H1. change (Qfloor 1) with 1 in H1. lia.
Qed.

Lemma stride_slow_source (fps : Q) (max_fps : Z) :
  0 < max_fps ->
  (fps < inject_Z max_fps)%Q ->
  stride fps max_fps = 1.
Proof.
  intros Hm Hslow. unfold stride.
  assert (Hq : (0 < inject_Z max_fps)%Q).
  { apply inject_Z_pos. exact Hm. }
  assert (H1 : (fps / inject_Z max_fps < 1)%Q).
  { apply Qlt_shift_div_r; [exact Hq|]. lra. }
  pose proof (Qfloor_le (fps / inject_Z max_fps)) as H2.
  assert (H3 : (inject_Z (Qfloor (fps / inject_Z max_fps)) < inject_Z 1)%Q).
  { change (inject_Z 1) with 1%Q. lra. }
  rewrite <- Zlt_Qlt in H3. lia.
Qed.

End StrideProperties.

(** X24: for a positive target rate, [read_video] decimates a source at
    least as fast as the target by a frame skip with
    [frame_skip * target <= native < (frame_skip + 1) * target], so the
    frames are published at no less than the target rate; for a source
    slower than the target the frame skip is 1 and [read_video] hands
    every frame of the source to [publish_frame]. *)
Theorem stride_brackets_native_rate (env : FrameReader.Env)
    (cap : FrameReader.VideoCapture) (video_name : string) (max_fps : Z) :
  0 < max_fps ->
  ((inject_Z max_fps <= FrameReader.cap_fps cap)%Q ->
   (inject_Z (FrameReader.frame_skip_of (FrameReader.cap_fps cap) max_fps)
    * inject_Z max_fps <= FrameReader.cap_fps cap)%Q
   /\ (FrameReader.cap_fps cap
       < (inject_Z (FrameReader.frame_skip_of (FrameReader.cap_fps cap) max_fps)
          + 1) * inject_Z max_fps)%Q)
  /\ ((FrameReader.cap_fps cap < inject_Z max_fps)%Q ->
      FrameReader.frame_skip_of (FrameReader.cap_fps cap) max_fps = 1
      /\ (FrameReader.isOpened cap = true ->
          FrameReader.read_video env cap video_name max_fps []
          = (Ok tt,
             flat_map
               (fun p =>
                  snd (FrameReader.publish_frame env
                         (FrameReader.sf_image (snd p)) (fst p) video_name
                         (FrameReader.sf_pos_msec (snd p)) []))
               (combine
                  (map Z.of_nat
                     (seq 1 (length (FrameReader.cap_frames cap))))
                  (FrameReader.cap_frames cap))))).
Proof.
  intros Hm. set (fps := FrameReader.cap_fps cap).
  assert (Hq : (0 < inject_Z max_fps)%Q).
  { apply inject_Z_pos. exact Hm. }
  split.
  - intros Hfast. rewrite frame_skip_of_stride.
    rewrite (stride_fast_source fps max_fps Hm Hfast).
    set (x := (fps / inject_Z max_fps)%Q).
    assert (Hx : (inject_Z max_fps * x == fps)%Q).
    { apply Qmult_div_r. lra. }
    pose proof (Qfloor_le x) as Hlo. pose proof (Qlt_floor x) as Hhi.
    rewrite inject_Z_plus in Hhi. change (inject_Z 1) with 1%Q in Hhi.
    split; nra.
  - intros Hslow. rewrite frame_skip_of_stride.
    rewrite (stride_slow_source fps max_fps Hm Hslow).
    split; [reflexivity|]. intros Hopen.
    rewrite (read_video_run env cap video_name max_fps Hopen) by lia.
    fold fps. rewrite (stride_slow_source fps max_fps Hm Hslow).
    f_equal. unfold sampled, sampled_from.
    change (combine (map Z.of_nat (seq 1 (length (FrameReader.cap_frames cap))))
              (FrameReader.cap_frames cap))
      with (indexed_from 1 (FrameReader.cap_frames cap)).
    rewrite filter_all; [reflexivity|].
    intros p. rewrite Z.mod_1_r. reflexivity.
Qed.

Lemma stride_brackets_native_rate_witness :
  ((inject_Z (FrameReader.frame_skip_of (FrameReader.cap_fps cap_13_frames) 5)
    * inject_Z 5 <= FrameReader.cap_fps cap_13_frames)%Q
   /\ (FrameReader.cap_fps cap_13_frames
       < (inject_Z (FrameReader.frame_skip_of
                      (FrameReader.cap_fps cap_13_frames) 5) + 1)
         * inject_Z 5)%Q)
  /\ FrameReader.frame_skip_of (FrameReader.cap_fps cap_slow) 5 = 1
  /\ length (snd (FrameReader.read_video env_reliable cap_slow "kitchen" 5 []))
     = 4%nat.
Proof.
  split; [|split].
  - apply (stride_brackets_native_rate env_reliable cap_13_frames "kitchen" 5
             eq_refl).
    vm_compute. discriminate.
  - apply (stride_brackets_native_rate env_reliable cap_slow "kitchen" 5
             eq_refl).
    reflexivity.
  - destruct (stride_brackets_native_rate env_reliable cap_slow "kitchen" 5
                eq_refl) as [_ H].
    destruct (H eq_refl) as [_ H'].
    rewrite (H' eq_refl). reflexivity.
Defined.

(** ** Reading a directory of videos *)

Section Directory.
Import FrameReader.

Lemma string_compare_OT (a b : string) :
  String.compare a b = String_as_OT.compare a b.
Proof.
  revert b. induction a as [|c a IH]; intros [|d b]; reflexivity.
Qed.

Lemma path_le_lt_eq (a b : string) :
  path_le a b <-> String_as_OT.lt a b \/ a = b.
Proof.
  unfold path_le, String.leb, String_as_OT.lt. rewrite string_compare_OT.
  destruct (String_as_OT.compare_spec a b) as [Heq|Hlt|Hgt].
  - split; [auto|reflexivity].
  - split; [auto|reflexivity].
  - split; [discriminate|]. intros [H| ->].
    + discriminate.
    + exfalso. apply (StrictOrder_Irreflexive b). exact Hgt.
Qed.

#[local] Instance path_le_transitive : Transitive path_le.
Proof.
  intros a b c. rewrite !path_le_lt_eq. intros [H1| ->] [H2| ->]; auto.
  left. transitivity b; assumption.
Qed.

#[local] Instance path_le_total : Total path_le.
Proof. intros a b. apply String.leb_total. Qed.

#[local] Instance path_le_antisymm : AntiSymm (=) path_le.
Proof. intros a b. apply String.leb_antisym. Qed.

Lemma sorted_Permutation (paths : list string) : sorted paths ≡ₚ paths.
Proof. apply merge_sort_Permutation. Qed.

Lemma sorted_StronglySorted (paths : list string) :
  StronglySorted path_le (sorted paths).
Proof. apply StronglySorted_merge_sort; apply _. Qed.

(** The result of [sorted] does not depend on the order of its input. *)
Lemma sorted_of_Permutation (l1 l2 : list string) :
  l1 ≡ₚ l2 -> sorted l1 = sorted l2.
Proof.
  intros H. apply (StronglySorted_unique path_le).
  - apply sorted_StronglySorted.
  - apply sorted_StronglySorted.
  - rewrite !sorted_Permutation. exact H.
Qed.

(** Reading a video returns normally and only adds to the trace, opened or
    not. *)
Lemma read_video_appends (env : Env) (cap : VideoCapture) (video_name : string)
    (t : list Event) :
  read_video env cap video_name 5 t
  = (Ok tt, t ++ snd (read_video env cap video_name 5 [])).
Proof.
  unfold read_video. destruct (isOpened cap); cbn [negb].
  - cbn [Z.eqb]. change 0 with (Z.of_nat 0).
    rewrite !read_loop_events. reflexivity.
  - cbn. rewrite app_nil_r. reflexivity.
Qed.

Lemma read_all_events (env : Env) (files : Files) (paths : list string)
    (t : list Event) :
  read_all env files paths t
  = (Ok tt, t ++ flat_map (video_events env files) paths).
Proof.
  revert t. induction paths as [|p paths IH]; intros t; cbn [read_all flat_map].
  - cbn. rewrite app_nil_r. reflexivity.
  - unfold bind. rewrite read_video_appends, IH.
    rewrite <- app_assoc. reflexivity.
Qed.

Lemma video_files_Permutation (files1 files2 : Files) :
  (forall pattern, glob files1 pattern ≡ₚ glob files2 pattern) ->
  video_files files1 ≡ₚ video_files files2.
Proof.
  intros H. unfold video_files. cbn [flat_map video_extensions].
  repeat apply Permutation_app; try apply H. reflexivity.
Qed.

End Directory.

Example sorted_paths :
  FrameReader.sorted ["videos/b.mp4"; "videos/a.mp4"; "videos/B.mkv"]
  = ["videos/B.mkv"; "videos/a.mp4"; "videos/b.mp4"].
Proof. reflexivity. Qed.

(** X25: with no video file in the directory the reader never returns
    and publishes nothing; with at least one it returns normally, whatever
    happens to the single videos: it reads every file found exactly once,
    in increasing order of path, and its trace is the events of the videos
    in that order.  The service makes a single connection attempt, and a
    refused one ends it before any video is read. *)
Theorem process_all_videos_outcome (env : FrameReader.Env)
    (files : FrameReader.Files) (attempt : nat -> exn unit) :
  FrameReader.process_all_videos env files
  = match FrameReader.video_files files with
    | [] => FrameReader.WaitsForever []
    | _ :: _ =>
        FrameReader.Finished (Ok tt)
          (flat_map (video_events env files)
             (FrameReader.sorted (FrameReader.video_files files)))
    end
  /\ FrameReader.sorted (FrameReader.video_files files)
     ≡ₚ FrameReader.video_files files
  /\ StronglySorted FrameReader.path_le
       (FrameReader.sorted (FrameReader.video_files files))
  /\ FrameReader.main env files attempt
     = match attempt 0%nat with
       | Raise e => FrameReader.Finished (Raise e) []
       | Ok _ => FrameReader.process_all_videos env files
       end.
Proof.
  split; [|split; [apply sorted_Permutation|split;
                   [apply sorted_StronglySorted|reflexivity]]].
  unfold FrameReader.process_all_videos.
  rewrite read_all_events.
  destruct (FrameReader.video_files files); reflexivity.
Qed.

(** X26: the order in which the directory lists its files does not
    matter: two listings that give the same files for every pattern, in
    any order, lead to the same run of the reader. *)
Theorem listing_order_is_irrelevant (env : FrameReader.Env)
    (files1 files2 : FrameReader.Files) :
  (forall pattern,
      FrameReader.glob files1 pattern ≡ₚ FrameReader.glob files2 pattern) ->
  (forall path, FrameReader.VideoCapture_of files1 path
                = FrameReader.VideoCapture_of files2 path) ->
  (forall path, FrameReader.stem files1 path = FrameReader.stem files2 path) ->
  FrameReader.process_all_videos env files1
  = FrameReader.process_all_videos env files2.
Proof.
  intros Hglob Hcap Hstem.
  pose proof (video_files_Permutation files1 files2 Hglob) as Hperm.
  unfold FrameReader.process_all_videos. rewrite !read_all_events.
  rewrite (Permutation_length Hperm), (sorted_of_Permutation _ _ Hperm).
  destruct (length (FrameReader.video_files files2) =? 0)%nat; [reflexivity|].
  f_equal. cbn [app].
  induction (FrameReader.sorted (FrameReader.video_files files2)) as [|p l IH];
    [reflexivity|].
  cbn [flat_map]. rewrite IH. unfold video_events at 1 3.
  rewrite Hcap, Hstem. reflexivity.
Qed.

Lemma listing_order_is_irrelevant_witness :
  FrameReader.process_all_videos env_reliable files_listing1
  = FrameReader.process_all_videos env_reliable files_listing2.
Proof.
  apply (listing_order_is_irrelevant env_reliable files_listing1 files_listing2).
  - intros pattern. cbn. destruct (String.eqb pattern "*.mp4").
    + apply perm_swap.
    + reflexivity.
  - reflexivity.
  - reflexivity.
Defined.

(** ** The API and the caches *)

(** X27: a handler of the API answers 404 in two cases only: the latest
    detection of a video that has no entry in the cache, and the details
    of a violation id for which the store returns no row.  (A URL that
    matches no route, such as a negative violation id, never reaches a
    handler: the framework answers it with a 404 of its own.) *)
Theorem not_found_cases (self : Streaming.StreamingManager)
    (r : Streaming.Request) :
  snd (Streaming.serve (Some self) r) = 404 <->
  (exists v, r = Streaming.GetLatestDetection v
             /\ Streaming.latest_detections self !! v = None)
  \/ (exists i, r = Streaming.GetViolationDetails i
                /\ Streaming.q_by_id (Streaming.db_conn self) (Z.of_N i)
                   = Ok None).
Proof.
  rewrite serve_paths. destruct r as [v| |v|v|i| |]; cbn.
  - split; [discriminate|]. intros [(? & [=] & _)|(? & [=] & _)].
  - destruct (Streaming.q_counts_per_video _); cbn;
      (split; [discriminate|intros [(? & [=] & _)|(? & [=] & _)]]).
  - destruct (Streaming.latest_detections self !! v) eqn:Hl; cbn.
    + split; [discriminate|].
      intros [(? & [= <-] & H)|(? & [=] & _)]. congruence.
    + split; [|reflexivity]. intros _. left. eauto.
  - destruct (Streaming.q_first_last _ v); cbn;
      (split; [discriminate|intros [(? & [=] & _)|(? & [=] & _)]]).
  - destruct (Streaming.q_by_id _ (Z.of_N i)) as [[?|]|?] eqn:Hq; cbn.
    + split; [discriminate|].
      intros [(? & [=] & _)|(? & [= <-] & H)]. congruence.
    + split; [|reflexivity]. intros _. right. eauto.
    + split; [discriminate|].
      intros [(? & [=] & _)|(? & [= <-] & H)]. congruence.
  - split; [discriminate|]. intros [(? & [=] & _)|(? & [=] & _)].
  - destruct (Streaming.q_total _) as [[?|]|?]; cbn;
      [|split; [discriminate|intros [(? & [=] & _)|(? & [=] & _)]] ..].
    destruct (Streaming.q_videos_with_violations _) as [[?|]|?]; cbn;
      [|split; [discriminate|intros [(? & [=] & _)|(? & [=] & _)]] ..].
    destruct (Streaming.q_violation_types _); cbn;
      (split; [discriminate|intros [(? & [=] & _)|(? & [=] & _)]]).
Qed.

(** X28: the running counters kept by the consumer are never served: two
    managers that differ only in their counters give the same answer to
    every request; the counts of the API all come from the store. *)
Theorem counters_are_never_served (store : Streaming.Store)
    (latest : gmap string Streaming.ResultMessage)
    (counters counters' : gmap string Z) (r : Streaming.Request) :
  Streaming.serve (Some (Streaming.mkStreamingManager store latest counters)) r
  = Streaming.serve
      (Some (Streaming.mkStreamingManager store latest counters')) r.
Proof. rewrite !serve_paths. destruct r; reflexivity. Qed.

(** X29: consuming result messages changes the answers of the
    latest-detection endpoint only: after any sequence of bodies every
    other request is answered as before. *)
Theorem consume_changes_latest_detection_only
    (json_loads : string -> exn (Json Streaming.ResultMessage))
    (self : Streaming.StreamingManager) (bodies : list string)
    (r : Streaming.Request) :
  (forall v, r <> Streaming.GetLatestDetection v) ->
  Streaming.serve (Some (Streaming.consume json_loads self bodies)) r
  = Streaming.serve (Some self) r.
Proof.
  intros Hr. rewrite !serve_paths.
  destruct (consume_invariant json_loads bodies self) as (Hdb & _).
  cbv zeta in Hdb.
  destruct r as [v| |v|v|i| |]; rewrite ?Hdb; try reflexivity.
  exfalso. apply (Hr v). reflexivity.
Qed.

Lemma consume_changes_latest_detection_only_witness :
  Streaming.serve
    (Some (Streaming.consume json_loads_results manager_down
             ["r1"; "r2"; "r3"]))
    (Streaming.GetViolations "kitchen")
  = Streaming.serve (Some manager_down) (Streaming.GetViolations "kitchen").
Proof.
  apply (consume_changes_latest_detection_only json_loads_results manager_down
           ["r1"; "r2"; "r3"] (Streaming.GetViolations "kitchen")).
  discriminate.
Defined.

(** ** The store and the frame handler *)


